(** * Jordan Water Model: rolling-horizon allocation core, aquifer response
      engine and tanker market clearing.

    A shallow embedding of the Python sources
      - [JWM/components/institutions/government.py] (CWA, JVA, WAJ),
      - [JWM/engines/gw_module.py] (GWResponseEngine),
      - [JWM/components/institutions/market.py] (TankerMarket),
    together with the properties of these components.

    Conventions of the embedding.
      - The sources are Python 2 ([print] statements, [iteritems],
        [cPickle]): [range] returns a list that can be appended to.
      - Python floats are modelled by exact rationals [Q]; equality of
        numeric results is [Qeq] ([==]). The balance of the reservoirs of
        Mujib and Walah, where the sign of a rounded difference is at
        stake, is modelled on IEEE 754 binary64 numbers instead
        ([Float64]).
      - Python exceptions are modelled by the [result] monad.
      - A numpy array is modelled by its index function together with its
        shape; a Python dict by a finite map or, where every key of the
        index set is present, by a total function on the index set.
      - The numerical solver backends, which are external processes, are an
        oracle handed to the code as an argument. *)

From Stdlib Require Import ZArith QArith Qminmax Lia Lqa Bool.
From Stdlib Require Import List String FinFun.
From Stdlib Require SpecFloat.
From stdpp Require Import base option list gmap strings.
Import ListNotations.

Local Open Scope string_scope.
Local Open Scope list_scope.
Local Open Scope Z_scope.

(* ================================================================== *)
(** * Part I: the embedding                                            *)
(* ================================================================== *)

(** ** Python preliminaries *)

Module Py.

(** The exception classes that occur in the modelled code. [ValueError] and
    [ApplicationError] are the two classes named by the [except] clauses
    around the solver calls. *)
Inductive exn : Type :=
  | IndexError
  | KeyError
  | TypeError
  | AttributeError
  | ValueError
  | ApplicationError
  | RuntimeError
  | ZeroDivisionError.

Inductive result (A : Type) : Type :=
  | Ok (a : A)
  | Raise (e : exn).

Arguments Ok {A} a.
Arguments Raise {A} e.

#[global] Instance result_ret : MRet result := fun A a => Ok a.

#[global] Instance result_bind : MBind result := fun A B f m =>
  match m with
  | Ok a => f a
  | Raise e => Raise e
  end.

#[global] Instance result_fmap : FMap result := fun A B f m =>
  match m with
  | Ok a => Ok (f a)
  | Raise e => Raise e
  end.

(** [range(a, b)] of Python 2: the list [a, a+1, ..., b-1]. *)
Definition range (a b : Z) : list Z :=
  List.map (fun i => a + Z.of_nat i) (seq 0 (Z.to_nat (b - a))).

(** [l[0]], raising [IndexError] on the empty list. *)
Definition first {A : Type} (l : list A) : result A :=
  match l with
  | [] => Raise IndexError
  | x :: _ => Ok x
  end.

(** [l[-1]], raising [IndexError] on the empty list. *)
Definition last {A : Type} (l : list A) : result A :=
  match List.rev l with
  | [] => Raise IndexError
  | x :: _ => Ok x
  end.

(** [sum(l)]: the items are added to 0 from left to right. *)
Definition sum (l : list Q) : Q := fold_left Qplus l 0%Q.

(** A [for] loop whose body may raise: the state is threaded through the
    items in order and the first exception ends the loop. *)
Fixpoint for_each {S A : Type} (l : list A) (body : S -> A -> result S)
    (s : S) : result S :=
  match l with
  | [] => Ok s
  | x :: rest => s' ← body s x; for_each rest body s'
  end.

End Py.

Import Py.

(** ** Pyomo: solver results, solver calls, constraints *)

Module Pyomo.

Inductive SolverStatus : Type := ok | warning | error | aborted | unknown.

Inductive TerminationCondition : Type :=
  | optimal
  | infeasible
  | unbounded
  | maxIterations
  | other.

(** [results.solver.status] and [results.solver.termination_condition]. *)
Record SolverResults : Type := {
  status : SolverStatus;
  termination_condition : TerminationCondition
}.

(** The test [(results.solver.status == SolverStatus.ok) and
    (results.solver.termination_condition == TerminationCondition.optimal)]. *)
Definition solved_optimally (r : SolverResults) : bool :=
  match status r, termination_condition r with
  | ok, optimal => true
  | _, _ => false
  end.

(** The solver names handed to [SolverFactory]. *)
Inductive solver : Type := ipopt | cplex | glpk.

Definition solver_name (s : solver) : string :=
  match s with
  | ipopt => "ipopt"
  | cplex => "cplex"
  | glpk => "glpk"
  end.

(** [x.value] of a variable of an instance: [None] as long as no solution
    has been loaded into it. *)
Definition value : Type := option Q.

(** What the two statements [results = opt.solve(instance)] and
    [model.solutions.load_from(results)] do: they return results, leaving
    values loaded in the instance, or they raise, and then the instance
    still is as [model.create_instance()] made it. *)
Inductive outcome (I : Type) : Type :=
  | Returns (results : SolverResults) (instance : I)
  | Raises (e : exn).

Arguments Returns {I} results instance.
Arguments Raises {I} e.

(** [except (ValueError, pyutilib.common._exceptions.ApplicationError)]. *)
Definition caught (e : exn) : bool :=
  match e with
  | ValueError | ApplicationError => true
  | _ => false
  end.

(** The record of one pass through a solver cascade: the solvers that were
    called, in order, the lines logged, and either the exception that left
    the cascade or what the names [results] and [instance] are bound to at
    its end ([results] is unbound, [None], when no call returned). *)
Record cascade (I : Type) : Type := {
  calls : list solver;
  logged : list string;
  final : result (option SolverResults * I)
}.

Arguments calls {I} c.
Arguments logged {I} c.
Arguments final {I} c.

(** [total = total + x.value]: adding [None] to a number is a [TypeError]. *)
Definition add_value (total : Q) (v : value) : result Q :=
  match v with
  | Some q => Ok (total + q)%Q
  | None => Raise TypeError
  end.

(** A constraint expression [lhs == rhs], [lhs <= rhs] or [lhs >= rhs] over
    the variables of a model; [A] is the type of the assignments of values
    to the variables. *)
Inductive relation : Type := EQ | LE | GE.

Record constraint (A : Type) : Type := {
  lhs : A -> Q;
  rel : relation;
  rhs : A -> Q
}.

Arguments lhs {A} c a.
Arguments rel {A} c.
Arguments rhs {A} c a.

Definition satisfies {A : Type} (a : A) (c : constraint A) : Prop :=
  match rel c with
  | EQ => (lhs c a == rhs c a)%Q
  | LE => (lhs c a <= rhs c a)%Q
  | GE => (rhs c a <= lhs c a)%Q
  end.

(** [Constraint(I1, I2, rule=rule)]: one constraint for every index pair at
    which the rule does not return [Constraint.Skip] ([None]). *)
Definition Constraint {A I J : Type} (I1 : list I) (I2 : list J)
    (rule : I -> J -> option (constraint A))
  : list ((I * J) * constraint A) :=
  i ← I1; j ← I2;
  match rule i j with
  | Some c => [((i, j), c)]
  | None => []
  end.

(** A link of a model: the pair (start node, end node). *)
Definition link : Type := string * string.

(** The block that every mass-balance rule starts with: the dictionaries
    [incoming_links] and [outgoing_links], built in one pass over
    [model.links]. *)
Definition append_link (d : gmap string (list link)) (key : string) (l : link)
  : gmap string (list link) :=
  match d !! key with
  | Some (x :: xs) => <[key := (x :: xs) ++ [l]]> d
  | _ => <[key := [l]]> d
  end.

Definition index_links (links : list link)
  : gmap string (list link) * gmap string (list link) :=
  fold_left
    (fun d l =>
       let out_node := fst l in
       let in_node := snd l in
       (append_link (fst d) in_node l, append_link (snd d) out_node l))
    links (∅, ∅).

Definition incoming_links (links : list link) : gmap string (list link) :=
  fst (index_links links).

Definition outgoing_links (links : list link) : gmap string (list link) :=
  snd (index_links links).

(** [d.get(node, [])]. *)
Definition get (d : gmap string (list link)) (node : string) : list link :=
  default [] (d !! node).

End Pyomo.

(** ** HorizonIndex: remaining and past months of the rolling horizon *)

(** The calendar data read from [self.network]: the month of
    [current_timestep] and whether its year is the year of [timesteps[0]]. *)
Record calendar : Type := {
  month : Z;
  first_year : bool
}.

(** A reservoir node as the model builders read it: [res.name],
    [res.volume], and the lists [res.get_history('release')] and
    [res.get_history('volume')] of the values recorded at the end of the
    earlier timesteps. *)
Module Reservoir.

Record node : Type := {
  name : string;
  volume : Q;
  release_history : list Q;
  volume_history : list Q
}.

End Reservoir.

(** ** CWA.set_allocation (government.py) *)

Module CWA.

Import Pyomo.

Definition storage_node : list string := ["wehdah_res"].
Definition demand_node : list string := ["demand"].

(** "Define remaining months". *)
Definition rem_months (month : Z) : result (list Z) :=
  if month =? 12 then
    Ok (12 :: List.map (fun m => m + 1) (range 0 11))
  else
    let rem_months := range month 13 in
    r0 ← first rem_months;
    if negb (r0 =? 1) then
      Ok (rem_months ++ List.map (fun m => m + 1) (range 0 (r0 - 1)))
    else
      Ok rem_months.

(** "Define past months". *)
Definition past_months (c : calendar) : list Z :=
  if month c =? 12 then
    []
  else
    (if first_year c then [] else [12])
      ++ List.map (fun m => m + 1) (range 0 (month c - 1)).

(** [initial_storage['wehdah_res']]. *)
Definition initial_storage (current_timestep_idx : nat)
    (wehdah_node : Reservoir.node) : result Q :=
  match current_timestep_idx with
  | 0%nat => Ok (Reservoir.volume wehdah_node)
  | 1%nat =>
      release ← last (Reservoir.release_history wehdah_node);
      Ok (Reservoir.volume wehdah_node - release + 1145846)%Q
  | _ => last (Reservoir.volume_history wehdah_node)
  end.

(** The decision variables [model.release], [model.storage] and
    [model.spill], indexed by storage node and month. *)
Record assignment : Type := {
  var_release : string -> Z -> Q;
  var_storage : string -> Z -> Q;
  var_spill : string -> Z -> Q
}.

(** The parameters that the storage balance reads. *)
Record params : Type := {
  inflow : string -> Z -> Q;
  evap : string -> Z -> Q;
  model_initial_storage : string -> Q
}.

(** The rule [res_balance_storage]; [current_month] is
    [self.network.current_timestep.month]. *)
Definition res_balance_storage (current_month : Z) (p : params)
    (node : string) (month : Z) : constraint assignment :=
  if month =? current_month then
    {| lhs := fun a => var_storage a node month;
       rel := EQ;
       rhs := fun _ => model_initial_storage p node |}
  else if month =? 1 then
    {| lhs := fun a =>
         (var_storage a node month - var_storage a node 12
          + var_release a node 12 - inflow p node 12
          + evap p node 12 + var_spill a node 12)%Q;
       rel := EQ;
       rhs := fun _ => 0%Q |}
  else
    {| lhs := fun a =>
         (var_storage a node month - var_storage a node (month - 1)
          + var_release a node (month - 1) - inflow p node (month - 1)
          + evap p node (month - 1) + var_spill a node (month - 1))%Q;
       rel := EQ;
       rhs := fun _ => 0%Q |}.

(** [model.res_balance_storage]. *)
Definition res_balance_storage_const (current_month : Z) (p : params)
    (rem_months : list Z) : list ((string * Z) * constraint assignment) :=
  Constraint storage_node rem_months
    (fun node month => Some (res_balance_storage current_month p node month)).

(** The solver cascade, from [opt = SolverFactory("ipopt", solver_io='nl')]
    to the log line that reports the outcome. [solve s] is what the solver
    [s] does on an instance of the model of this period. *)
Definition solve_cascade {I : Type} (solve : solver -> outcome I) : cascade I :=
  let retry (called : list solver) :=
    (* logging.info(" ... retrying"); the call to cplex is not guarded *)
    match solve cplex with
    | Raises e =>
        {| calls := called ++ [cplex];
           logged := [" ... retrying"];
           final := Raise e |}
    | Returns results instance =>
        {| calls := called ++ [cplex];
           logged := [" ... retrying";
                      if solved_optimally results
                      then "cwa solved using cplex"
                      else "cwa failed to solve"];
           final := Ok (Some results, instance) |}
    end in
  match solve ipopt with
  | Raises e =>
      if caught e then
        (* solver_status = "ipopt_failed" *)
        retry [ipopt]
      else
        {| calls := [ipopt]; logged := []; final := Raise e |}
  | Returns results instance =>
      (* solver_status = "ok" *)
      if solved_optimally results then
        {| calls := [ipopt];
           logged := ["cwa solved using ipopt"];
           final := Ok (Some results, instance) |}
      else
        retry [ipopt]
  end.

(** *** Loading the results into the institution *)

(** The values held by the variables of the solved instance that the
    loading code reads. *)
Record instance : Type := {
  val_release : string -> Z -> value;
  val_storage : string -> Z -> value
}.

(** The attributes [volume] and [release] of a node. *)
Record node_state : Type := {
  volume : value;
  release : value
}.

(** The nodes and the attributes of the institution that the loading code
    writes. *)
Record state : Type := {
  nodes_by_name : gmap string node_state;
  wehdah_release : value;
  wehdah_release_forecast : list value
}.

(** [get_node(name).volume = v]. *)
Definition set_volume (st : state) (name : string) (v : value) : result state :=
  match nodes_by_name st !! name with
  | None => Raise AttributeError
  | Some n =>
      Ok {| nodes_by_name :=
              <[name := {| volume := v; release := release n |}]>
                (nodes_by_name st);
            wehdah_release := wehdah_release st;
            wehdah_release_forecast := wehdah_release_forecast st |}
  end.

(** [get_node(name).release = v]. *)
Definition set_release (st : state) (name : string) (v : value) : result state :=
  match nodes_by_name st !! name with
  | None => Raise AttributeError
  | Some n =>
      Ok {| nodes_by_name :=
              <[name := {| volume := volume n; release := v |}]>
                (nodes_by_name st);
            wehdah_release := wehdah_release st;
            wehdah_release_forecast := wehdah_release_forecast st |}
  end.

(** [self.wehdah_release_forecast[i] = v], for an index [i] that is not
    negative. *)
Definition set_forecast (st : state) (i : Z) (v : value) : result state :=
  if (i <? 0) || (Z.of_nat (length (wehdah_release_forecast st)) <=? i) then
    Raise IndexError
  else
    Ok {| nodes_by_name := nodes_by_name st;
          wehdah_release := wehdah_release st;
          wehdah_release_forecast :=
            <[Z.to_nat i := v]> (wehdah_release_forecast st) |}.

Definition product {A B : Type} (l1 : list A) (l2 : list B) : list (A * B) :=
  a ← l1; b ← l2; [(a, b)].

Section Load.

Variable current_timestep_idx : nat.
Variable current_month : Z.
Variable rem_months : list Z.
Variable inst : instance.

(** The branch [var == "storage"]. *)
Definition load_storage (st : state) : result state :=
  r ← for_each (product storage_node rem_months)
        (fun (acc : Q * state) vv =>
           let v := val_storage inst (fst vv) (snd vv) in
           total ← add_value (fst acc) v;
           let selected :=
             match current_timestep_idx with
             | 0%nat => snd vv =? current_month
             | _ => if current_month =? 12 then snd vv =? 1
                    else snd vv =? current_month + 1
             end in
           if selected then
             st' ← set_volume (snd acc) (fst vv) v; Ok (total, st')
           else Ok (total, snd acc))
        (0%Q, st);
  Ok (snd r).

(** The branch [var == "release"]. *)
Definition load_release (st : state) : result state :=
  let len_months := length rem_months in
  let st :=
    {| nodes_by_name := nodes_by_name st;
       wehdah_release := wehdah_release st;
       wehdah_release_forecast := List.repeat (Some 0%Q) len_months |} in
  let month := current_month in
  r ← for_each (product storage_node rem_months)
        (fun (acc : Q * state) vv =>
           let v := val_release inst (fst vv) (snd vv) in
           total ← add_value (fst acc) v;
           if snd vv =? month then
             st ← set_release (snd acc) (fst vv) v;
             st ← set_forecast
                    {| nodes_by_name := nodes_by_name st;
                       wehdah_release := v;
                       wehdah_release_forecast := wehdah_release_forecast st |}
                    0 v;
             Ok (total, st)
           else if 0 <? snd vv - month then
             st ← set_forecast (snd acc) (snd vv - month) v; Ok (total, st)
           else
             st ← set_forecast (snd acc) ((12 - month) + snd vv) v;
             Ok (total, st))
        (0%Q, st);
  Ok (snd r).

(** The loop over the variables of the model, which are declared in the
    order [release], [storage], [spill]. *)
Definition load_results (st : state) : result state :=
  st ← load_release st;
  load_storage st.

End Load.

(** [set_allocation] from the solver call on: the cascade, then the loading
    of the values of the last instance. The outcome of the cascade is
    logged and not looked at again. *)
Definition set_allocation (current_timestep_idx : nat) (current_month : Z)
    (solve : solver -> outcome instance) (st : state) : result state :=
  rem_months ← rem_months current_month;
  match final (solve_cascade solve) with
  | Raise e => Raise e
  | Ok (results, inst) =>
      load_results current_timestep_idx current_month rem_months inst st
  end.

End CWA.

(** ** JVA.set_allocation_forecast (government.py) *)

Module JVA.

Import Pyomo.

(** *** get_allocation_model: the index sets of the model *)

Module Model.

(** A node of the institution as [get_allocation_model] reads it:
    [node.name], [node.component_type] and, of a reservoir,
    [res.res_properties]. *)
Record node : Type := {
  name : string;
  component_type : string;
  res_properties : gmap string Q
}.

(** A link of the institution: [link.start_node.name],
    [link.end_node.name], [link.component_type] and [link.length]. *)
Record link : Type := {
  start_node : string;
  end_node : string;
  link_component_type : string;
  length : Q
}.

(** What [get_allocation_model] gives the abstract model: the lists that
    initialise [model.nodes], [model.demand_nodes], [model.storage_nodes]
    and [model.non_storage_nodes], and the dictionaries that initialise
    [model.cost], whose keys initialise [model.links],
    [model.storage_upper_bound] and [model.max_release].
    [model.months] is [range(1, 13)] and [model.crop_groups] is
    [self.crop_groups]. *)
Record sets : Type := {
  nodes : list string;
  demand_nodes : list string;
  storage_nodes : list string;
  non_storage_nodes : list string;
  cost : gmap (string * string) Q;
  storage_upper_bound : gmap string Q;
  max_release : gmap string Q
}.

End Model.

(** [node.component_type != 'JVFarmAgentSimple' and
    node.component_type != 'JVFarmAgent']. *)
Definition not_farm_agent (n : Model.node) : bool :=
  negb (String.eqb (Model.component_type n) "JVFarmAgentSimple")
  && negb (String.eqb (Model.component_type n) "JVFarmAgent").

(** The loop [for res in self.nodes] on the state
    [(storage_nodes, non_storage_nodes, max_storage, max_release)]. *)
Definition sort_node
    (s : list string * list string * gmap string Q * gmap string Q)
    (res : Model.node)
  : result (list string * list string * gmap string Q * gmap string Q) :=
  let '(storage_nodes, non_storage_nodes, max_storage, max_release) := s in
  if String.eqb (Model.component_type res) "Reservoir" then
    match Model.res_properties res !! "live_storage_capacity" with
    | None => Raise KeyError
    | Some capacity =>
        match Model.res_properties res !! "max_release" with
        | None => Raise KeyError
        | Some release =>
            Ok (storage_nodes ++ [Model.name res], non_storage_nodes,
                <[Model.name res := capacity]> max_storage,
                <[Model.name res := release]> max_release)
        end
    end
  else if not_farm_agent res then
    Ok (storage_nodes, non_storage_nodes ++ [Model.name res],
        max_storage, max_release)
  else Ok s.

(** [get_allocation_model]: [self.model] when it has been created, and
    else the model created from the nodes and the links of the
    institution, which is kept as [self.model]. *)
Definition get_allocation_model (model : option Model.sets)
    (nodes : list Model.node) (links : list Model.link)
  : result Model.sets :=
  match model with
  | Some model => Ok model
  | None =>
      (* Add demand nodes *)
      let demand_nodes :=
        fold_left
          (fun demand_nodes i =>
             if String.eqb (Model.component_type i) "AgDemand"
             then demand_nodes ++ [Model.name i] else demand_nodes)
          nodes [] in
      (* Add node names *)
      let nodes_names :=
        fold_left
          (fun nodes_names node =>
             if not_farm_agent node
             then nodes_names ++ [Model.name node] else nodes_names)
          nodes [] in
      let link_length :=
        fold_left
          (fun link_length link =>
             if negb (String.eqb (Model.link_component_type link) "Nearest")
             then <[(Model.start_node link, Model.end_node link)
                    := Model.length link]> link_length
             else link_length)
          links ∅ in
      sorted ← for_each nodes sort_node ([], [], ∅, ∅);
      let '(storage_nodes, non_storage_nodes, max_storage, max_release) :=
        sorted in
      Ok {| Model.nodes := nodes_names;
            Model.demand_nodes := demand_nodes;
            Model.storage_nodes := storage_nodes;
            Model.non_storage_nodes := non_storage_nodes;
            Model.cost := link_length;
            Model.storage_upper_bound := max_storage;
            Model.max_release := max_release |}
  end.

(** *** set_allocation_forecast: the constraints of the model *)

(** "Define remaining months". *)
Definition rem_months (month : Z) : list Z :=
  if month =? 12 then
    12 :: List.map (fun m => m + 1) (range 0 11)
  else
    range month 12.

(** "Define past months". *)
Definition past_months (c : calendar) : list Z :=
  if month c =? 12 then
    []
  else
    (if first_year c then [] else [12])
      ++ List.map (fun m => m + 1) (range 0 (month c - 1)).

(** [initial_storage[res.name]]; [res_inflow_initial] is
    [self.network.observations.res_inflow_initial]. *)
Definition initial_storage (current_timestep_idx : nat)
    (res_inflow_initial : string -> Q) (res : Reservoir.node) : result Q :=
  match current_timestep_idx with
  | 0%nat => Ok (Reservoir.volume res)
  | 1%nat =>
      release ← last (Reservoir.release_history res);
      Ok (Reservoir.volume res - release
          + res_inflow_initial (Reservoir.name res))%Q
  | _ => last (Reservoir.volume_history res)
  end.

(** The decision variables of the model. *)
Record assignment : Type := {
  var_Q : string -> string -> Z -> Q;
  var_delivery : string -> Z -> Q;
  var_release : string -> Z -> Q;
  var_storage : string -> Z -> Q;
  var_storage_plus : string -> Z -> Q;
  var_storage_minus : string -> Z -> Q
}.

(** The index sets and parameters that the balance rules read;
    [jva_nrw_factor] is [self.network.parameters.jva['jva_nrw_factor']]. *)
Record params : Type := {
  links : list link;
  non_storage_nodes : list string;
  storage_nodes : list string;
  cost : link -> Q;
  inflow : string -> Z -> Q;
  evap : string -> Z -> Q;
  seepage : string -> Z -> Q;
  exog_outflow : string -> Z -> Q;
  demand : string -> Z -> Q;
  model_initial_storage : string -> Q;
  jva_nrw_factor : Q
}.

(** The list comprehension
    [[Q[n1, n2, m] - (Q[n1, n2, m] * cost[(n1, n2)] * .000006 * nrw)
      for n1, n2 in nodes_in]]. *)
Definition net_inflows (p : params) (a : assignment) (nodes_in : list link)
    (m : Z) : list Q :=
  List.map
    (fun l =>
       (var_Q a (fst l) (snd l) m
        - var_Q a (fst l) (snd l) m * cost p l * (6 # 1000000)
          * jva_nrw_factor p)%Q)
    nodes_in.

(** The rule [m_mass_balance_demand]. *)
Definition m_mass_balance_demand (p : params) (node : string) (month : Z)
  : constraint assignment :=
  let nodes_in := get (incoming_links (links p)) node in
  let nodes_out := get (outgoing_links (links p)) node in
  {| lhs := fun a =>
       let term1 := sum (net_inflows p a nodes_in month) in
       let term2 := inflow p node month in
       let term4 :=
         sum (List.map (fun l => var_Q a (fst l) (snd l) month) nodes_out) in
       let term5 := var_delivery a node month in
       let term6 := exog_outflow p node month in
       ((term1 + term2) - (term4 + term5 + term6))%Q;
     rel := EQ;
     rhs := fun _ => 0%Q |}.

(** [model.m_mass_balance_demand_const]. *)
Definition m_mass_balance_demand_const (p : params) (rem_months : list Z)
  : list ((string * Z) * constraint assignment) :=
  Constraint (non_storage_nodes p) rem_months
    (fun node month => Some (m_mass_balance_demand p node month)).

(** The rule [delivery_capacity] and [model.delivery_capacity]. *)
Definition delivery_capacity (p : params) (node : string) (month : Z)
  : constraint assignment :=
  {| lhs := fun a => var_delivery a node month;
     rel := LE;
     rhs := fun _ => demand p node month |}.

Definition delivery_capacity_const (p : params) (rem_months : list Z)
  : list ((string * Z) * constraint assignment) :=
  Constraint (non_storage_nodes p) rem_months
    (fun node month => Some (delivery_capacity p node month)).

(** The rule [res_balance_storage]; [current_month] is
    [self.network.current_timestep.month]. *)
Definition res_balance_storage (current_month : Z) (p : params)
    (node : string) (month : Z) : constraint assignment :=
  let nodes_in := get (incoming_links (links p)) node in
  let transition (prev : Z) : constraint assignment :=
    {| lhs := fun a =>
         (var_storage a node month - var_storage a node prev
          + var_release a node prev - inflow p node prev
          - sum (net_inflows p a nodes_in prev)
          + var_delivery a node prev
          + evap p node prev + seepage p node prev)%Q;
       rel := EQ;
       rhs := fun _ => 0%Q |} in
  if month =? current_month then
    {| lhs := fun a => var_storage a node month;
       rel := EQ;
       rhs := fun _ => model_initial_storage p node |}
  else if current_month =? 12 then
    if month =? 1 then transition 12 else transition (month - 1)
  else
    transition (month - 1).

(** [model.res_balance_storage]. *)
Definition res_balance_storage_const (current_month : Z) (p : params)
    (rem_months : list Z) : list ((string * Z) * constraint assignment) :=
  Constraint (storage_nodes p) rem_months
    (fun node month => Some (res_balance_storage current_month p node month)).

(** The solver cascade, from [opt = SolverFactory("ipopt", solver_io='nl')]
    to the log line that reports the outcome. *)
Definition solve_cascade {I : Type} (solve : solver -> outcome I) : cascade I :=
  let retry (called : list solver) :=
    (* the call to cplex is not guarded *)
    match solve cplex with
    | Raises e =>
        {| calls := called ++ [cplex];
           logged := ["jva failed to solve with ipopt ... retrying"];
           final := Raise e |}
    | Returns results instance =>
        {| calls := called ++ [cplex];
           logged := ["jva failed to solve with ipopt ... retrying";
                      if solved_optimally results
                      then "jva solved using cplex"
                      else "jva failed to solve"];
           final := Ok (Some results, instance) |}
    end in
  match solve ipopt with
  | Raises e =>
      if caught e then
        (* solver_status = "ipopt_failed" *)
        retry [ipopt]
      else
        {| calls := [ipopt]; logged := []; final := Raise e |}
  | Returns results instance =>
      (* solver_status = "ok" *)
      if solved_optimally results then
        {| calls := [ipopt];
           logged := ["jva solved using ipopt"];
           final := Ok (Some results, instance) |}
      else
        retry [ipopt]
  end.

(** *** Loading the results into the institution *)

(** The values held by the variables of the solved instance that the
    loading code reads. *)
Record instance : Type := {
  val_Q : string -> string -> Z -> value;
  val_delivery : string -> Z -> value;
  val_release : string -> Z -> value;
  val_storage : string -> Z -> value
}.

(** The attributes [volume] and [release] of a node of the institution. *)
Record node_state : Type := {
  volume : value;
  release : value
}.

(** A link of the institution with its attribute [flow]. *)
Record link_state : Type := {
  start_node : string;
  end_node : string;
  flow : value
}.

(** The part of the institution and of its nodes and links that the loading
    code writes, and [demand_forecast_per_node], which it reads. *)
Record state : Type := {
  nodes_by_name : gmap string node_state;
  institution_links : list link_state;
  node_allocations : gmap (string * Z) value;
  node_allocations_history : list (gmap (string * Z) value);
  node_delivery_history : list (gmap string value);
  node_delivery : gmap string value;
  demand_forecast_per_node : gmap (string * Z) Q
}.

(** The index sets of the model that the loading code iterates over. *)
Record index_sets : Type := {
  ix_nodes : list string;
  ix_storage_nodes : list string;
  ix_links : list link;
  ix_rem_months : list Z
}.

Definition with_nodes (st : state) (nodes : gmap string node_state) : state :=
  {| nodes_by_name := nodes;
     institution_links := institution_links st;
     node_allocations := node_allocations st;
     node_allocations_history := node_allocations_history st;
     node_delivery_history := node_delivery_history st;
     node_delivery := node_delivery st;
     demand_forecast_per_node := demand_forecast_per_node st |}.

(** [self.get_node(name).volume = v]. *)
Definition set_volume (st : state) (name : string) (v : value) : result state :=
  match nodes_by_name st !! name with
  | None => Raise AttributeError
  | Some n =>
      Ok (with_nodes st
            (<[name := {| volume := v; release := release n |}]>
               (nodes_by_name st)))
  end.

(** [self.get_node(name).release = v]. *)
Definition set_release (st : state) (name : string) (v : value) : result state :=
  match nodes_by_name st !! name with
  | None => Raise AttributeError
  | Some n =>
      Ok (with_nodes st
            (<[name := {| volume := volume n; release := v |}]>
               (nodes_by_name st)))
  end.

(** [h[-1][key] = v] on a list of dictionaries. *)
Definition set_in_last {K V : Type} `{Countable K} (h : list (gmap K V))
    (key : K) (v : V) : result (list (gmap K V)) :=
  match List.rev h with
  | [] => Raise IndexError
  | d :: before => Ok (List.rev before ++ [<[key := v]> d])
  end.

(** The loop over [self.links] that ends at the first link from [n1] to
    [n2]. *)
Fixpoint set_flow (links : list link_state) (n1 n2 : string) (v : value)
  : list link_state :=
  match links with
  | [] => []
  | l :: rest =>
      if String.eqb (start_node l) n1 && String.eqb (end_node l) n2 then
        {| start_node := start_node l; end_node := end_node l; flow := v |}
          :: rest
      else
        l :: set_flow rest n1 n2 v
  end.

(** The index of an indexed component: the product of its index sets. *)
Definition product {A B : Type} (l1 : list A) (l2 : list B) : list (A * B) :=
  a ← l1; b ← l2; [(a, b)].

Section Load.

Variable current_timestep_idx : nat.
Variable current_month : Z.
Variable ix : index_sets.
Variable inst : instance.

(** The branch [var == "storage"]. *)
Definition load_storage (st : state) : result state :=
  r ← for_each (product (ix_storage_nodes ix) (ix_rem_months ix))
        (fun (acc : Q * state) vv =>
           let v := val_storage inst (fst vv) (snd vv) in
           total ← add_value (fst acc) v;
           let selected :=
             match current_timestep_idx with
             | 0%nat => snd vv =? current_month
             | _ => if current_month =? 12 then snd vv =? 1
                    else snd vv =? current_month + 1
             end in
           if selected then
             st' ← set_volume (snd acc) (fst vv) v; Ok (total, st')
           else Ok (total, snd acc))
        (0%Q, st);
  Ok (snd r).

(** The branch [var == "release"]. *)
Definition load_release (st : state) : result state :=
  r ← for_each (product (ix_storage_nodes ix) (ix_rem_months ix))
        (fun (acc : Q * state) vv =>
           let v := val_release inst (fst vv) (snd vv) in
           total ← add_value (fst acc) v;
           if snd vv =? current_month then
             st' ← set_release (snd acc) (fst vv) v; Ok (total, st')
           else Ok (total, snd acc))
        (0%Q, st);
  Ok (snd r).

(** The branch [var == "delivery"]. *)
Definition load_delivery (st : state) : result state :=
  for_each (product (ix_nodes ix) (ix_rem_months ix))
    (fun st vv =>
       let v := val_delivery inst (fst vv) (snd vv) in
       _ ← (if String.eqb (substring 0 2 (fst vv)) "so" then
              match demand_forecast_per_node st !! vv with
              | None => Raise KeyError
              | Some demand =>
                  (* deficit = demand - d_var[vv].value *)
                  match v with
                  | None => Raise TypeError
                  | Some _ => Ok tt
                  end
              end
            else Ok tt);
       history ← set_in_last (node_allocations_history st) vv v;
       if snd vv =? current_month then
         deliveries ← set_in_last (node_delivery_history st) (fst vv) v;
         Ok {| nodes_by_name := nodes_by_name st;
               institution_links := institution_links st;
               node_allocations := <[vv := v]> (node_allocations st);
               node_allocations_history := history;
               node_delivery_history := deliveries;
               node_delivery := <[fst vv := v]> (node_delivery st);
               demand_forecast_per_node := demand_forecast_per_node st |}
       else
         Ok {| nodes_by_name := nodes_by_name st;
               institution_links := institution_links st;
               node_allocations := <[vv := v]> (node_allocations st);
               node_allocations_history := history;
               node_delivery_history := node_delivery_history st;
               node_delivery := node_delivery st;
               demand_forecast_per_node := demand_forecast_per_node st |})
    st.

(** The branch [var == "Q"]. *)
Definition load_Q (st : state) : result state :=
  r ← for_each (product (ix_links ix) (ix_rem_months ix))
        (fun (acc : Q * state) vv =>
           let n1 := fst (fst vv) in
           let n2 := snd (fst vv) in
           let v := val_Q inst n1 n2 (snd vv) in
           total ← add_value (fst acc) v;
           let st := snd acc in
           if snd vv =? current_month then
             Ok (total,
                 {| nodes_by_name := nodes_by_name st;
                    institution_links :=
                      set_flow (institution_links st) n1 n2 v;
                    node_allocations := node_allocations st;
                    node_allocations_history := node_allocations_history st;
                    node_delivery_history := node_delivery_history st;
                    node_delivery := node_delivery st;
                    demand_forecast_per_node := demand_forecast_per_node st |})
           else Ok (total, st))
        (0%Q, st);
  Ok (snd r).

(** "Load results from pyomo optimization to associated pynsim component
    attributes": the two [append({})] and the loop over the variables of
    the model, which are declared in the order [Q], [delivery], [release],
    [storage], [storage_plus], [storage_minus]. *)
Definition load_results (st : state) : result state :=
  let st :=
    {| nodes_by_name := nodes_by_name st;
       institution_links := institution_links st;
       node_allocations := node_allocations st;
       node_allocations_history := node_allocations_history st ++ [∅];
       node_delivery_history := node_delivery_history st ++ [∅];
       node_delivery := node_delivery st;
       demand_forecast_per_node := demand_forecast_per_node st |} in
  st ← load_Q st;
  st ← load_delivery st;
  st ← load_release st;
  load_storage st.

End Load.

(** [set_allocation_forecast] from the solver call on: the cascade, then
    the loading of the values of the last instance. The outcome of the
    cascade is logged and not looked at again. *)
Definition set_allocation_forecast (current_timestep_idx : nat)
    (current_month : Z) (ix : index_sets) (solve : solver -> outcome instance)
    (st : state) : result state :=
  match final (solve_cascade solve) with
  | Raise e => Raise e
  | Ok (results, inst) =>
      load_results current_timestep_idx current_month ix inst st
  end.

End JVA.

(** ** WAJ.set_allocation_forecast (government.py) *)

Module WAJ.

Import Pyomo.

(** [model.months]. *)
Definition months : list Z := range 1 13.

(** The decision variables that the mass balance reads. *)
Record assignment : Type := {
  var_Q : string -> string -> Z -> Q;
  var_P : string -> Z -> Q;
  var_deficit : string -> Z -> Q
}.

(** The index sets and the parameter [model.demand]. *)
Record params : Type := {
  links : list link;
  nodes : list string;
  demand_nodes : list string;
  non_demand_nodes : list string;
  demand : string -> Z -> Q
}.

(** The rule [mass_balance_demand]. *)
Definition mass_balance_demand (p : params) (node : string) (month : Z)
  : constraint assignment :=
  let nodes_in := get (incoming_links (links p)) node in
  let nodes_out := get (outgoing_links (links p)) node in
  {| lhs := fun a =>
       let term1 :=
         sum (List.map (fun l => var_Q a (fst l) (snd l) month) nodes_in) in
       let term2 := var_P a node month in
       let term3 := var_deficit a node month in
       let term4 :=
         sum (List.map (fun l => var_Q a (fst l) (snd l) month) nodes_out) in
       let term5 := demand p node month in
       ((term1 + term2 + term3) - (term4 + term5))%Q;
     rel := EQ;
     rhs := fun _ => 0%Q |}.

(** [model.mass_balance_demand_const]. *)
Definition mass_balance_demand_const (p : params)
  : list ((string * Z) * constraint assignment) :=
  Constraint (demand_nodes p) months
    (fun node month => Some (mass_balance_demand p node month)).

(** The rule [mass_balance] of the nodes that are not demand nodes, and
    [model.mass_balance_const]. *)
Definition mass_balance (p : params) (node : string) (month : Z)
  : constraint assignment :=
  let nodes_in := get (incoming_links (links p)) node in
  let nodes_out := get (outgoing_links (links p)) node in
  {| lhs := fun a =>
       let term1 :=
         sum (List.map (fun l => var_Q a (fst l) (snd l) month) nodes_in) in
       let term2 := var_P a node month in
       let term4 :=
         sum (List.map (fun l => var_Q a (fst l) (snd l) month) nodes_out) in
       (term1 + term2 - term4)%Q;
     rel := EQ;
     rhs := fun _ => 0%Q |}.

Definition mass_balance_const (p : params)
  : list ((string * Z) * constraint assignment) :=
  Constraint (non_demand_nodes p) months
    (fun node month => Some (mass_balance p node month)).

(** *** The solver cascade and the loading of the results *)

(** The values held by the variables of the solved instance that the
    loading code reads. *)
Record instance : Type := {
  val_Q : string -> string -> Z -> value;
  val_P : string -> Z -> value;
  val_deficit : string -> Z -> value
}.

(** An instance as [model.create_instance()] returns it: the variables are
    declared without initial values. *)
Definition created_instance : instance :=
  {| val_Q := fun _ _ _ => None;
     val_P := fun _ _ => None;
     val_deficit := fun _ _ => None |}.

(** The attributes of the institution that the method writes. *)
Record state : Type := {
  solver_status : string;
  allocation_forecast : gmap (string * Z) Q;
  pumping_forecast : gmap (string * Z) value;
  transfer_forecast : gmap (string * string * Z) value;
  deficit_forecast : gmap (string * Z) value;
  surplus_forecast : gmap (string * Z) value
}.

Definition with_solver_status (st : state) (s : string) : state :=
  {| solver_status := s;
     allocation_forecast := allocation_forecast st;
     pumping_forecast := pumping_forecast st;
     transfer_forecast := transfer_forecast st;
     deficit_forecast := deficit_forecast st;
     surplus_forecast := surplus_forecast st |}.

(** "+++ SOLVER: +++". The result is the record of the calls, with the
    results and the instance that the names [results] and [instance] are
    bound to at the end, and the new value of [self.solver_status]. *)
Definition solve_cascade (solver_status : string)
    (solve : solver -> outcome instance) : cascade instance * string :=
  if String.eqb solver_status "ok" then
    (* the guarded call to cplex; [results0] is what [results] is bound to
       when cplex raises *)
    let retry (status0 : string) (results0 : option SolverResults) :=
      match solve cplex with
      | Returns results instance =>
          if solved_optimally results then
            ({| calls := [ipopt; cplex];
                logged := ["waj failed to solve using ipopt ... retrying";
                           "waj solved using cplex"];
                final := Ok (Some results, instance) |}, status0)
          else
            ({| calls := [ipopt; cplex];
                logged := ["waj failed to solve using ipopt ... retrying";
                           "waj failed to solve using cplex"];
                final := Ok (Some results, instance) |}, "not_optimal")
      | Raises e =>
          if caught e then
            (* self.solver_status = "cplex_failed", then "not_optimal" *)
            ({| calls := [ipopt; cplex];
                logged := ["waj failed to solve using ipopt ... retrying";
                           "waj failed to solve using cplex"];
                final := Ok (results0, created_instance) |}, "not_optimal")
          else
            ({| calls := [ipopt; cplex];
                logged := ["waj failed to solve using ipopt ... retrying"];
                final := Raise e |}, status0)
      end in
    match solve ipopt with
    | Raises e =>
        if caught e then retry "ipopt_failed" None
        else ({| calls := [ipopt]; logged := []; final := Raise e |},
              solver_status)
    | Returns results instance =>
        if solved_optimally results then
          ({| calls := [ipopt];
              logged := ["waj solved using ipopt"];
              final := Ok (Some results, instance) |}, solver_status)
        else retry solver_status (Some results)
    end
  else
    (* the call to glpk is not guarded and its results are not looked at *)
    match solve glpk with
    | Returns results instance =>
        ({| calls := [glpk];
            logged := ["waj solved using glpk"];
            final := Ok (Some results, instance) |}, solver_status)
    | Raises e =>
        ({| calls := [glpk]; logged := []; final := Raise e |}, solver_status)
    end.

(** The index sets of the model and the names that the loading code
    iterates over: [gov_names] are the names of the institutions of type
    'GOV' in [self.network.institutions], [gw_names] the keys of
    [self.yearly_max_groundwater_pumping]. *)
Record index_sets : Type := {
  ix_nodes : list string;
  ix_demand_nodes : list string;
  ix_links : list link;
  gov_names : list string;
  gw_names : list string
}.

Definition product {A B : Type} (l1 : list A) (l2 : list B) : list (A * B) :=
  a ← l1; b ← l2; [(a, b)].

Section Load.

Variable ix : index_sets.
Variable demand_forecast : gmap (string * Z) Q.
Variable inst : instance.

(** The first loop over the variables, which only adds up their values;
    the variables are declared in the order [Q], [P], ..., [deficit]. *)
Definition totals : result unit :=
  _ ← for_each (product (ix_links ix) months)
        (fun total vv =>
           add_value total (val_Q inst (fst (fst vv)) (snd (fst vv)) (snd vv)))
        0%Q;
  _ ← for_each (product (ix_nodes ix) months)
        (fun total vv => add_value total (val_P inst (fst vv) (snd vv)))
        0%Q;
  _ ← for_each (product (ix_demand_nodes ix) months)
        (fun total vv => add_value total (val_deficit inst (fst vv) (snd vv)))
        0%Q;
  Ok tt.

Definition set_pumping_forecast (st : state) (name : string) (month : Z)
  : state :=
  {| solver_status := solver_status st;
     allocation_forecast := allocation_forecast st;
     pumping_forecast :=
       <[(name, month) := val_P inst name month]> (pumping_forecast st);
     transfer_forecast := transfer_forecast st;
     deficit_forecast := deficit_forecast st;
     surplus_forecast := surplus_forecast st |}.

Definition set_deficit_forecast (st : state) (name : string) (month : Z)
  : state :=
  {| solver_status := solver_status st;
     allocation_forecast := allocation_forecast st;
     pumping_forecast := pumping_forecast st;
     transfer_forecast := transfer_forecast st;
     deficit_forecast :=
       <[(name, month) := val_deficit inst name month]> (deficit_forecast st);
     surplus_forecast := surplus_forecast st |}.

(** [self.allocation_forecast[(name, month)] =
     self.demand_forecast[(name, month)] - self.deficit_forecast[(name, month)]]. *)
Definition set_allocation_forecast_entry (st : state) (name : string)
    (month : Z) : result state :=
  match demand_forecast !! (name, month) with
  | None => Raise KeyError
  | Some demand =>
      match deficit_forecast st !! (name, month) with
      | None => Raise KeyError
      | Some None => Raise TypeError
      | Some (Some deficit) =>
          Ok {| solver_status := solver_status st;
                allocation_forecast :=
                  <[(name, month) := (demand - deficit)%Q]>
                    (allocation_forecast st);
                pumping_forecast := pumping_forecast st;
                transfer_forecast := transfer_forecast st;
                deficit_forecast := deficit_forecast st;
                surplus_forecast := surplus_forecast st |}
      end
  end.

(** The body of the loop over the institutions of type 'GOV'. *)
Definition load_gov (st : state) (name : string) : result state :=
  let st := fold_left (fun st month => set_pumping_forecast st name month)
              months st in
  let st := fold_left (fun st month => set_deficit_forecast st name month)
              months st in
  for_each months (fun st month => set_allocation_forecast_entry st name month)
    st.

(** The loop over the keys of [self.yearly_max_groundwater_pumping]. *)
Definition load_gw (st : state) : state :=
  fold_left
    (fun st name =>
       fold_left (fun st month => set_pumping_forecast st name month) months st)
    (gw_names ix) st.

(** The loop that fills [self.transfer_forecast]. *)
Definition load_transfers (st : state) : state :=
  fold_left
    (fun st (_ : Z) =>
       fold_left
         (fun st line =>
            let n1 := fst (fst line) in
            let n2 := snd (fst line) in
            {| solver_status := solver_status st;
               allocation_forecast := allocation_forecast st;
               pumping_forecast := pumping_forecast st;
               transfer_forecast :=
                 <[line := val_Q inst n1 n2 (snd line)]> (transfer_forecast st);
               deficit_forecast := deficit_forecast st;
               surplus_forecast := surplus_forecast st |})
         (product (ix_links ix) months) st)
    months st.

(** The code after the solver calls, without the export to a workbook
    ([self.export_data] is 0). *)
Definition load_results (st : state) : result state :=
  _ ← totals;
  st ← for_each (gov_names ix) load_gov st;
  Ok (load_transfers (load_gw st)).

End Load.

(** [set_allocation_forecast], without the construction of the model:
    the forecasts are emptied, a passive WAJ returns at once, and otherwise
    the cascade runs and the values of the last instance are loaded. The
    status that the cascade reaches is stored in [self.solver_status] and
    is not looked at before the values are read. *)
Definition set_allocation_forecast (passive_WAJ : bool) (ix : index_sets)
    (demand_forecast : gmap (string * Z) Q)
    (solve : solver -> outcome instance) (st : state) : result state :=
  let st :=
    {| solver_status := solver_status st;
       allocation_forecast := ∅;
       pumping_forecast := ∅;
       transfer_forecast := ∅;
       deficit_forecast := ∅;
       surplus_forecast := ∅ |} in
  if passive_WAJ then Ok st
  else
    let c := solve_cascade (solver_status st) solve in
    match final (fst c) with
    | Raise e => Raise e
    | Ok (results, inst) =>
        load_results ix demand_forecast inst (with_solver_status st (snd c))
    end.

End WAJ.

(** ** ResponseMatrix: the groundwater response engine (gw_module.py) *)

(** A groundwater node as the engine reads and writes it: [i.name],
    [i.pumping] and the entries [matrix_position], [baseline_pumping] and
    [head_calc] of [i._gw_node_properties]. [head_calc] is a row of the head
    array, indexed by the month index. *)
Module Groundwater.

Record node : Type := {
  name : string;
  pumping : Q;
  matrix_position : nat;
  baseline_pumping : Q;
  head_calc : nat -> Q
}.

Definition set_head_calc (i : node) (row : nat -> Q) : node :=
  {| name := name i;
     pumping := pumping i;
     matrix_position := matrix_position i;
     baseline_pumping := baseline_pumping i;
     head_calc := row |}.

End Groundwater.

Module GWResponseEngine.

Import Groundwater.
Local Open Scope Q_scope.

(** The hard-coded shape: 249 unit-response locations, 1021 months. *)
Definition nloc : nat := 249.
Definition ntime : nat := 1021.

(** The arrays of the engine that [run] reads and writes: [self.head]
    (249 x 1021) and [self.pumping] (249 x 1). *)
Record engine : Type := {
  head : nat -> nat -> Q;
  pumping : nat -> Q
}.

(** [a[row] = v] on a numpy array whose first axis has [nloc] entries. *)
Definition set_row {A : Type} (a : nat -> A) (row : nat) (v : A) : nat -> A :=
  fun j => if Nat.eqb j row then v else a j.

Definition set_pumping (e : engine) (row : nat) (v : Q) : engine :=
  {| head := head e; pumping := set_row (pumping e) row v |}.

(** The sum over the contracted axis [i] of [np.einsum]. *)
Definition einsum_sum (n : nat) (f : nat -> Q) : Q :=
  fold_right (fun i acc => f i + acc) 0 (seq 0 n).

Section Run.

(** [self.dd], the unit-response tensor (249 x 249 x 1021), the parameter
    [network.parameters.gw['gw_response_factor']] and
    [self.target.network.get_node]. *)
Variable dd : nat -> nat -> nat -> Q.
Variable gw_response_factor : Q.
Variable get_node : string -> option node.

(** Step 1, the body of the loop over [self.target.nodes]. *)
Definition consolidate (e : engine) (i : node) : result engine :=
  let row := matrix_position i in
  if (nloc <=? row)%nat then Raise IndexError else
  let e := {| head := set_row (head e) row (head_calc i);
              pumping := pumping e |} in
  let e := set_pumping e row
             ((Groundwater.pumping i - baseline_pumping i) / (1 # 100)) in
  let e := if String.eqb (name i) "210401_ag_02"
           then set_pumping e row 0 else e in
  let e := if String.eqb (name i) "130104_urb_01"
           then set_pumping e row
                  ((Groundwater.pumping i * (75 # 100) - baseline_pumping i)
                   / (1 # 100))
           else e in
  e ← (if String.eqb (name i) "130104_urb_02"
       then match get_node "130104_urb_01" with
            | Some u =>
                Ok (set_pumping e row
                      ((Groundwater.pumping i
                        + Groundwater.pumping u * (25 # 100)
                        - baseline_pumping i) / (1 # 100)))
            | None => Raise AttributeError
            end
       else Ok e);
  let e := if String.eqb (name i) "330103_ag_01"
           then set_pumping e row 0 else e in
  Ok e.

Fixpoint consolidate_all (e : engine) (nodes : list node) : result engine :=
  match nodes with
  | [] => Ok e
  | i :: rest => e' ← consolidate e i; consolidate_all e' rest
  end.

(** Step 2. [np.einsum('ijk,il ->ljk', dd[:, :, 0:K], pumping * factor)] at
    response location [j] and lag [k]. *)
Definition einsum (pumping : nat -> Q) (j k : nat) : Q :=
  einsum_sum nloc (fun i => dd i j k * (pumping i * gw_response_factor)).

(** [addhead] after step 2, for [timestep] counted from 1. *)
Definition addhead (timestep : nat) (pumping : nat -> Q) (j k : nat) : Q :=
  if Nat.eqb timestep 1 then
    0 + - (1) * einsum pumping j k
  else if (k <? timestep - 1)%nat then
    0
  else
    0 + - (1) * einsum pumping j (k - (timestep - 1)).

(** [GWResponseEngine.run]. *)
Definition run (current_timestep_idx : nat) (e : engine) (nodes : list node)
  : result (engine * list node) :=
  let timestep := (current_timestep_idx + 1)%nat in
  e1 ← consolidate_all e nodes;
  let e2 := {| head := fun j k =>
                 head e1 j k + addhead timestep (pumping e1) j k;
               pumping := pumping e1 |} in
  Ok (e2,
      List.map (fun i => set_head_calc i (head e2 (matrix_position i))) nodes).

End Run.

End GWResponseEngine.

(** ** MarketClearingEngine: the tanker market (market.py) *)

(** The agents of the market with the attributes that
    [det_tanker_market_contracts] reads and writes. *)
Module Farm.

Record agent : Type := {
  subdistrict : Z;
  is_active_in_tanker_market : bool;
  tanker_offer_quantity : Q;
  tanker_water_price : Q;
  gw_sales_to_tanker : list Q;
  gw_sale_to_tanker : Q;
  final_tanker_prices : list Q;
  final_tanker_price : Q;
  tanker_market_revenue : Q
}.

(** The value of a list access outside the list; no access of the model is
    outside. *)
Definition blank : agent :=
  {| subdistrict := 0; is_active_in_tanker_market := false;
     tanker_offer_quantity := 0; tanker_water_price := 0;
     gw_sales_to_tanker := []; gw_sale_to_tanker := 0;
     final_tanker_prices := []; final_tanker_price := 0;
     tanker_market_revenue := 0 |}.

End Farm.

Module Subdist.

Record agent : Type := {
  subdist_code : Z;
  tanker_price : Q;
  max_tanker_distance : Q;
  tanker_distances : list Q
}.

Definition blank : agent :=
  {| subdist_code := 0; tanker_price := 0; max_tanker_distance := 0;
     tanker_distances := [] |}.

End Subdist.

Module Consumer.

(** [subdist] is the position of [ha.subdist] in the list of the
    subdistricts, [all_subdists.index(ha.subdist)]; [kind] is [ha.type]. *)
Record agent : Type := {
  subdist : nat;
  kind : string;
  represented_units : Q;
  piped_consumption : Q;
  sigma : Q;
  sigma2 : Q;
  tanker_consumption : Q;
  final_tanker_price : Q;
  tanker_expenditure : Q;
  expenditure : Q
}.

Definition blank : agent :=
  {| subdist := 0; kind := ""; represented_units := 0;
     piped_consumption := 0; sigma := 0; sigma2 := 0;
     tanker_consumption := 0; final_tanker_price := 0;
     tanker_expenditure := 0; expenditure := 0 |}.

End Consumer.

Module TankerMarket.

Import Pyomo.
Local Open Scope Q_scope.

(** The agent lists of "0.1. Full institution and agent lists". *)
Record agents : Type := {
  all_farms : list Farm.agent;
  all_subdists : list Subdist.agent;
  all_consumers : list Consumer.agent
}.

(** [a > b] and [x > 0.0]. *)
Definition gt (a b : Q) : bool := negb (Qle_bool a b).
Definition positive (x : Q) : bool := gt x 0.

(** [reset_agent_variables]. Of the attributes of a consumer the model has
    those that the price and volume of its purchases are written to. *)
Definition reset_farm (f : Farm.agent) : Farm.agent :=
  {| Farm.subdistrict := Farm.subdistrict f;
     Farm.is_active_in_tanker_market := Farm.is_active_in_tanker_market f;
     Farm.tanker_offer_quantity := Farm.tanker_offer_quantity f;
     Farm.tanker_water_price := Farm.tanker_water_price f;
     Farm.gw_sales_to_tanker := [];
     Farm.gw_sale_to_tanker := 0;
     Farm.final_tanker_prices := [];
     Farm.final_tanker_price := 0;
     Farm.tanker_market_revenue := 0 |}.

Definition reset_subdist (d : Subdist.agent) : Subdist.agent :=
  {| Subdist.subdist_code := Subdist.subdist_code d;
     Subdist.tanker_price := 0;
     Subdist.max_tanker_distance := 0;
     Subdist.tanker_distances := [] |}.

Definition reset_consumer (a : Consumer.agent) : Consumer.agent :=
  {| Consumer.subdist := Consumer.subdist a;
     Consumer.kind := Consumer.kind a;
     Consumer.represented_units := Consumer.represented_units a;
     Consumer.piped_consumption := Consumer.piped_consumption a;
     Consumer.sigma := Consumer.sigma a;
     Consumer.sigma2 := Consumer.sigma2 a;
     Consumer.tanker_consumption := 0;
     Consumer.final_tanker_price := 0;
     Consumer.tanker_expenditure := Consumer.tanker_expenditure a;
     Consumer.expenditure := Consumer.expenditure a |}.

Definition reset_agent_variables (ag : agents) : agents :=
  {| all_farms := List.map reset_farm (all_farms ag);
     all_subdists := List.map reset_subdist (all_subdists ag);
     all_consumers := List.map reset_consumer (all_consumers ag) |}.

(** [range(len(l))]. *)
Definition indices {A : Type} (l : list A) : list nat := seq 0 (length l).

(** [all_fewer_farms = [[f] for f in all_farms if f.is_active_in_tanker_market]]:
    every group is one active farm, named by its position in [all_farms]. *)
Definition all_fewer_farms (ag : agents) : list (list nat) :=
  List.map (fun i => [i])
    (List.filter
       (fun i => Farm.is_active_in_tanker_market (nth i (all_farms ag) Farm.blank))
       (indices (all_farms ag))).

Definition farm (ag : agents) (i : nat) : Farm.agent :=
  nth i (all_farms ag) Farm.blank.

Definition subdist (ag : agents) (d : nat) : Subdist.agent :=
  nth d (all_subdists ag) Subdist.blank.

Definition consumer (ag : agents) (h : nat) : Consumer.agent :=
  nth h (all_consumers ag) Consumer.blank.

(** [all_fewer_farms[f]] and its first farm [fas[0]]. *)
Definition group (ag : agents) (f : nat) : list nat :=
  nth f (all_fewer_farms ag) [].

Definition fa0 (ag : agents) (f : nat) : Farm.agent :=
  farm ag (nth 0 (group ag f) 0%nat).

(** The persistent model [self.fwm]: its index sets, fixed when the model
    is built, and its mutable parameters. [f_qmax] has no value at a farm
    group that is in reach of no subdistrict; [is_hix_actives] is [None]
    where it is [float("inf")]. *)
Module Fwm.

Record model : Type := {
  hixs : list nat;
  fixs : list nat;
  fs_hixs : nat -> list nat;
  hs_fixs : nat -> list nat;
  hhixs2 : list nat;
  hcixs2 : list nat;
  hunits : nat -> Q;
  coefs : nat -> Q;
  expos : nat -> Q;
  pw_qs : nat -> Q;
  pw_css : nat -> Q;
  min_prcs : nat -> nat -> Q;
  f_qmax : nat -> option Q;
  is_hix_actives : nat -> option Q
}.

End Fwm.

(** The attributes of the institution. [options] is [self.opt.options],
    [result_xs] is [None] until a solve has returned. *)
Record state : Type := {
  is_tanker_market_first_run : bool;
  fwm : option Fwm.model;
  options : gmap string string;
  result_xs : option (nat -> nat -> Q);
  solver_status : option string;
  termination_condition : option TerminationCondition
}.

(** One call [self.opt.solve(fwm, keepfiles=False)] as the solver sees it:
    the options, the model, and the number of the attempt in this period;
    when it returns, the instance holds the purchases [xs]. *)
Definition oracle : Type :=
  gmap string string -> Fwm.model -> nat -> outcome (nat -> nat -> Q).

(** What one call of [det_tanker_market_contracts] leaves behind: the
    options of each solver call, in order, the lines logged, and the new
    state and agents or the exception that left the call. *)
Record clearing : Type := {
  solver_calls : list (gmap string string);
  log_lines : list string;
  outcome_of_call : result (state * agents)
}.

Section Market.

(** [log] is the natural logarithm, which the model leaves open. The
    parameters of the run: [max_tanker_sale_distance],
    [self.transport_cost_coef], [self.minimum_farm_offer_constraint], and
    the table [self.road_dist] of the road distances in metres, by
    subdistrict code of the town and subdistrict of the well. *)
Variable log : Q -> Q.
Variable max_tanker_sale_distance : Q.
Variable transport_cost_coef : Q.
Variable minimum_farm_offer_constraint : Q.
Variable road_dist : Z -> Z -> Q.

(** *** 1. Preparation of non-Pyomo variables *)

Section Preparation.

Variable ag : agents.

Definition hindices : list nat := indices (all_consumers ag).
Definition findices : list nat := indices (all_fewer_farms ag).
Definition dindices : list nat := indices (all_subdists ag).

(** "1.3.5. Main assignment loop". *)
Definition hhindices : list nat :=
  List.filter
    (fun h => negb (String.eqb (Consumer.kind (consumer ag h)) "commercial"))
    hindices.

Definition hcindices : list nat :=
  List.filter
    (fun h => String.eqb (Consumer.kind (consumer ag h)) "commercial")
    hindices.

(** [ds_hindices[d]]: the consumers of the subdistrict [d], in the order
    of [hindices]. *)
Definition ds_hindices (d : nat) : list nat :=
  List.filter (fun h => Nat.eqb (Consumer.subdist (consumer ag h)) d) hindices.

(** The test [(ha.represented_units > 0.0) and (ha.piped_consumption > 0.0)]. *)
Definition in_market (h : nat) : bool :=
  positive (Consumer.represented_units (consumer ag h))
  && positive (Consumer.piped_consumption (consumer ag h)).

Definition repres_units (h : nat) : Q :=
  if in_market h then Consumer.represented_units (consumer ag h) else 1.

Definition cs_coefs (h : nat) : Q :=
  if in_market h then Consumer.sigma (consumer ag h) else 0.

Definition cs_expos (h : nat) : Q :=
  if in_market h then Consumer.sigma2 (consumer ag h) else 0.

Definition pw_consps (h : nat) : Q :=
  if in_market h then Consumer.piped_consumption (consumer ag h) else 0.

Definition pw_csurpls (h : nat) : Q :=
  let ha := consumer ag h in
  if in_market h then
    ((Consumer.sigma ha * log (Consumer.piped_consumption ha))
     - Consumer.sigma ha + Consumer.sigma2 ha)
    * Consumer.piped_consumption ha
  else 0.

(** [is_hix_actives[h]]: [None] stands for [float("inf")]. *)
Definition is_hix_actives (h : nat) : option Q :=
  if in_market h then None else Some 0.

(** The loop over the subdistricts and the farm groups. *)
Definition road_distance (d f : nat) : Q :=
  road_dist (Subdist.subdist_code (subdist ag d))
            (Farm.subdistrict (fa0 ag f)) / 1000.

(** [(new_road_distance <= max_tanker_sale_distance) or
     (int(fa0.subdistrict) == da.subdist_code)]. *)
Definition in_reach (d f : nat) : bool :=
  Qle_bool (road_distance d f) max_tanker_sale_distance
  || Z.eqb (Farm.subdistrict (fa0 ag f)) (Subdist.subdist_code (subdist ag d)).

(** [ds_findices[d]]. *)
Definition ds_findices (d : nat) : list nat :=
  List.filter (in_reach d) findices.

(** [hs_findices[h]]: each farm group in reach of the subdistrict of [h] is
    appended once, when that subdistrict is visited. *)
Definition hs_findices (h : nat) : list nat :=
  if (h <? length (all_consumers ag))%nat
  then ds_findices (Consumer.subdist (consumer ag h))
  else [].

(** [fs_hindices[f]]: the consumers of the subdistricts that [f] is in
    reach of, subdistrict by subdistrict. *)
Definition fs_hindices (f : nat) : list nat :=
  List.concat
    (List.map (fun d => if in_reach d f then ds_hindices d else []) dindices).

(** [fas_pos], the farms of a group with a positive offer. *)
Definition fas_pos (f : nat) : list nat :=
  List.filter (fun i => positive (Farm.tanker_offer_quantity (farm ag i)))
    (group ag f).

(** [mean_price] of the preparation loop. *)
Definition offered_mean_price (f : nat) : Q :=
  let fas_no := length (fas_pos f) in
  if (0 <? fas_no)%nat then
    sum (List.map (fun i => Farm.tanker_water_price (farm ag i)) (fas_pos f))
    / inject_Z (Z.of_nat fas_no)
  else 1.

(** [max_offer_constraints[f]], a key of the dictionary when [f] is in
    reach of a subdistrict. *)
Definition max_offer_constraints (f : nat) : option Q :=
  if existsb (fun d => in_reach d f) dindices then
    let fas_no := length (fas_pos f) in
    if (0 <? fas_no)%nat then
      let offer_sum :=
        sum (List.map (fun i => Farm.tanker_offer_quantity (farm ag i))
               (fas_pos f)) in
      Some (offer_sum / (365 / 12))
    else Some minimum_farm_offer_constraint
  else None.

(** [min_prices[h, f]], set for [f] in [hs_findices[h]]. *)
Definition min_prices (h f : nat) : Q :=
  (transport_cost_coef * road_distance (Consumer.subdist (consumer ag h)) f)
  + offered_mean_price f.

End Preparation.

(** *** 2. The model, its constraints, and the solve *)

(** "A.2. Pyomo model creation and component definition". *)
Definition build (ag : agents) : Fwm.model :=
  {| Fwm.hixs := hindices ag;
     Fwm.fixs := findices ag;
     Fwm.fs_hixs := fs_hindices ag;
     Fwm.hs_fixs := hs_findices ag;
     Fwm.hhixs2 := hhindices ag;
     Fwm.hcixs2 := hcindices ag;
     Fwm.hunits := repres_units ag;
     Fwm.coefs := cs_coefs ag;
     Fwm.expos := cs_expos ag;
     Fwm.pw_qs := pw_consps ag;
     Fwm.pw_css := pw_csurpls ag;
     Fwm.min_prcs := min_prices ag;
     Fwm.f_qmax := max_offer_constraints ag;
     Fwm.is_hix_actives := is_hix_actives ag |}.

(** [i in l] for a list of indices. *)
Definition mem (i : nat) (l : list nat) : bool := existsb (Nat.eqb i) l.

(** "B.3. Preparing the warmed-up solution": the parameters of the model
    are overwritten in place at the current indices. Reading
    [max_offer_constraints[f]] is a [KeyError] when [f] is in reach of no
    subdistrict. *)
Definition update_parameters (ag : agents) (m : Fwm.model)
  : result Fwm.model :=
  if forallb (fun f => bool_decide (is_Some (max_offer_constraints ag f)))
       (findices ag)
  then
    let at_h {A : Type} (new old : nat -> A) : nat -> A :=
      fun h => if mem h (hindices ag) then new h else old h in
    Ok {| Fwm.hixs := Fwm.hixs m;
          Fwm.fixs := Fwm.fixs m;
          Fwm.fs_hixs := Fwm.fs_hixs m;
          Fwm.hs_fixs := Fwm.hs_fixs m;
          Fwm.hhixs2 := Fwm.hhixs2 m;
          Fwm.hcixs2 := Fwm.hcixs2 m;
          Fwm.hunits := at_h (repres_units ag) (Fwm.hunits m);
          Fwm.coefs := at_h (cs_coefs ag) (Fwm.coefs m);
          Fwm.expos := at_h (cs_expos ag) (Fwm.expos m);
          Fwm.pw_qs := at_h (pw_consps ag) (Fwm.pw_qs m);
          Fwm.pw_css := at_h (pw_csurpls ag) (Fwm.pw_css m);
          Fwm.min_prcs :=
            fun h f =>
              if mem h (hindices ag) && mem f (hs_findices ag h)
              then min_prices ag h f else Fwm.min_prcs m h f;
          Fwm.f_qmax :=
            fun f =>
              if mem f (findices ag) then max_offer_constraints ag f
              else Fwm.f_qmax m f;
          Fwm.is_hix_actives :=
            at_h (is_hix_actives ag) (Fwm.is_hix_actives m) |}
  else Raise KeyError.

(** The four options that a warm start sets in [self.opt.options]. *)
Definition warm_start_options (options : gmap string string)
  : gmap string string :=
  <["mu_init" := "1e-6"]>
    (<["warm_start_mult_bound_push" := "1e-6"]>
       (<["warm_start_bound_push" := "1e-6"]>
          (<["warm_start_init_point" := "yes"]> options))).

(** The domain of [fwm.xs], [NonNegativeReals], on its index
    [fwm.hixs * fwm.fixs]. *)
Definition in_domain (m : Fwm.model) (xs : nat -> nat -> Q) : Prop :=
  forall h f, In h (Fwm.hixs m) -> In f (Fwm.fixs m) -> 0 <= xs h f.

(** The rule [sales_ceiling_constraint] of [fwm.c3]. *)
Definition sales_ceiling_constraint (m : Fwm.model) (xs : nat -> nat -> Q)
    (f : nat) : Prop :=
  match Fwm.f_qmax m f with
  | Some qmax => sum (List.map (fun h => xs h f) (Fwm.fs_hixs m f)) <= qmax
  | None => False
  end.

(** The rule [inactivity_constraint] of [fwm.c4]. *)
Definition inactivity_constraint (m : Fwm.model) (xs : nat -> nat -> Q)
    (h : nat) : Prop :=
  match Fwm.is_hix_actives m h with
  | Some bound => sum (List.map (fun f => xs h f) (Fwm.hs_fixs m h)) <= bound
  | None => True
  end.

(** The feasible purchases of the model without the policy levers 2 and 3,
    which add ceilings on sums of the same purchases. *)
Definition feasible (m : Fwm.model) (xs : nat -> nat -> Q) : Prop :=
  in_domain m xs /\
  (forall f, In f (Fwm.fixs m) -> sales_ceiling_constraint m xs f) /\
  (forall h, In h (Fwm.hixs m) -> inactivity_constraint m xs h).

(** "A.4.3 Calculating the initial solution" and "B.5 Calculating the
    warmed-up solution": the solve, and after a [ValueError] or an
    [ApplicationError] the same solve once more. The result is the options
    of the calls, the lines logged, and [self.solver_status],
    [self.termination_condition] and the purchases of the instance, or the
    exception that is not caught. [last_line] is the line logged after the
    second failure. *)
Definition solve_with_retry (solve : oracle) (options : gmap string string)
    (m : Fwm.model) (termination0 : option TerminationCondition)
    (last_line : string)
  : list (gmap string string) * list string
    * result (string * option TerminationCondition
              * option (nat -> nat -> Q)) :=
  (* self.solver_status = "pre-run" *)
  match solve options m 1%nat with
  | Returns results xs =>
      ([options], [],
       Ok ("ok"%string, Some (Pyomo.termination_condition results), Some xs))
  | Raises e =>
      if caught e then
        (* self.solver_status = "ipopt failed once" *)
        match solve options m 2%nat with
        | Returns results xs =>
            ([options; options], ["ipopt did not converge ... retrying"%string],
             Ok ("ok"%string, Some (Pyomo.termination_condition results),
                 Some xs))
        | Raises e2 =>
            if caught e2 then
              ([options; options],
               ["ipopt did not converge ... retrying"%string; last_line],
               Ok ("ipopt failed twice"%string, termination0, None))
            else
              ([options; options],
               ["ipopt did not converge ... retrying"%string], Raise e2)
        end
      else ([options], [], Raise e)
  end.

(** *** 4. Updating agent variables *)

Section Update.

(** [ag0] are the agents after the reset: the index lists and the
    attributes that the update does not write are read from them. [xs] is
    [self.result_xs]. *)
Variable ag0 : agents.
Variable xs : nat -> nat -> Q.

(** [sum(self.result_xs[h, f] for h in ds_hindices[d])]. *)
Definition subdist_purchase (d f : nat) : Q :=
  sum (List.map (fun h => xs h f) (ds_hindices ag0 d)).

(** [mean_price + (self.transport_cost_coef * distance)] of the update:
    the mean is over all farms of the group. *)
Definition min_subdist_price (d f : nat) : Q :=
  let fas := group ag0 f in
  let fas_no := length fas in
  let mean_price :=
    sum (List.map (fun i => Farm.tanker_water_price (farm ag0 i)) fas)
    / inject_Z (Z.of_nat fas_no) in
  mean_price + (transport_cost_coef * road_distance ag0 d f).

(** The body of the first loop over [ds_findices[d]]. *)
Definition price_step (d : nat) (da : Subdist.agent) (f : nat)
  : Subdist.agent :=
  if positive (subdist_purchase d f) then
    let distance := road_distance ag0 d f in
    {| Subdist.subdist_code := Subdist.subdist_code da;
       Subdist.tanker_price :=
         if gt (min_subdist_price d f) (Subdist.tanker_price da)
         then min_subdist_price d f else Subdist.tanker_price da;
       Subdist.max_tanker_distance :=
         if gt distance (Subdist.max_tanker_distance da)
         then distance else Subdist.max_tanker_distance da;
       Subdist.tanker_distances := Subdist.tanker_distances da ++ [distance] |}
  else da.

(** [da], with [da.tanker_price = 0.0], after the first loop. *)
Definition priced (d : nat) (da : Subdist.agent) : Subdist.agent :=
  fold_left (price_step d)
    (ds_findices ag0 d)
    {| Subdist.subdist_code := Subdist.subdist_code da;
       Subdist.tanker_price := 0;
       Subdist.max_tanker_distance := Subdist.max_tanker_distance da;
       Subdist.tanker_distances := Subdist.tanker_distances da |}.

(** The body of the loop over the farms [fa] of a group, for the
    subdistrict price [price] and the purchase [purchase] of the
    subdistrict from the group. *)
Definition sell (price distance purchase offer_sum : Q) (fa : Farm.agent)
  : Farm.agent :=
  if positive offer_sum then
    let sales_factor := Farm.tanker_offer_quantity fa / offer_sum in
    let _tanker_sale := purchase * sales_factor in
    let _tanker_price := price - (transport_cost_coef * distance) in
    let gw_sale_to_tanker := Farm.gw_sale_to_tanker fa + _tanker_sale in
    let tanker_market_revenue :=
      Farm.tanker_market_revenue fa + _tanker_price * _tanker_sale in
    {| Farm.subdistrict := Farm.subdistrict fa;
       Farm.is_active_in_tanker_market := Farm.is_active_in_tanker_market fa;
       Farm.tanker_offer_quantity := Farm.tanker_offer_quantity fa;
       Farm.tanker_water_price := Farm.tanker_water_price fa;
       Farm.gw_sales_to_tanker := Farm.gw_sales_to_tanker fa ++ [_tanker_sale];
       Farm.gw_sale_to_tanker := gw_sale_to_tanker;
       Farm.final_tanker_prices := Farm.final_tanker_prices fa ++ [_tanker_price];
       Farm.final_tanker_price :=
         if positive gw_sale_to_tanker
         then tanker_market_revenue / gw_sale_to_tanker
         else Farm.final_tanker_price fa;
       Farm.tanker_market_revenue := tanker_market_revenue |}
  else fa.

(** The body of the second loop over [ds_findices[d]]. *)
Definition sales_step (d : nat) (price : Q) (farms : list Farm.agent) (f : nat)
  : list Farm.agent :=
  if positive (subdist_purchase d f) then
    let fas := group ag0 f in
    let distance := road_distance ag0 d f in
    let offer_sum :=
      sum (List.map (fun i => Farm.tanker_offer_quantity (farm ag0 i)) fas) in
    fold_left
      (fun farms i =>
         <[i := sell price distance (subdist_purchase d f) offer_sum
                  (nth i farms Farm.blank)]> farms)
      fas farms
  else farms.

(** The body of the loop over [ds_hindices[d]]. *)
Definition buy (d h : nat) (price : Q) (a : Consumer.agent) : Consumer.agent :=
  if positive (Consumer.represented_units a) then
    let tanker_consumption :=
      sum (List.map (fun f => xs h f) (ds_findices ag0 d))
      / Consumer.represented_units a in
    let tanker_expenditure :=
      price * tanker_consumption * Consumer.represented_units a in
    {| Consumer.subdist := Consumer.subdist a;
       Consumer.kind := Consumer.kind a;
       Consumer.represented_units := Consumer.represented_units a;
       Consumer.piped_consumption := Consumer.piped_consumption a;
       Consumer.sigma := Consumer.sigma a;
       Consumer.sigma2 := Consumer.sigma2 a;
       Consumer.tanker_consumption := tanker_consumption;
       Consumer.final_tanker_price := price;
       Consumer.tanker_expenditure := tanker_expenditure;
       Consumer.expenditure := Consumer.expenditure a + tanker_expenditure |}
  else
    {| Consumer.subdist := Consumer.subdist a;
       Consumer.kind := Consumer.kind a;
       Consumer.represented_units := Consumer.represented_units a;
       Consumer.piped_consumption := Consumer.piped_consumption a;
       Consumer.sigma := Consumer.sigma a;
       Consumer.sigma2 := Consumer.sigma2 a;
       Consumer.tanker_consumption := 0;
       Consumer.final_tanker_price := 0;
       Consumer.tanker_expenditure := 0;
       Consumer.expenditure := Consumer.expenditure a |}.

(** The body of the loop over [dindices]. *)
Definition update_subdistrict (ag : agents) (d : nat) : agents :=
  let da := priced d (nth d (all_subdists ag) Subdist.blank) in
  let price := Subdist.tanker_price da in
  {| all_farms :=
       fold_left (sales_step d price) (ds_findices ag0 d) (all_farms ag);
     all_subdists := <[d := da]> (all_subdists ag);
     all_consumers :=
       fold_left
         (fun consumers h =>
            <[h := buy d h price (nth h consumers Consumer.blank)]> consumers)
         (ds_hindices ag0 d) (all_consumers ag) |}.

Definition update_agents : agents :=
  fold_left update_subdistrict (dindices ag0) ag0.

End Update.

(** The update reads [self.result_xs[h, f]] as soon as a subdistrict has a
    consumer and a farm group in reach. *)
Definition reads_result_xs (ag0 : agents) : bool :=
  existsb
    (fun d =>
       negb (Nat.eqb (length (ds_findices ag0 d)) 0)
       && negb (Nat.eqb (length (ds_hindices ag0 d)) 0))
    (dindices ag0).

(** "4. Updating agent variables" for [self.result_xs], which is [None]
    when no solve has returned yet: subscripting [None] is a [TypeError]. *)
Definition update_from (ag0 : agents) (result_xs : option (nat -> nat -> Q))
  : result agents :=
  match result_xs with
  | Some xs => Ok (update_agents ag0 xs)
  | None =>
      if reads_result_xs ag0 then Raise TypeError
      else Ok (update_agents ag0 (fun _ _ => 0))
  end.

(** [det_tanker_market_contracts], without the totals that the wrappers of
    the consumers compute from the agents at its end. *)
Definition det_tanker_market_contracts (solve : oracle) (st : state)
    (ag : agents) : clearing :=
  let ag0 := reset_agent_variables ag in
  let finish (options : gmap string string) (m : Fwm.model)
      (solved : list (gmap string string) * list string
                * result (string * option TerminationCondition
                          * option (nat -> nat -> Q))) : clearing :=
    match snd solved with
    | Raise e =>
        {| solver_calls := fst (fst solved);
           log_lines := snd (fst solved);
           outcome_of_call := Raise e |}
    | Ok (status, termination, xs) =>
        let ok := String.eqb status "ok" in
        let result_xs := if ok then xs else result_xs st in
        {| solver_calls := fst (fst solved);
           log_lines :=
             snd (fst solved)
             ++ [if ok then "Tanker water market solved using IPOPT"%string
                 else "Tanker water market solver did not converge ... previous results loaded"%string];
           outcome_of_call :=
             ag' ← update_from ag0 result_xs;
             Ok ({| is_tanker_market_first_run := false;
                    fwm := Some m;
                    options := options;
                    result_xs := result_xs;
                    solver_status := Some status;
                    termination_condition := termination |},
                 ag') |}
    end in
  if is_tanker_market_first_run st then
    (* A: the model is built and solved with a new solver object *)
    let m := build ag0 in
    finish ∅ m
      (solve_with_retry solve ∅ m (termination_condition st)
         "ipopt did not converge")
  else
    (* B: the stored model is updated in place and solved warm *)
    match fwm st with
    | None =>
        {| solver_calls := []; log_lines := [];
           outcome_of_call := Raise AttributeError |}
    | Some m =>
        let options := warm_start_options (options st) in
        match update_parameters ag0 m with
        | Raise e =>
            {| solver_calls := []; log_lines := [];
               outcome_of_call := Raise e |}
        | Ok m =>
            finish options m
              (solve_with_retry solve options m (termination_condition st)
                 "ipopt did not converge ... re-using previous results")
        end
    end.

End Market.

End TankerMarket.

(** ** Lookups in dictionaries and lists *)

Module PyDict.

(** [d[k]], raising [KeyError] when the key is missing. *)
Definition getitem {K V : Type} `{Countable K} (d : gmap K V) (k : K)
  : result V :=
  match d !! k with
  | Some v => Ok v
  | None => Raise KeyError
  end.

(** [d[k1][k2]] on a dictionary of dictionaries. *)
Definition getitem2 {K1 K2 V : Type} `{Countable K1} `{Countable K2}
    (d : gmap K1 (gmap K2 V)) (k1 : K1) (k2 : K2) : result V :=
  row ← getitem d k1; getitem row k2.

(** [l[i]] for an index that is not negative, raising [IndexError] outside
    the list. *)
Definition item {A : Type} (l : list A) (i : nat) : result A :=
  match l !! i with
  | Some x => Ok x
  | None => Raise IndexError
  end.

(** A loop that rewrites the items of a list one by one; the first
    exception ends it. *)
Fixpoint map_each {A B : Type} (f : A -> result B) (l : list A)
  : result (list B) :=
  match l with
  | [] => Ok []
  | x :: rest => y ← f x; ys ← map_each f rest; Ok (y :: ys)
  end.

(** [a < b] on floats. *)
Definition lt (a b : Q) : bool := negb (Qle_bool b a).

(** A cell of a property sheet that holds a number, or the string ['NA']
    where the sheet has no value: arithmetic on the string is a
    [TypeError]. *)
Definition property : Type := option Q.

Definition number (p : property) : result Q :=
  match p with
  | Some q => Ok q
  | None => Raise TypeError
  end.

End PyDict.

(** ** Groundwater.setup (network_nodes.py) *)

(** A groundwater node as [setup] reads and writes it. [head_calc] is the
    row of the head array that the response engine writes back, with one
    entry for each of the 1021 months; [check_dry] is [None] until the first
    [setup]. *)
Module GroundwaterSetup.

Import PyDict.
Local Open Scope Q_scope.

Record properties : Type := {
  head_calc : nat -> Q;
  bias_correction : Q;
  top : Q;
  bot : Q
}.

Record node : Type := {
  name : string;
  head : Q;
  head_bias_corr : Q;
  pumping : Q;
  lift : Q;
  check_dry : option bool;
  permanently_dry : Z;
  capacity_reduction_factor : Q;
  _gw_node_properties : properties
}.

Definition abnormal_list : list string :=
  ["120201_urb_01"; "120201_ag_01"; "120301_ag_01"; "120301_urb_01";
   "120101_urb_01"; "340201_urb_12"; "240201_urb_01"; "240101_urb_01";
   "120201_ag_07"]%string.

(** [self.name in abnormal_list]. *)
Definition is_abnormal (name : string) : bool :=
  existsb (String.eqb name) abnormal_list.

(** [setup]; [gw_reduction_start] is
    [network.parameters.gw['gw_reduction_start']]. The quotient that gives
    the capacity reduction factor is the quotient of [Q]; its divisor is
    [(gw_reduction_start - .20) * (top - bot)]. *)
Definition setup (current_timestep_idx : nat) (gw_reduction_start : Q)
    (n : node) : result node :=
  let p := _gw_node_properties n in
  if (GWResponseEngine.ntime <=? current_timestep_idx)%nat then
    Raise IndexError
  else
  let head := head_calc p current_timestep_idx in
  let head_bias_corr := head + bias_correction p in
  let lift := top p - head_bias_corr in
  (* Check if dry *)
  let dry := lt head_bias_corr (bot p + ((20 # 100) * (top p - bot p))) in
  let check_dry := dry in
  let permanently_dry := if dry then 1%Z else permanently_dry n in
  (* Calculate capacity reduction factor *)
  let reduced :=
    lt head_bias_corr (bot p + (gw_reduction_start * (top p - bot p))) in
  let factor :=
    (head_bias_corr - (bot p + ((20 # 100) * (top p - bot p))))
    / (bot p + (gw_reduction_start * (top p - bot p))
       - (bot p + ((20 # 100) * (top p - bot p)))) in
  let capacity_reduction_factor :=
    if reduced then (if Qle_bool factor 0 then 0 else factor) else 1 in
  let permanently_dry :=
    if reduced && Qle_bool factor 0 then 1%Z else permanently_dry in
  let check_dry := if (0 <? permanently_dry)%Z then true else check_dry in
  let capacity_reduction_factor :=
    if (0 <? permanently_dry)%Z then 0 else capacity_reduction_factor in
  (* Set lifts to zero for abnormal groundwater locations *)
  let head_bias_corr :=
    if is_abnormal (name n) && lt (top p) head_bias_corr
    then top p else head_bias_corr in
  let lift :=
    if is_abnormal (name n) && lt lift 0 then 0 else lift in
  Ok {| name := name n;
        head := head;
        head_bias_corr := head_bias_corr;
        pumping := 0;
        lift := lift;
        check_dry := Some check_dry;
        permanently_dry := permanently_dry;
        capacity_reduction_factor := capacity_reduction_factor;
        _gw_node_properties := p |}.

End GroundwaterSetup.

(** ** Reservoir.setup (network_nodes.py) *)

(** A reservoir node as [setup] reads and writes it. [res_properties]
    holds, for each key, the number of the property sheet or the string
    ['NA']. *)
Module ReservoirNode.

Import PyDict.
Local Open Scope Q_scope.

Record res_properties : Type := {
  avg_seep : property;
  vol_area_c1 : property;
  vol_area_c2 : property;
  vol_area_c3 : property;
  temp_pan_evap_c1 : property;
  temp_pan_evap_c2 : property
}.

Record node : Type := {
  name : string;
  volume : Q;
  inflow : Q;
  t : Q;
  surf_area : Q;
  evap : Q;
  properties : res_properties
}.

(** The key of [temp_averages] that [setup] reads for a reservoir. *)
Definition temperature_station (name : string) : string :=
  if String.eqb name "talal_res" || String.eqb name "mujib_res"
     || String.eqb name "walah_res" || String.eqb name "karameh_res"
  then "AM0007"
  else if String.eqb name "wehdah_res" then "Wehdah (AD0034)"
  else "AL0035".

(** [setup]. [month] is the month of the current timestep,
    [volume_averages] and [temp_averages] are the tables of
    [network.observations], [evap_factor] is
    [network.parameters.sw['evap_factor']]. *)
Definition setup (current_timestep_idx : nat) (month : Z)
    (volume_averages temp_averages : gmap string (gmap Z Q))
    (evap_factor : Q) (n : node) : result node :=
  let p := properties n in
  volume ←
    (if Nat.eqb current_timestep_idx 0
        && negb (String.eqb (name n) "tiberias_res")
     then getitem2 volume_averages (name n) month
     else Ok (volume n));
  (* get temperature values *)
  t ← getitem2 temp_averages (temperature_station (name n)) month;
  (* calculate surface area from volume *)
  c1 ← number (vol_area_c1 p);
  c2 ← number (vol_area_c2 p);
  c3 ← number (vol_area_c3 p);
  let surf_area := (c1 * (volume ^ 3)) + (c2 * (volume ^ 2)) + (c3 * volume) in
  (* calculate daily pan evaporation (in mm) from temp *)
  let pan_evap :=
    match temp_pan_evap_c1 p, temp_pan_evap_c2 p with
    | Some e1, Some e2 => (t * e1) + e2
    | _, _ => 0
    end in
  (* calculate evaporation from surface area and pan evap *)
  let lake_to_pan_coeff := 13 # 10 in
  let evap :=
    if negb (String.eqb (name n) "tiberias_res")
    then surf_area * pan_evap * (304375 # 10000) / (lake_to_pan_coeff * 1000)
    else 0 in
  let evap := evap * evap_factor in
  (* evap can't be less than zero *)
  let evap := if lt evap 0 then 0 else evap in
  Ok {| name := name n;
        volume := volume;
        inflow := inflow n;
        t := t;
        surf_area := surf_area;
        evap := evap;
        properties := p |}.

End ReservoirNode.

(** ** Python floats as IEEE 754 binary64 numbers *)

(** The arithmetic of Python's [float]: binary64 numbers with the
    operations rounded to the nearest number, ties to even, as [SpecFloat]
    specifies them. A sum, a difference or a product that overflows is an
    infinity, a comparison with a NaN is false, and a quotient by zero
    raises [ZeroDivisionError]. *)
Module Float64.

Definition float : Type := SpecFloat.spec_float.

Definition prec : Z := 53.
Definition emax : Z := 1024.

(** [x + y], [x - y] and [x * y]. *)
Definition add (x y : float) : float := SpecFloat.SFadd prec emax x y.
Definition sub (x y : float) : float := SpecFloat.SFsub prec emax x y.
Definition mul (x y : float) : float := SpecFloat.SFmul prec emax x y.

(** [x / y]. *)
Definition div (x y : float) : result float :=
  match y with
  | SpecFloat.S754_zero _ => Raise ZeroDivisionError
  | _ => Ok (SpecFloat.SFdiv prec emax x y)
  end.

(** [x > y] and [x < y]. *)
Definition gt (x y : float) : bool := SpecFloat.SFltb y x.
Definition lt (x y : float) : bool := SpecFloat.SFltb x y.

(** [float(z)] of an integer. *)
Definition of_Z (z : Z) : float :=
  SpecFloat.binary_normalize prec emax z 0 false.

End Float64.

(** ** Reservoir.run_mujib_walah_balance (network_nodes.py),
       ReservoirBalanceEngine (sw_module.py) *)

(** A reservoir node as the balance reads and writes it; the numbers are
    Python floats. [avg_seep] is [res_properties['avg_seep']], the number
    of the property sheet or the string ['NA']. *)
Module ReservoirBalance.

Import PyDict Float64.

Record node : Type := {
  name : string;
  volume : float;
  inflow : float;
  evap : float;
  avg_seep : option float
}.

(** What the balance reads from the institutions: WAJ's
    [real_extraction['zara_maeen']] and
    [yearly_max_groundwater_pumping['zara_maeen']], JVA's
    [mujib_annual_availability] and [walah_annual_availability]. *)
Record supply : Type := {
  real_extraction : float;
  yearly_max_groundwater_pumping : float;
  mujib_annual_availability : float;
  walah_annual_availability : float
}.

(** A cell of the property sheet in an arithmetic expression: on the
    string ['NA'] the operation raises [TypeError]. *)
Definition number (p : option float) : result float :=
  match p with
  | Some x => Ok x
  | None => Raise TypeError
  end.

(** [run_mujib_walah_balance]. [releases] is the local dictionary of the
    method. *)
Definition run_mujib_walah_balance (s : supply) (n : node) : result node :=
  mujib ←
    div (mul (real_extraction s) (mujib_annual_availability s))
        (yearly_max_groundwater_pumping s);
  let releases : gmap string float := <["mujib_res" := mujib]> ∅ in
  walah ←
    div (mul (real_extraction s) (walah_annual_availability s))
        (yearly_max_groundwater_pumping s);
  let releases := <["walah_res" := walah]> releases in
  release ← getitem releases (name n);
  seep ← number (avg_seep n);
  let available := add (sub (sub (volume n) (evap n)) seep) (inflow n) in
  releases ←
    (if gt release available then
       let diff := sub release available in
       let releases := <[name n := available]> releases in
       let other :=
         if String.eqb (name n) "walah_res" then "mujib_res"
         else "walah_res" in
       r ← getitem releases other;
       Ok (<[other := add r diff]> releases)
     else Ok releases);
  release ← getitem releases (name n);
  Ok {| name := name n;
        volume :=
          add (sub (sub (sub (volume n) (evap n)) seep) release)
              (inflow n);
        inflow := inflow n;
        evap := evap n;
        avg_seep := avg_seep n |}.

End ReservoirBalance.

Module ReservoirBalanceEngine.

Import PyDict ReservoirBalance.

(** [run]: the loop over [self.target.nodes]. *)
Definition run (s : supply) (nodes : list node) : result (list node) :=
  map_each
    (fun res =>
       if String.eqb (name res) "walah_res" || String.eqb (name res) "mujib_res"
       then run_mujib_walah_balance s res
       else Ok res)
    nodes.

End ReservoirBalanceEngine.

(** ** JordanInstitution.get_gw_levels and get_res_levels (government.py) *)

Module JordanInstitution.

(** A node of the institution as the two methods read it:
    [n.component_type], [n.name], [n.head] and [n.level]. *)
Record node : Type := {
  component_type : string;
  name : string;
  head : Q;
  level : Q
}.

Definition get_gw_levels (nodes : list node) : gmap string Q :=
  fold_left
    (fun gw_levels n =>
       if String.eqb (component_type n) "Groundwater"
       then <[name n := head n]> gw_levels
       else gw_levels)
    nodes ∅.

Definition get_res_levels (nodes : list node) : gmap string Q :=
  fold_left
    (fun res_levels n =>
       if String.eqb (component_type n) "Reservoir"
       then <[name n := level n]> res_levels
       else res_levels)
    nodes ∅.

End JordanInstitution.

(** ** CWA: the transfer forecasts and the deliveries under the agreement
       (government.py), CWAForecastEngine and CWADeliveryEngine *)

Module CWAForecast.

Import PyDict.
Local Open Scope Q_scope.

(** The attributes of the institution that the forecasts read and write,
    beside [wehdah_release_forecast], which [set_allocation] writes. *)
Record attrs : Type := {
  wehdah_kac_forecast : list Q;
  kac_to_zai_forecast : list Q;
  kac_to_zai : Q;
  allocation_actual : Q;
  concession_actual : Q;
  alpha_kac_actual : Q;
  extra_to_israel : Q;
  tiberias_kac_actual : Q;
  kac_zai_actual : Q;
  adasiya_syr_inflow : Q
}.

(** What the methods read from the network: the parameters [cwa_dynamic]
    and [cwa_waj_factor], the date and the index of the current timestep,
    the SWAT flow at Adasiya of the selected scenario by year and month
    ([None] where the sheet has no row), the tables [cwa_transfer_averages]
    and [cwa_transfer_2015] of the observations, and the values of
    [concession_actual] recorded at the earlier timesteps. *)
Record environment : Type := {
  cwa_dynamic : Z;
  cwa_waj_factor : Q;
  current_month : Z;
  current_year : Z;
  current_timestep_idx : nat;
  adasiya : Z -> Z -> option Q;
  cwa_transfer_averages : gmap string (gmap Z Q);
  cwa_transfer_2015 : gmap string (gmap Z Q);
  concession_history : list Q
}.

(** [l[i]] for an integer index: a negative index counts from the end. *)
Definition index {A : Type} (l : list A) (i : Z) : result A :=
  let n := Z.of_nat (length l) in
  if (0 <=? i)%Z then item l (Z.to_nat i)
  else if (- n <=? i)%Z then item l (Z.to_nat (n + i))
  else Raise IndexError.

(** [x * .91] for an entry of [wehdah_release_forecast]. *)
Definition det_wehdah_to_kac_forecast (wehdah_release_forecast : list Pyomo.value)
    (a : attrs) : result attrs :=
  forecast ←
    for_each (seq 0 12)
      (fun forecast m =>
         v ← item wehdah_release_forecast m;
         release ← number v;
         Ok (forecast ++ [release * (91 # 100)]))
      [];
  Ok {| wehdah_kac_forecast := forecast;
        kac_to_zai_forecast := kac_to_zai_forecast a;
        kac_to_zai := kac_to_zai a;
        allocation_actual := allocation_actual a;
        concession_actual := concession_actual a;
        alpha_kac_actual := alpha_kac_actual a;
        extra_to_israel := extra_to_israel a;
        tiberias_kac_actual := tiberias_kac_actual a;
        kac_zai_actual := kac_zai_actual a;
        adasiya_syr_inflow := adasiya_syr_inflow a |}.

(** [inputs_adasiya[...].value.values[0]]. *)
Definition adasiya_value (env : environment) (year month : Z) : result Q :=
  match adasiya env year month with
  | Some v => Ok v
  | None => Raise IndexError
  end.

(** [total_kac_supply] for the month [m] of the forecast. *)
Definition total_kac_supply (env : environment) (a : attrs) (m : nat)
  : result Q :=
  let current_month := current_month env in
  let averages := cwa_transfer_averages env in
  if Nat.eqb m 0 then
    w ← item (wehdah_kac_forecast a) m;
    s ← adasiya_value env (current_year env) (current_month + Z.of_nat m);
    t ← getitem2 averages "tiberias_kac_n" (current_month + Z.of_nat m)%Z;
    k ← getitem2 averages "mukheiba_kac_n" (current_month + Z.of_nat m)%Z;
    Ok (w + s + t + k)
  else
    let month :=
      if (current_month + Z.of_nat m <=? 12)%Z
      then (current_month + Z.of_nat m)%Z
      else (current_month + Z.of_nat m - 12)%Z in
    w ← item (wehdah_kac_forecast a) m;
    y ← getitem2 averages "yarmouk_kac_n" month;
    t ← getitem2 averages "tiberias_kac_n" month;
    k ← getitem2 averages "mukheiba_kac_n" month;
    Ok (w + y + t + k).

(** The monthly targets of the agreement, in m3. *)
Definition allocation_target : list Q :=
  List.map (fun element => element * 1000000)
    [191 # 100; 173 # 100; 191 # 100; 185 # 100; 219 # 100; 234 # 100;
     242 # 100; 242 # 100; 234 # 100; 215 # 100; 185 # 100; 191 # 100].

Definition concession_target : list Q :=
  List.map (fun element => element * 1000000)
    [294 # 100; 266 # 100; 294 # 100; 284 # 100; 140 # 100; 0; 0; 0; 0;
     144 # 100; 284 # 100; 294 # 100].

Definition tiberias_target : list Q :=
  List.map (fun element => element * 1000000)
    [17 # 100; 34 # 100; 227 # 100; 430 # 100; 589 # 100; 596 # 100;
     601 # 100; 616 # 100; 588 # 100; 551 # 100; 414 # 100; 200 # 100].

(** [max(0, x)]. *)
Definition max0 (x : Q) : Q := if lt 0 x then x else 0.

(** [l[-12:]]. *)
Definition last12 {A : Type} (l : list A) : list A :=
  drop (length l - 12) l.

(** [tiberias_kac_adjustment]. *)
Definition tiberias_kac_adjustment (env : environment) : Q :=
  let history := concession_history env in
  if (current_timestep_idx env <=? 11)%nat then
    if Nat.eqb (current_timestep_idx env) 0 then 0
    else
      let no_prev_month := length history in
      (sum history + sum (drop no_prev_month concession_target)
       - sum concession_target) / 12
  else
    (sum (last12 history) - sum concession_target) / 12.

(** "Determine actual (current month) deliveries to kac and transfers with
    Israel based on agreement". *)
Definition deliveries (env : environment)
    (wehdah_release_forecast : list Pyomo.value) (a : attrs) : result attrs :=
  let current_month := current_month env in
  syr ← adasiya_value env (current_year env) current_month;
  v ← item wehdah_release_forecast 0;
  release ← number v;
  let adasiya_inflow := release + syr in
  (* First, try to meet the allocation and concession targets to Israel *)
  allocation ← index allocation_target (current_month - 1);
  concession ← index concession_target (current_month - 1);
  let concession_actual :=
    if Qle_bool adasiya_inflow (allocation + concession) then
      if Qle_bool adasiya_inflow allocation then 0
      else adasiya_inflow - allocation
    else concession in
  let allocation_actual := allocation in
  tiberias ← index tiberias_target (current_month - 1);
  let tiberias_kac_actual := max0 (tiberias + tiberias_kac_adjustment env) in
  rest ←
    (if lt 0 (adasiya_inflow - allocation_actual - concession_actual) then
       let adasiya_remaining :=
         adasiya_inflow - allocation_actual - concession_actual in
       w ← getitem2 (cwa_transfer_2015 env) "wehdah_kac_n" current_month;
       y ← getitem2 (cwa_transfer_2015 env) "yarmouk_kac_n" current_month;
       if Qle_bool (w + y) adasiya_remaining
       then Ok (w + y, adasiya_remaining - (w + y))
       else Ok (adasiya_remaining, extra_to_israel a)
     else Ok (alpha_kac_actual a, extra_to_israel a));
  let alpha_kac_actual := fst rest in
  Ok {| wehdah_kac_forecast := wehdah_kac_forecast a;
        kac_to_zai_forecast := kac_to_zai_forecast a;
        kac_to_zai := kac_to_zai a;
        allocation_actual := allocation_actual;
        concession_actual := concession_actual;
        alpha_kac_actual := alpha_kac_actual;
        extra_to_israel := snd rest;
        tiberias_kac_actual := tiberias_kac_actual;
        kac_zai_actual :=
          (2685 # 10000) * (tiberias_kac_actual + alpha_kac_actual) + 2000000;
        adasiya_syr_inflow := syr |}.

Definition with_kac_to_zai_forecast (a : attrs) (forecast : list Q) : attrs :=
  {| wehdah_kac_forecast := wehdah_kac_forecast a;
     kac_to_zai_forecast := forecast;
     kac_to_zai := kac_to_zai a;
     allocation_actual := allocation_actual a;
     concession_actual := concession_actual a;
     alpha_kac_actual := alpha_kac_actual a;
     extra_to_israel := extra_to_israel a;
     tiberias_kac_actual := tiberias_kac_actual a;
     kac_zai_actual := kac_zai_actual a;
     adasiya_syr_inflow := adasiya_syr_inflow a |}.

(** [det_kac_to_zai_forecast]. *)
Definition det_kac_to_zai_forecast (env : environment)
    (wehdah_release_forecast : list Pyomo.value) (a : attrs) : result attrs :=
  let a := with_kac_to_zai_forecast a [] in
  if (cwa_dynamic env =? 1)%Z then
    forecast ←
      for_each (seq 0 12)
        (fun forecast m =>
           total_kac_supply ← total_kac_supply env a m;
           let kac_to_zai_forecast :=
             (((2685 # 10000) * total_kac_supply) + 2000000)
             * cwa_waj_factor env in
           Ok (forecast ++ [kac_to_zai_forecast]))
        [];
    deliveries env wehdah_release_forecast
      (with_kac_to_zai_forecast a forecast)
  else Ok a.

(** [determine_transfers]. *)
Definition determine_transfers (a : attrs) : result attrs :=
  first ← item (kac_to_zai_forecast a) 0;
  Ok {| wehdah_kac_forecast := wehdah_kac_forecast a;
        kac_to_zai_forecast := kac_to_zai_forecast a;
        kac_to_zai := first;
        allocation_actual := allocation_actual a;
        concession_actual := concession_actual a;
        alpha_kac_actual := alpha_kac_actual a;
        extra_to_israel := extra_to_israel a;
        tiberias_kac_actual := tiberias_kac_actual a;
        kac_zai_actual := kac_zai_actual a;
        adasiya_syr_inflow := adasiya_syr_inflow a |}.

End CWAForecast.

(** [CWAForecastEngine.run] (institution_forecasts.py) and
    [CWADeliveryEngine.run] (institution_deliveries.py). The state of the
    institution is the state that [set_allocation] writes together with the
    attributes of the forecasts. *)
Module CWAForecastEngine.

Import CWAForecast.

Definition run (env : environment) (solve : Pyomo.solver -> Pyomo.outcome CWA.instance)
    (st : CWA.state * attrs) : result (CWA.state * attrs) :=
  st ←
    (if (cwa_dynamic env =? 1)%Z then
       s ← CWA.set_allocation (current_timestep_idx env) (current_month env)
              solve (fst st);
       a ← det_wehdah_to_kac_forecast (CWA.wehdah_release_forecast s) (snd st);
       Ok (s, a)
     else Ok st);
  a ← det_kac_to_zai_forecast env (CWA.wehdah_release_forecast (fst st))
         (snd st);
  Ok (fst st, a).

End CWAForecastEngine.

Module CWADeliveryEngine.

Import CWAForecast.

Definition run (st : CWA.state * attrs) : result (CWA.state * attrs) :=
  a ← determine_transfers (snd st);
  Ok (fst st, a).

End CWADeliveryEngine.

(** ** WAJ.get_penalties (government.py) *)

From Stdlib Require Qpower.

Module WAJPenalties.

Local Open Scope Q_scope.

(** A dictionary with numbers as keys, as the list of its items in the
    order of insertion: [d[key] = v] replaces the value of a key that is
    present and appends the item otherwise. *)
Definition setitem (d : list (Q * Q)) (key v : Q) : list (Q * Q) :=
  if existsb (fun item => Qeq_bool (fst item) key) d
  then List.map
         (fun item => if Qeq_bool (fst item) key then (fst item, v) else item)
         d
  else d ++ [(key, v)].

Definition getitem (d : list (Q * Q)) (key : Q) : result Q :=
  match List.find (fun item => Qeq_bool (fst item) key) d with
  | Some item => Ok (snd item)
  | None => Raise KeyError
  end.

(** The local variables of the method. *)
Record locals : Type := {
  C : list Q;
  B : list (Q * Q);
  x : Q;
  c : Q;
  b : Q;
  n : Z
}.

(** The body of the [while] loop. *)
Definition body (inc cost_inc : Q) (l : locals) : locals :=
  let C' := C l ++ [c l] in
  let B' := setitem (B l) (c l) (b l) in
  let x' := x l + inc in
  let c2 := c l * cost_inc in
  let b2 := c l * x' - c2 * x' + b l in
  {| C := C'; B := B'; x := x'; c := c2; b := b2; n := (n l + 1)%Z |}.

(** [while n <= n_inc], for at most [fuel] tests of the condition. *)
Fixpoint while (fuel : nat) (n_inc : Z) (inc cost_inc : Q) (l : locals)
  : option locals :=
  match fuel with
  | O => None
  | S fuel =>
      if (n l <=? n_inc)%Z
      then while fuel n_inc inc cost_inc (body inc cost_inc l)
      else Some l
  end.

(** [get_penalties(inc, n_inc, cost_inc, c0)] for an integer [n_inc]. *)
Definition get_penalties (fuel : nat) (inc : Q) (n_inc : Z) (cost_inc c0 : Q)
  : option (list Q * list (Q * Q)) :=
  let x := inject_Z (- n_inc) * inc in
  let c := c0 in
  let b := 1 - c * x in
  let n := (- n_inc)%Z in
  l ← while fuel n_inc inc cost_inc
        {| C := []; B := []; x := x; c := c; b := b; n := n |};
  Some (C l, B l).

End WAJPenalties.

(* ================================================================== *)
(** * Part II: properties                                              *)
(* ================================================================== *)

(** ** Python lists *)

Section PyFacts.

Lemma In_range (a b k : Z) : In k (range a b) <-> a <= k < b.
Proof.
  unfold range. rewrite in_map_iff. split.
  - intros (i & <- & Hi%in_seq). lia.
  - intros Hk. exists (Z.to_nat (k - a)). split; [lia|].
    apply in_seq. lia.
Qed.

Lemma In_succ_range (n k : Z) :
  In k (List.map (fun m => m + 1) (range 0 n)) <-> 1 <= k <= n.
Proof.
  rewrite in_map_iff. split.
  - intros (i & <- & Hi%In_range). lia.
  - intros Hk. exists (k - 1). split; [lia|]. apply In_range. lia.
Qed.

Lemma NoDup_range (a b : Z) : List.NoDup (range a b).
Proof.
  unfold range. apply Injective_map_NoDup; [|apply seq_NoDup].
  intros i j Hij. lia.
Qed.

Lemma NoDup_succ_range (n : Z) :
  List.NoDup (List.map (fun m => m + 1) (range 0 n)).
Proof.
  apply Injective_map_NoDup; [|apply NoDup_range].
  intros i j Hij. lia.
Qed.

Lemma range_cons (a b : Z) : a < b -> range a b = a :: range (a + 1) b.
Proof.
  intros Hab. unfold range.
  replace (Z.to_nat (b - a)) with (S (Z.to_nat (b - (a + 1)))) by lia.
  cbn [seq List.map]. f_equal; [lia|].
  rewrite <- seq_shift, List.map_map. apply List.map_ext. intros i. lia.
Qed.

End PyFacts.

(** ** HorizonIndex *)

Module HorizonFacts.

(** The months of the year in the order December, January, ..., November. *)
Definition whole_year_from_december : list Z :=
  [12; 1; 2; 3; 4; 5; 6; 7; 8; 9; 10; 11].

Lemma past_months_eq (c : calendar) :
  CWA.past_months c = JVA.past_months c.
Proof. reflexivity. Qed.

Lemma In_past_months (c : calendar) (k : Z) :
  1 <= month c <= 12 -> 1 <= k <= 12 ->
  In k (JVA.past_months c) <->
  month c <> 12 /\ (k < month c \/ (k = 12 /\ first_year c = false)).
Proof.
  intros Hm Hk. unfold JVA.past_months.
  destruct (Z.eqb_spec (month c) 12) as [E|E]; [simpl; lia|].
  rewrite in_app_iff, In_succ_range.
  destruct (first_year c); simpl; split; intros H.
  - split; [done|]. lia.
  - destruct H as [_ [H|[_ H]]]; [lia|done].
  - split; [done|]. lia.
  - destruct H as [_ [H|[H _]]]; [right; lia|left; left; lia].
Qed.

Lemma In_JVA_rem_months (m k : Z) :
  1 <= m <= 12 -> 1 <= k <= 12 ->
  In k (JVA.rem_months m) <-> m = 12 \/ (m <= k /\ k <> 12).
Proof.
  intros Hm Hk. unfold JVA.rem_months.
  destruct (Z.eqb_spec m 12) as [E|E].
  - change (In k (12 :: _)) with (12 = k \/ In k (List.map (fun m => m + 1) (range 0 11))).
    rewrite In_succ_range. lia.
  - rewrite In_range. lia.
Qed.

Lemma CWA_rem_months_Ok (m : Z) :
  1 <= m <= 12 ->
  CWA.rem_months m =
    Ok (range m 13 ++ List.map (fun k => k + 1) (range 0 (m - 1))).
Proof.
  intros Hm. unfold CWA.rem_months.
  destruct (Z.eqb_spec m 12) as [->|E]; [reflexivity|].
  rewrite (range_cons m 13) by lia. cbn [first mbind result_bind].
  destruct (Z.eqb_spec m 1) as [->|E1]; cbn [negb].
  - change (range 0 (1 - 1)) with (@nil Z). cbn [List.map]. by rewrite app_nil_r.
  - reflexivity.
Qed.

Lemma succ_range (n : Z) :
  List.map (fun m => m + 1) (range 0 n) = range 1 (n + 1).
Proof.
  unfold range. rewrite List.map_map.
  replace (n + 1 - 1) with (n - 0) by lia.
  apply List.map_ext. intros i. lia.
Qed.

Lemma NoDup_JVA_horizon (c : calendar) :
  1 <= month c <= 12 ->
  List.NoDup (JVA.rem_months (month c) ++ JVA.past_months c).
Proof.
  intros Hm. unfold JVA.rem_months, JVA.past_months.
  destruct (Z.eqb_spec (month c) 12) as [E|E].
  - rewrite app_nil_r. vm_compute. repeat constructor; simpl; intuition lia.
  - apply List.NoDup_app; [apply NoDup_range| |].
    + destruct (first_year c); cbn [app]; [apply NoDup_succ_range|].
      constructor; [|apply NoDup_succ_range].
      intros H%In_succ_range. lia.
    + intros k Hk%In_range Hp%in_app_iff.
      destruct Hp as [Hp|Hp%In_succ_range]; [|lia].
      destruct (first_year c); simpl in Hp; lia.
Qed.

(** C3 (as amended). For a calendar month [m] in [1..12]: [past_months] is
    the same list in both institutions, empty for [m = 12], [1..m-1] in the
    first simulated year and [12, 1..m-1] in later years. In the JVA model
    [rem_months] is [m..11] for [m < 12] and the whole year
    [12, 1, ..., 11] for [m = 12]; remaining and past months never overlap,
    and a calendar month [k] lies in one of them exactly when [m = 12], or
    the year is not the first one, or [k] is not December. In the CWA model
    [rem_months] is always the whole year, starting at [m], and so contains
    every past month. *)
Theorem horizon_months (c : calendar) :
  1 <= month c <= 12 ->
  CWA.past_months c = JVA.past_months c /\
  (month c = 12 -> JVA.past_months c = []) /\
  (month c <> 12 ->
     JVA.past_months c =
       (if first_year c then [] else [12]) ++ range 1 (month c)) /\
  (month c = 12 -> JVA.rem_months (month c) = whole_year_from_december) /\
  (month c <> 12 -> JVA.rem_months (month c) = range (month c) 12) /\
  List.NoDup (JVA.rem_months (month c) ++ JVA.past_months c) /\
  (forall k, 1 <= k <= 12 ->
     In k (JVA.rem_months (month c) ++ JVA.past_months c) <->
     (month c = 12 \/ first_year c = false \/ k <> 12)) /\
  exists rem,
    CWA.rem_months (month c) = Ok rem /\
    rem = range (month c) 13 ++ range 1 (month c) /\
    List.NoDup rem /\
    (forall k, In k rem <-> 1 <= k <= 12) /\
    (forall k, In k (CWA.past_months c) -> In k rem).
Proof.
  intros Hm. split; [reflexivity|].
  split; [intros E; unfold JVA.past_months; by rewrite E|].
  split.
  { intros E. unfold JVA.past_months.
    destruct (Z.eqb_spec (month c) 12) as [|_]; [done|].
    rewrite succ_range. do 2 f_equal. lia. }
  split; [intros E; by rewrite E|].
  split.
  { intros E. unfold JVA.rem_months.
    by destruct (Z.eqb_spec (month c) 12). }
  split; [by apply NoDup_JVA_horizon|].
  split.
  { intros k Hk.
    rewrite in_app_iff, In_JVA_rem_months, In_past_months by done.
    destruct (first_year c); split; intros H; lia. }
  exists (range (month c) 13 ++ range 1 (month c)).
  assert (Hin : forall k,
    In k (range (month c) 13 ++ range 1 (month c)) <-> 1 <= k <= 12).
  { intros k. rewrite in_app_iff, !In_range. lia. }
  split.
  { rewrite CWA_rem_months_Ok, succ_range by done. do 3 f_equal. lia. }
  split; [done|]. split.
  { apply List.NoDup_app; [apply NoDup_range|apply NoDup_range|].
    intros k Hk%In_range Hp%In_range. lia. }
  split; [done|].
  intros k Hk. apply Hin. unfold CWA.past_months in Hk.
  destruct (Z.eqb_spec (month c) 12); [done|].
  apply in_app_iff in Hk as [Hk|Hk%In_succ_range]; [|lia].
  destruct (first_year c); simpl in Hk; lia.
Qed.

(** The amended statement at March of a later year. *)
Lemma horizon_months_witness :
  let c := {| month := 3; first_year := false |} in
  1 <= month c <= 12 /\
  List.NoDup (JVA.rem_months (month c) ++ JVA.past_months c) /\
  JVA.rem_months (month c) = range 3 12.
Proof.
  intros c. split; [simpl; lia|].
  pose proof (horizon_months c ltac:(simpl; lia)) as H.
  split; [apply H|]. apply H. simpl. lia.
Defined.

(** C3 (as stated) fails. In March of a later year the CWA horizon has
    January both among the remaining and among the past months; in March of
    the first simulated year the past months are [1, 2], not empty, and
    December is neither remaining nor past in the JVA horizon; in December
    the remaining months are the whole year, not December alone. *)
Lemma horizon_partition_counterexample :
  CWA.rem_months 3 = Ok [3; 4; 5; 6; 7; 8; 9; 10; 11; 12; 1; 2] /\
  CWA.past_months {| month := 3; first_year := false |} = [12; 1; 2] /\
  JVA.rem_months 3 = [3; 4; 5; 6; 7; 8; 9; 10; 11] /\
  JVA.past_months {| month := 3; first_year := true |} = [1; 2] /\
  ~ In 12 (JVA.rem_months 3 ++
           JVA.past_months {| month := 3; first_year := true |}) /\
  JVA.rem_months 12 = [12; 1; 2; 3; 4; 5; 6; 7; 8; 9; 10; 11] /\
  CWA.rem_months 12 = Ok [12; 1; 2; 3; 4; 5; 6; 7; 8; 9; 10; 11].
Proof.
  repeat split; try reflexivity.
  vm_compute. intuition discriminate.
Qed.

End HorizonFacts.

(** ** SolverCascade *)

Module SolverCascadeFacts.

Import Pyomo.

(** The failure of the primary solver that makes a cascade go on: it raises
    one of the two exceptions of the [except] clause, or it returns results
    that are not optimal. *)
Definition fails {I : Type} (o : outcome I) : Prop :=
  match o with
  | Raises e => caught e = true
  | Returns results _ => solved_optimally results = false
  end.

(** Both solvers raise: ipopt a [ValueError], cplex an [ApplicationError]. *)
Definition both_raise {I : Type} (s : solver) : outcome I :=
  match s with
  | ipopt => Raises ValueError
  | _ => Raises ApplicationError
  end.

(** When ipopt fails, the cascades of CWA and JVA call ipopt and then cplex,
    each once. *)
Lemma CWA_calls_after_failure {I : Type} (solve : solver -> outcome I) :
  fails (solve ipopt) -> calls (CWA.solve_cascade solve) = [ipopt; cplex].
Proof.
  unfold CWA.solve_cascade, fails.
  destruct (solve ipopt) as [r i|e]; intros ->; by destruct (solve cplex).
Qed.

Lemma JVA_calls_after_failure {I : Type} (solve : solver -> outcome I) :
  fails (solve ipopt) -> calls (JVA.solve_cascade solve) = [ipopt; cplex].
Proof.
  unfold JVA.solve_cascade, fails.
  destruct (solve ipopt) as [r i|e]; intros ->; by destruct (solve cplex).
Qed.

(** In the cascades of CWA and JVA whatever cplex raises leaves the
    cascade. *)
Lemma CWA_cplex_not_guarded {I : Type} (solve : solver -> outcome I) (e : exn) :
  fails (solve ipopt) -> solve cplex = Raises e ->
  final (CWA.solve_cascade solve) = Raise e.
Proof.
  unfold CWA.solve_cascade, fails.
  destruct (solve ipopt) as [r i|e0]; intros -> ->; reflexivity.
Qed.

Lemma JVA_cplex_not_guarded {I : Type} (solve : solver -> outcome I) (e : exn) :
  fails (solve ipopt) -> solve cplex = Raises e ->
  final (JVA.solve_cascade solve) = Raise e.
Proof.
  unfold JVA.solve_cascade, fails.
  destruct (solve ipopt) as [r i|e0]; intros -> ->; reflexivity.
Qed.

(** The cascade of WAJ, entered with [solver_status == 'ok'], guards both
    calls: when both solvers fail with exceptions of the [except] clause or
    with results that are not optimal, it calls ipopt and cplex once each,
    no exception leaves it, and it ends with the status "not_optimal". *)
Lemma WAJ_cascade_after_failures (solve : solver -> outcome WAJ.instance) :
  fails (solve ipopt) -> fails (solve cplex) ->
  exists c,
    WAJ.solve_cascade "ok" solve = (c, "not_optimal"%string) /\
    calls c = [ipopt; cplex] /\
    exists results inst, final c = Ok (results, inst).
Proof.
  unfold WAJ.solve_cascade, fails. cbn [String.eqb Ascii.eqb Bool.eqb].
  destruct (solve ipopt) as [r i|e]; intros ->;
    destruct (solve cplex) as [r2 i2|e2]; intros ->; eauto 6.
Qed.

(** C1 fails on the code. When ipopt raises a [ValueError] and cplex raises
    an [ApplicationError], the cascades of CWA and of JVA have called ipopt
    and cplex once each, in this order, and the [ApplicationError] leaves
    the allocation call (for CWA shown in March, for JVA in every month):
    the call to cplex is outside every [try]. The cascade of WAJ guards the
    same call and ends with the status "not_optimal". *)
Theorem unguarded_cplex_call :
  calls (CWA.solve_cascade (@both_raise CWA.instance)) = [ipopt; cplex] /\
  final (CWA.solve_cascade (@both_raise CWA.instance))
  = Raise ApplicationError /\
  (forall idx st,
     CWA.set_allocation idx 3 both_raise st = Raise ApplicationError) /\
  calls (JVA.solve_cascade (@both_raise JVA.instance)) = [ipopt; cplex] /\
  final (JVA.solve_cascade (@both_raise JVA.instance)) = Raise ApplicationError /\
  (forall idx month ix st,
     JVA.set_allocation_forecast idx month ix both_raise st
     = Raise ApplicationError) /\
  snd (WAJ.solve_cascade "ok" both_raise) = "not_optimal"%string /\
  final (fst (WAJ.solve_cascade "ok" both_raise))
  = Ok (None, WAJ.created_instance).
Proof. repeat split. Qed.

(** *** Loading after a failed cascade *)


Lemma for_each_ext {S A : Type} (l : list A) (body body' : S -> A -> result S)
    (s : S) :
  (forall s x, body s x = body' s x) ->
  for_each l body s = for_each l body' s.
Proof.
  intros Hb. revert s. induction l as [|x l IH]; intros s; cbn; [done|].
  rewrite Hb. destruct (body' s x); cbn; [apply IH|done].
Qed.











End SolverCascadeFacts.

(** ** AllocationModel: mass balance and storage anchor *)

Module AllocationModelFacts.

Import Pyomo.
Local Open Scope Q_scope.

(** An assignment is feasible for a family of constraints when it satisfies
    each of them. *)
Definition feasible {A I : Type} (a : A) (family : list (I * constraint A))
  : Prop :=
  forall ic, In ic family -> satisfies a (snd ic).

Lemma In_Constraint {A I J : Type} (I1 : list I) (I2 : list J)
    (rule : I -> J -> option (constraint A)) (i : I) (j : J)
    (c : constraint A) :
  In i I1 -> In j I2 -> rule i j = Some c ->
  In ((i, j), c) (Constraint I1 I2 rule).
Proof.
  intros Hi Hj Hr. apply list_elem_of_In. unfold Constraint.
  apply list_elem_of_bind. exists i. split; [|by apply list_elem_of_In].
  apply list_elem_of_bind. exists j. split; [|by apply list_elem_of_In].
  rewrite Hr. by apply list_elem_of_singleton.
Qed.

Lemma In_Constraint_inv {A I J : Type} (I1 : list I) (I2 : list J)
    (rule : I -> J -> option (constraint A)) (ic : (I * J) * constraint A) :
  In ic (Constraint I1 I2 rule) ->
  exists i j, In i I1 /\ In j I2 /\ rule i j = Some (snd ic) /\ fst ic = (i, j).
Proof.
  intros Hic%list_elem_of_In. unfold Constraint in Hic.
  apply list_elem_of_bind in Hic as (i & Hic & Hi%list_elem_of_In).
  apply list_elem_of_bind in Hic as (j & Hic & Hj%list_elem_of_In).
  exists i, j. destruct (rule i j) as [c|] eqn:E.
  - by apply list_elem_of_singleton in Hic as ->.
  - by apply not_elem_of_nil in Hic.
Qed.

(** *** The dictionaries of incoming and outgoing links *)

Lemma get_append_link (d : gmap string (list link)) (key : string) (l : link)
    (k : string) :
  get (append_link d key l) k
  = if String.eqb k key then get d key ++ [l] else get d k.
Proof.
  unfold get, append_link.
  destruct (String.eqb_spec k key) as [->|Hne].
  - destruct (d !! key) as [[|x xs]|] eqn:E; by rewrite lookup_insert_eq.
  - destruct (d !! key) as [[|x xs]|] eqn:E; by rewrite lookup_insert_ne.
Qed.

Lemma index_links_snoc (links : list link) (l : link) :
  index_links (links ++ [l])
  = (append_link (fst (index_links links)) (snd l) l,
     append_link (snd (index_links links)) (fst l) l).
Proof. unfold index_links. by rewrite fold_left_app. Qed.

Lemma filter_snoc {A : Type} (f : A -> bool) (l : list A) (x : A) :
  List.filter f (l ++ [x]) = List.filter f l ++ (if f x then [x] else []).
Proof. rewrite List.filter_app. cbn. by destruct (f x). Qed.

(** [incoming_links.get(node, [])] are the links that end at [node], and
    [outgoing_links.get(node, [])] the links that start at it, both in the
    order of [model.links]. *)
Lemma get_incoming_links (links : list link) (node : string) :
  get (incoming_links links) node
  = List.filter (fun l => String.eqb (snd l) node) links.
Proof.
  unfold incoming_links.
  induction links as [|l links IH] using rev_ind; [done|].
  rewrite index_links_snoc, filter_snoc. cbn [fst].
  rewrite get_append_link, String.eqb_sym.
  destruct (String.eqb_spec (snd l) node) as [<-|_].
  - by rewrite IH.
  - by rewrite IH, app_nil_r.
Qed.

Lemma get_outgoing_links (links : list link) (node : string) :
  get (outgoing_links links) node
  = List.filter (fun l => String.eqb (fst l) node) links.
Proof.
  unfold outgoing_links.
  induction links as [|l links IH] using rev_ind; [done|].
  rewrite index_links_snoc, filter_snoc. cbn [snd].
  rewrite get_append_link, String.eqb_sym.
  destruct (String.eqb_spec (fst l) node) as [<-|_].
  - by rewrite IH.
  - by rewrite IH, app_nil_r.
Qed.

(** *** Mass balance *)

(** The flows of the links into a node and out of it, in a month. *)
Definition WAJ_inflows (p : WAJ.params) (a : WAJ.assignment) (node : string)
    (month : Z) : list Q :=
  List.map (fun l => WAJ.var_Q a (fst l) (snd l) month)
    (List.filter (fun l => String.eqb (snd l) node) (WAJ.links p)).

Definition WAJ_outflows (p : WAJ.params) (a : WAJ.assignment) (node : string)
    (month : Z) : list Q :=
  List.map (fun l => WAJ.var_Q a (fst l) (snd l) month)
    (List.filter (fun l => String.eqb (fst l) node) (WAJ.links p)).

(** In the JVA model a flow arrives reduced by the share
    [cost * 0.000006 * jva_nrw_factor] that is lost on the link. *)
Definition JVA_net_inflows (p : JVA.params) (a : JVA.assignment)
    (node : string) (month : Z) : list Q :=
  List.map
    (fun l =>
       JVA.var_Q a (fst l) (snd l) month
       - JVA.var_Q a (fst l) (snd l) month * JVA.cost p l * (6 # 1000000)
         * JVA.jva_nrw_factor p)
    (List.filter (fun l => String.eqb (snd l) node) (JVA.links p)).

Definition JVA_inflows (p : JVA.params) (a : JVA.assignment) (node : string)
    (month : Z) : list Q :=
  List.map (fun l => JVA.var_Q a (fst l) (snd l) month)
    (List.filter (fun l => String.eqb (snd l) node) (JVA.links p)).

Definition JVA_outflows (p : JVA.params) (a : JVA.assignment) (node : string)
    (month : Z) : list Q :=
  List.map (fun l => JVA.var_Q a (fst l) (snd l) month)
    (List.filter (fun l => String.eqb (fst l) node) (JVA.links p)).

(** The balance in the words of the specification: total link inflow +
    exogenous inflow + extraction + signed deficit - total link outflow -
    delivered demand - exogenous scheduled outflow. *)
Definition spec_mass_balance
    (inflow_total exogenous_inflow extraction deficit
     outflow_total delivery exogenous_outflow : Q) : Q :=
  inflow_total + exogenous_inflow + extraction + deficit
  - outflow_total - delivery - exogenous_outflow.

(** The nodes whose names the loop of [get_allocation_model] appends to
    [non_storage_nodes]: those that are neither reservoirs nor farm
    agents. *)
Definition JVA_non_storage (n : JVA.Model.node) : Prop :=
  JVA.Model.component_type n <> "Reservoir" /\
  JVA.Model.component_type n <> "JVFarmAgentSimple" /\
  JVA.Model.component_type n <> "JVFarmAgent".

Lemma sort_node_non_storage (nodes : list JVA.Model.node)
    (s s' : list string * list string * gmap string Q * gmap string Q)
    (nm : string) :
  for_each nodes JVA.sort_node s = Ok s' ->
  In nm (snd (fst (fst s'))) <->
  In nm (snd (fst (fst s))) \/
  exists n, In n nodes /\ JVA.Model.name n = nm /\ JVA_non_storage n.
Proof.
  revert s. induction nodes as [|res nodes IH]; intros s Hrun.
  - cbn in Hrun. injection Hrun as <-. split; [by left|].
    by intros [H|(n & [] & _)].
  - cbn [for_each] in Hrun.
    destruct (JVA.sort_node s res) as [s1|] eqn:E1; [|discriminate].
    cbn [mbind result_bind] in Hrun. rewrite (IH s1 Hrun). clear IH Hrun.
    destruct s as [[[st nst] ms] mr]. unfold JVA.sort_node in E1.
    unfold JVA_non_storage, JVA.not_farm_agent in *.
    destruct (String.eqb_spec (JVA.Model.component_type res) "Reservoir")
      as [Hr|Hr].
    + destruct (JVA.Model.res_properties res !! "live_storage_capacity");
        [|discriminate].
      destruct (JVA.Model.res_properties res !! "max_release");
        [|discriminate].
      injection E1 as <-. cbn [fst snd]. split.
      * intros [H|(n & Hn & H)]; [by left|]. right. exists n.
        split; [by right|done].
      * intros [H|(n & [<-|Hn] & Hnm & H)]; [by left| |].
        -- by destruct H as [H _].
        -- right. by exists n.
    + destruct (String.eqb_spec (JVA.Model.component_type res)
                  "JVFarmAgentSimple") as [Hs|Hs]; cbn [negb andb] in E1.
      * injection E1 as <-. cbn [fst snd]. split.
        -- intros [H|(n & Hn & H)]; [by left|]. right. exists n.
           split; [by right|done].
        -- intros [H|(n & [<-|Hn] & Hnm & H)]; [by left| |].
           ++ by destruct H as (_ & H & _).
           ++ right. by exists n.
      * destruct (String.eqb_spec (JVA.Model.component_type res)
                    "JVFarmAgent") as [Hf|Hf]; cbn [negb] in E1;
          injection E1 as <-; cbn [fst snd].
        -- split.
           ++ intros [H|(n & Hn & H)]; [by left|]. right. exists n.
              split; [by right|done].
           ++ intros [H|(n & [<-|Hn] & Hnm & H)]; [by left| |].
              ** by destruct H as (_ & _ & H).
              ** right. by exists n.
        -- rewrite in_app_iff. cbn [In]. split.
           ++ intros [[H|[H|[]]]|(n & Hn & H)].
              ** by left.
              ** right. exists res. split; [by left|done].
              ** right. exists n. split; [by right|done].
           ++ intros [H|(n & [<-|Hn] & Hnm & H)].
              ** left. by left.
              ** left. right. by left.
              ** right. by exists n.
Qed.

(** C2 (as amended). The model that [WAJ.set_allocation_forecast] builds
    has, for every node of its set [demand_nodes] and every month 1..12,
    the equality constraint
    [link inflow + extraction + deficit - link outflow - demand = 0]. The
    model that [JVA.set_allocation_forecast] builds has, for every node of
    its set [non_storage_nodes] and every remaining month, the equality
    constraint
    [net link inflow + inflow - link outflow - delivery - exog_outflow = 0],
    where every incoming flow counts net of the loss on its link. Every
    assignment that is feasible for these constraints satisfies the
    balance at each such node and month. The set [non_storage_nodes] that
    [get_allocation_model] creates holds the names of the nodes of the JVA
    whose component type is none of 'Reservoir', 'JVFarmAgentSimple' and
    'JVFarmAgent'. *)
Theorem mass_balance_constraints :
  (forall (p : WAJ.params) (node : string) (month : Z),
     In node (WAJ.demand_nodes p) -> (1 <= month <= 12)%Z ->
     In ((node, month), WAJ.mass_balance_demand p node month)
        (WAJ.mass_balance_demand_const p) /\
     rel (WAJ.mass_balance_demand p node month) = EQ /\
     forall a,
       feasible a (WAJ.mass_balance_demand_const p) ->
       sum (WAJ_inflows p a node month) + WAJ.var_P a node month
       + WAJ.var_deficit a node month
       - sum (WAJ_outflows p a node month) - WAJ.demand p node month == 0) /\
  (forall (p : JVA.params) (rem_months : list Z) (node : string) (month : Z),
     In node (JVA.non_storage_nodes p) -> In month rem_months ->
     In ((node, month), JVA.m_mass_balance_demand p node month)
        (JVA.m_mass_balance_demand_const p rem_months) /\
     rel (JVA.m_mass_balance_demand p node month) = EQ /\
     forall a,
       feasible a (JVA.m_mass_balance_demand_const p rem_months) ->
       sum (JVA_net_inflows p a node month) + JVA.inflow p node month
       - sum (JVA_outflows p a node month) - JVA.var_delivery a node month
       - JVA.exog_outflow p node month == 0) /\
  (forall (nodes : list JVA.Model.node) (links : list JVA.Model.link)
          (model : JVA.Model.sets) (node : string),
     JVA.get_allocation_model None nodes links = Ok model ->
     In node (JVA.Model.non_storage_nodes model) <->
     exists n,
       In n nodes /\ JVA.Model.name n = node /\ JVA_non_storage n).
Proof.
  split; [|split].
  - intros p node month Hn Hm.
    assert (Hin : In ((node, month), WAJ.mass_balance_demand p node month)
                     (WAJ.mass_balance_demand_const p)).
    { apply In_Constraint; [done| |done]. apply In_range. lia. }
    split; [done|]. split; [done|]. intros a Hf.
    specialize (Hf _ Hin). unfold satisfies in Hf. cbn in Hf.
    rewrite get_incoming_links, get_outgoing_links in Hf.
    unfold WAJ_inflows, WAJ_outflows. rewrite <- Hf. ring.
  - intros p rem node month Hn Hm.
    assert (Hin : In ((node, month), JVA.m_mass_balance_demand p node month)
                     (JVA.m_mass_balance_demand_const p rem)).
    { by apply In_Constraint. }
    split; [done|]. split; [done|]. intros a Hf.
    specialize (Hf _ Hin). unfold satisfies in Hf. cbn in Hf.
    unfold JVA.net_inflows in Hf.
    rewrite get_incoming_links, get_outgoing_links in Hf.
    unfold JVA_net_inflows, JVA_outflows. rewrite <- Hf. ring.
  - intros nodes links model node. unfold JVA.get_allocation_model.
    destruct (for_each nodes JVA.sort_node ([], [], ∅, ∅))
      as [[[[st nst] ms] mr]|] eqn:E; [|discriminate].
    cbn [mbind result_bind]. intros [= <-]. cbn [JVA.Model.non_storage_nodes].
    rewrite (sort_node_non_storage nodes _ _ node E). cbn [fst snd In].
    split; [by intros [[]|H]|by right].
Qed.

(** A WAJ model with one link, from the junction 'zai' to the demand node
    'amman', whose demand is 10 in every month, and the assignment that
    sends 6 over the link, extracts 3 at 'amman' and leaves a deficit of
    1. *)
Definition zai_amman : WAJ.params :=
  {| WAJ.links := [("zai", "amman")];
     WAJ.nodes := ["zai"; "amman"];
     WAJ.demand_nodes := ["amman"];
     WAJ.non_demand_nodes := ["zai"];
     WAJ.demand := fun _ _ => 10 |}.

Definition six_three_one : WAJ.assignment :=
  {| WAJ.var_Q := fun _ _ _ => 6;
     WAJ.var_P := fun node _ => if String.eqb node "amman" then 3 else 0;
     WAJ.var_deficit := fun _ _ => 1 |}.

Lemma six_three_one_feasible :
  feasible six_three_one (WAJ.mass_balance_demand_const zai_amman).
Proof.
  intros ic (i & j & Hi & _ & [= <-] & _)%In_Constraint_inv.
  destruct Hi as [<-|[]]. unfold satisfies.
  cbn -[incoming_links outgoing_links].
  rewrite get_incoming_links, get_outgoing_links. reflexivity.
Qed.

(** C2 (as amended) at 'amman' in January. *)
Lemma mass_balance_constraints_witness :
  sum (WAJ_inflows zai_amman six_three_one "amman" 1)
  + WAJ.var_P six_three_one "amman" 1 + WAJ.var_deficit six_three_one "amman" 1
  - sum (WAJ_outflows zai_amman six_three_one "amman" 1)
  - WAJ.demand zai_amman "amman" 1 == 0.
Proof.
  apply (proj1 mass_balance_constraints zai_amman "amman" 1%Z).
  - simpl. by left.
  - lia.
  - exact six_three_one_feasible.
Defined.

(** A JVA model in November with one link, from 'kac_1' to 'kac_7', on
    which 60 percent of the flow is lost (cost 100000, factor 1): 10 flow
    into 'kac_1' and leave it over the link, 4 arrive at 'kac_7' and leave
    it as exogenous outflow. *)
Definition kac_link : JVA.params :=
  {| JVA.links := [("kac_1", "kac_7")];
     JVA.non_storage_nodes := ["kac_1"; "kac_7"];
     JVA.storage_nodes := [];
     JVA.cost := fun _ => 100000;
     JVA.inflow := fun node _ => if String.eqb node "kac_1" then 10 else 0;
     JVA.evap := fun _ _ => 0;
     JVA.seepage := fun _ _ => 0;
     JVA.exog_outflow := fun node _ => if String.eqb node "kac_7" then 4 else 0;
     JVA.demand := fun _ _ => 0;
     JVA.model_initial_storage := fun _ => 0;
     JVA.jva_nrw_factor := 1 |}.

Definition ten_over_the_link : JVA.assignment :=
  {| JVA.var_Q := fun _ _ _ => 10;
     JVA.var_delivery := fun _ _ => 0;
     JVA.var_release := fun _ _ => 0;
     JVA.var_storage := fun _ _ => 0;
     JVA.var_storage_plus := fun _ _ => 0;
     JVA.var_storage_minus := fun _ _ => 0 |}.

(** C2 (as stated) fails. The assignment satisfies the mass balance and the
    delivery bound of the JVA model at both nodes (the model has no
    reservoir and no farm demand node, so that its other constraints are
    empty), and at 'kac_7' the balance of the statement, with the total
    link inflow of 10, is 6 and not 0. *)
Lemma mass_balance_counterexample :
  JVA.rem_months 11 = [11%Z] /\
  feasible ten_over_the_link (JVA.m_mass_balance_demand_const kac_link [11%Z]) /\
  feasible ten_over_the_link (JVA.delivery_capacity_const kac_link [11%Z]) /\
  spec_mass_balance
    (sum (JVA_inflows kac_link ten_over_the_link "kac_7" 11))
    (JVA.inflow kac_link "kac_7" 11) 0 0
    (sum (JVA_outflows kac_link ten_over_the_link "kac_7" 11))
    (JVA.var_delivery ten_over_the_link "kac_7" 11)
    (JVA.exog_outflow kac_link "kac_7" 11) == 6 /\
  ~ spec_mass_balance
      (sum (JVA_inflows kac_link ten_over_the_link "kac_7" 11))
      (JVA.inflow kac_link "kac_7" 11) 0 0
      (sum (JVA_outflows kac_link ten_over_the_link "kac_7" 11))
      (JVA.var_delivery ten_over_the_link "kac_7" 11)
      (JVA.exog_outflow kac_link "kac_7" 11) == 0.
Proof.
  split; [reflexivity|]. split; [|split].
  - intros ic (i & j & Hi & _ & [= <-] & _)%In_Constraint_inv.
    unfold satisfies. cbn -[incoming_links outgoing_links].
    rewrite get_incoming_links, get_outgoing_links.
    destruct Hi as [<-|[<-|[]]]; reflexivity.
  - intros ic (i & j & Hi & _ & [= <-] & _)%In_Constraint_inv.
    unfold satisfies. cbn. discriminate.
  - split; [reflexivity|discriminate].
Qed.

(** *** The storage anchor *)

Lemma last_Ok {A : Type} (l : list A) :
  l <> [] -> exists x, Py.last l = Ok x.
Proof.
  intros Hl. unfold Py.last. destruct (List.rev l) as [|x r] eqn:E; [|eauto].
  apply (f_equal (@List.rev A)) in E. rewrite List.rev_involutive in E.
  done.
Qed.

(** The value that the anchor is pinned to: the volume of the node at the
    first timestep; at the second timestep the volume less the release
    recorded last plus a fixed first inflow ([first_inflow]); from the third
    timestep on the volume recorded last. *)
Definition tracked_storage (idx : nat) (first_inflow : Q) (res : Reservoir.node)
    (s0 : Q) : Prop :=
  (idx = 0%nat -> s0 = Reservoir.volume res) /\
  (idx = 1%nat ->
   exists release,
     Py.last (Reservoir.release_history res) = Ok release /\
     s0 = Reservoir.volume res - release + first_inflow) /\
  ((2 <= idx)%nat -> Py.last (Reservoir.volume_history res) = Ok s0).

(** The histories of a node at the timestep [idx]: one entry for each
    earlier timestep. *)
Definition recorded (idx : nat) (res : Reservoir.node) : Prop :=
  length (Reservoir.release_history res) = idx /\
  length (Reservoir.volume_history res) = idx.

Lemma CWA_initial_storage_Ok (idx : nat) (res : Reservoir.node) :
  recorded idx res ->
  exists s0, CWA.initial_storage idx res = Ok s0 /\
             tracked_storage idx 1145846 res s0.
Proof.
  intros [Hr Hv]. unfold CWA.initial_storage, tracked_storage.
  destruct idx as [|[|idx]].
  - eexists. split; [reflexivity|]. repeat split; (done || lia).
  - destruct (last_Ok (Reservoir.release_history res)) as [r Er];
      [intros E; by rewrite E in Hr|].
    rewrite Er. cbn. eexists. split; [reflexivity|].
    repeat split; (done || lia || eauto).
  - destruct (last_Ok (Reservoir.volume_history res)) as [v Ev];
      [intros E; by rewrite E in Hv|].
    rewrite Ev. eexists. split; [reflexivity|].
    repeat split; (done || lia).
Qed.

Lemma JVA_initial_storage_Ok (idx : nat) (res_inflow_initial : string -> Q)
    (res : Reservoir.node) :
  recorded idx res ->
  exists s0, JVA.initial_storage idx res_inflow_initial res = Ok s0 /\
             tracked_storage idx (res_inflow_initial (Reservoir.name res))
               res s0.
Proof.
  intros [Hr Hv]. unfold JVA.initial_storage, tracked_storage.
  destruct idx as [|[|idx]].
  - eexists. split; [reflexivity|]. repeat split; (done || lia).
  - destruct (last_Ok (Reservoir.release_history res)) as [r Er];
      [intros E; by rewrite E in Hr|].
    rewrite Er. cbn. eexists. split; [reflexivity|].
    repeat split; (done || lia || eauto).
  - destruct (last_Ok (Reservoir.volume_history res)) as [v Ev];
      [intros E; by rewrite E in Hv|].
    rewrite Ev. eexists. split; [reflexivity|].
    repeat split; (done || lia).
Qed.

(** C5 (as amended). In every period, for every storage node of the CWA
    model and of the JVA model, the storage balance at the current month,
    which is the first month of the horizon, is the equality of the storage
    variable with the parameter [initial_storage] of the node, with no
    other variable in it; so every feasible assignment has exactly this
    storage at the anchor. The parameter is the storage that the
    institution tracks: the volume of the node at the first timestep, the
    volume less the last release plus a fixed first inflow at the second
    timestep, and the volume recorded last from the third timestep on. *)
Theorem storage_anchor (idx : nat) (month : Z) (res : Reservoir.node) :
  (1 <= month <= 12)%Z -> recorded idx res ->
  (exists s0 rem_months,
     CWA.initial_storage idx res = Ok s0 /\
     tracked_storage idx 1145846 res s0 /\
     CWA.rem_months month = Ok rem_months /\
     head rem_months = Some month /\
     forall p node,
       In node CWA.storage_node ->
       CWA.model_initial_storage p node = s0 ->
       let c := CWA.res_balance_storage month p node month in
       In ((node, month), c)
          (CWA.res_balance_storage_const month p rem_months) /\
       rel c = EQ /\
       (forall a, lhs c a = CWA.var_storage a node month /\ rhs c a = s0) /\
       forall a,
         feasible a (CWA.res_balance_storage_const month p rem_months) ->
         CWA.var_storage a node month == s0) /\
  (forall res_inflow_initial,
   exists s0,
     JVA.initial_storage idx res_inflow_initial res = Ok s0 /\
     tracked_storage idx (res_inflow_initial (Reservoir.name res)) res s0 /\
     head (JVA.rem_months month) = Some month /\
     forall p,
       In (Reservoir.name res) (JVA.storage_nodes p) ->
       JVA.model_initial_storage p (Reservoir.name res) = s0 ->
       let node := Reservoir.name res in
       let c := JVA.res_balance_storage month p node month in
       In ((node, month), c)
          (JVA.res_balance_storage_const month p (JVA.rem_months month)) /\
       rel c = EQ /\
       (forall a, lhs c a = JVA.var_storage a node month /\ rhs c a = s0) /\
       forall a,
         feasible a
           (JVA.res_balance_storage_const month p (JVA.rem_months month)) ->
         JVA.var_storage a node month == s0).
Proof.
  intros Hm Hrec. split.
  - destruct (CWA_initial_storage_Ok idx res Hrec) as (s0 & Es & Ht).
    exists s0. eexists. split; [done|]. split; [done|].
    split; [by apply HorizonFacts.CWA_rem_months_Ok|].
    split; [by rewrite (range_cons month 13) by lia|].
    intros p node Hn Hp c.
    assert (Ec : c = {| lhs := fun a => CWA.var_storage a node month;
                        rel := EQ;
                        rhs := fun _ => CWA.model_initial_storage p node |}).
    { unfold c, CWA.res_balance_storage. by rewrite Z.eqb_refl. }
    assert (Hin : In ((node, month), c)
      (CWA.res_balance_storage_const month p
         (range month 13
          ++ List.map (fun k : Z => (k + 1)%Z) (range 0 (month - 1))))).
    { apply In_Constraint; [done| |done].
      apply in_app_iff. left. apply In_range. lia. }
    split; [done|]. rewrite Ec. split; [done|]. split; [by rewrite Hp|].
    intros a Hf. specialize (Hf _ Hin). rewrite Ec in Hf.
    unfold satisfies in Hf. cbn in Hf. by rewrite <- Hp.
  - intros rii.
    destruct (JVA_initial_storage_Ok idx rii res Hrec) as (s0 & Es & Ht).
    exists s0. split; [done|]. split; [done|].
    split.
    { unfold JVA.rem_months. destruct (Z.eqb_spec month 12) as [->|E];
        [done|]. by rewrite (range_cons month 12) by lia. }
    intros p Hn Hp node c. set (n := Reservoir.name res) in *.
    subst node.
    assert (Ec : c = {| lhs := fun a => JVA.var_storage a n month;
                        rel := EQ;
                        rhs := fun _ => JVA.model_initial_storage p n |}).
    { unfold c, JVA.res_balance_storage. by rewrite Z.eqb_refl. }
    assert (Hin : In ((n, month), c)
      (JVA.res_balance_storage_const month p (JVA.rem_months month))).
    { apply In_Constraint; [done| |done].
      apply HorizonFacts.In_JVA_rem_months; lia. }
    split; [done|]. rewrite Ec. split; [done|]. split; [by rewrite Hp|].
    intros a Hf. specialize (Hf _ Hin). rewrite Ec in Hf.
    unfold satisfies in Hf. cbn in Hf. by rewrite <- Hp.
Qed.

(** The reservoir at the second timestep: it holds 100, and the release of
    the first timestep was 30. *)
Definition second_timestep : Reservoir.node :=
  {| Reservoir.name := "wehdah_res";
     Reservoir.volume := 100;
     Reservoir.release_history := [30];
     Reservoir.volume_history := [100] |}.

(** C5 (as amended) at the second timestep, in February. *)
Lemma storage_anchor_witness :
  exists s0 rem_months,
    CWA.initial_storage 1 second_timestep = Ok s0 /\
    tracked_storage 1 1145846 second_timestep s0 /\
    CWA.rem_months 2 = Ok rem_months /\
    head rem_months = Some 2%Z /\
    forall p node,
      In node CWA.storage_node ->
      CWA.model_initial_storage p node = s0 ->
      let c := CWA.res_balance_storage 2 p node 2 in
      In ((node, 2%Z), c) (CWA.res_balance_storage_const 2 p rem_months) /\
      rel c = EQ /\
      (forall a, lhs c a = CWA.var_storage a node 2 /\ rhs c a = s0) /\
      forall a,
        feasible a (CWA.res_balance_storage_const 2 p rem_months) ->
        CWA.var_storage a node 2 == s0.
Proof.
  apply (storage_anchor 1 2 second_timestep); [lia|].
  split; reflexivity.
Defined.

(** C5 (as stated) fails. At the second timestep the anchor of the CWA
    model is pinned to [100 - 30 + 1145846 = 1145916], which is neither the
    volume of the node, 100, nor a volume recorded earlier: an assignment
    that stores the observed 100 at the anchor violates the constraint. *)
Lemma storage_anchor_counterexample :
  let p := {| CWA.inflow := fun _ _ => 0;
              CWA.evap := fun _ _ => 0;
              CWA.model_initial_storage := fun _ => 100 - 30 + 1145846 |} in
  let observed := {| CWA.var_release := fun _ _ => 0;
                     CWA.var_storage := fun _ _ => 100;
                     CWA.var_spill := fun _ _ => 0 |} in
  CWA.initial_storage 1 second_timestep = Ok (100 - 30 + 1145846) /\
  ~ (100 - 30 + 1145846 == Reservoir.volume second_timestep) /\
  CWA.var_storage observed "wehdah_res" 2 = Reservoir.volume second_timestep /\
  ~ satisfies observed (CWA.res_balance_storage 2 p "wehdah_res" 2).
Proof.
  repeat split; try reflexivity; vm_compute; discriminate.
Qed.

End AllocationModelFacts.

(** ** ResponseMatrix *)

Module GWResponseFacts.

Import Groundwater GWResponseEngine.
Local Open Scope Q_scope.

(** The stored head rows of the nodes agree with the head array of the
    engine. [network_setup] establishes this ([head_calc] and [head] both
    start as [baseline_heads]) and step 4 of [run] re-establishes it. *)
Definition coherent (e : engine) (nodes : list node) : Prop :=
  forall i, In i nodes ->
    forall s, head_calc i s == head e (matrix_position i) s.

(** The nodes that [run] can process without an exception: every row is
    inside the array, and the node that '130104_urb_02' borrows pumping
    from can be looked up. *)
Definition processable (get_node : string -> option node) (nodes : list node)
  : Prop :=
  forall i, In i nodes ->
    (matrix_position i < nloc)%nat /\
    (name i = "130104_urb_02"%string ->
     is_Some (get_node "130104_urb_01"%string)).

Section Facts.

Variable dd : nat -> nat -> nat -> Q.
Variable gw_response_factor : Q.
Variable get_node : string -> option node.

Lemma consolidate_head (e e' : engine) (i : node) :
  consolidate get_node e i = Ok e' ->
  head e' = set_row (head e) (matrix_position i) (head_calc i).
Proof.
  unfold consolidate.
  destruct (nloc <=? matrix_position i)%nat; [discriminate|].
  destruct (String.eqb (name i) "210401_ag_02");
    destruct (String.eqb (name i) "130104_urb_01");
    destruct (String.eqb (name i) "130104_urb_02");
    destruct (get_node "130104_urb_01");
    destruct (String.eqb (name i) "330103_ag_01");
    cbn; intros H; inversion H; reflexivity.
Qed.

Lemma consolidate_Ok (e : engine) (i : node) :
  (matrix_position i < nloc)%nat ->
  (name i = "130104_urb_02"%string ->
   is_Some (get_node "130104_urb_01"%string)) ->
  exists e', consolidate get_node e i = Ok e'.
Proof.
  intros Hrow Hget. unfold consolidate.
  destruct (Nat.leb_spec nloc (matrix_position i)) as [Hge|_]; [lia|].
  destruct (String.eqb_spec (name i) "130104_urb_02") as [E|_].
  - destruct (Hget E) as [u ->]. cbn. eauto.
  - cbn. eauto.
Qed.

Lemma consolidate_all_Ok (nodes : list node) :
  processable get_node nodes ->
  forall e, exists e', consolidate_all get_node e nodes = Ok e'.
Proof.
  induction nodes as [|i rest IH]; intros Hp e; cbn; [eauto|].
  destruct (consolidate_Ok e i) as [e1 ->]; try apply Hp; [by left..|].
  cbn. apply IH. intros k Hk. apply Hp. by right.
Qed.

(** Step 1 copies rows that are already in the array: it does not change
    the head array when the nodes are coherent with it. *)
Lemma consolidate_all_head (nodes : list node) :
  forall e e',
    coherent e nodes ->
    consolidate_all get_node e nodes = Ok e' ->
    forall j s, head e' j s == head e j s.
Proof.
  induction nodes as [|i rest IH]; intros e e' Hc; cbn.
  - intros [= <-] j s. reflexivity.
  - destruct (consolidate get_node e i) as [e1|] eqn:E1; [|discriminate].
    cbn. intros Hrest j s.
    pose proof (consolidate_head _ _ _ E1) as Hh.
    assert (H1 : forall j s, head e1 j s == head e j s).
    { intros j' s'. rewrite Hh. unfold set_row.
      destruct (Nat.eqb_spec j' (matrix_position i)) as [->|_];
        [|reflexivity].
      apply Hc. by left. }
    rewrite (IH e1 e'); [apply H1| |done].
    intros k Hk s'. rewrite H1. apply Hc. by right.
Qed.


(** Step 4 re-establishes coherence, whatever the state before the run. *)
Lemma run_coherent (idx : nat) (e e' : engine) (nodes nodes' : list node) :
  run dd gw_response_factor get_node idx e nodes = Ok (e', nodes') ->
  coherent e' nodes'.
Proof.
  unfold run.
  destruct (consolidate_all get_node e nodes) as [e1|]; [|discriminate].
  cbn. intros [= <- <-] i (i0 & <- & _)%in_map_iff s. reflexivity.
Qed.


End Facts.


(** *** The single-coefficient scenario *)

(** A unit-response tensor whose only nonzero coefficient is -0.5, at lag 0,
    for the response of location [r] to pumping at [r] itself. *)
Definition single_response (r : nat) : nat -> nat -> nat -> Q :=
  fun i j k =>
    if Nat.eqb i r && Nat.eqb j r && Nat.eqb k 0 then - (1 # 2) else 0.

(** The self-pumping node: baseline pumping 10, actual pumping 12. *)
Definition self_pumping_node (r : nat) (row : nat -> Q) : node :=
  {| name := "well";
     Groundwater.pumping := 12;
     matrix_position := r;
     baseline_pumping := 10;
     head_calc := row |}.

(** The engine before its first use: [head] is the baseline, [pumping] is
    [np.zeros]. *)
Definition fresh_engine (baseline : nat -> nat -> Q) : engine :=
  {| head := baseline; pumping := fun _ => 0 |}.

Lemma einsum_sum_zero (n : nat) (f : nat -> Q) :
  (forall i, (i < n)%nat -> f i == 0) -> einsum_sum n f == 0.
Proof.
  unfold einsum_sum. intros Hf.
  assert (H : forall i, In i (seq 0 n) -> f i == 0).
  { intros i Hi%in_seq. apply Hf. lia. }
  clear Hf. induction (seq 0 n) as [|i l IH]; cbn; [reflexivity|].
  rewrite (H i) by (by left). rewrite IH; [ring|].
  intros k Hk. apply H. by right.
Qed.

Lemma einsum_sum_single (n r : nat) (f : nat -> Q) :
  (r < n)%nat ->
  (forall i, i <> r -> f i == 0) ->
  einsum_sum n f == f r.
Proof.
  unfold einsum_sum. intros Hr Hf.
  assert (Hin : In r (seq 0 n)) by (apply in_seq; lia).
  pose proof (seq_NoDup n 0) as Hnd.
  induction (seq 0 n) as [|i l IH]; cbn; [done|].
  inversion Hnd as [|? ? Hni Hnd']; subst.
  destruct Hin as [->|Hin].
  - assert (H0 : fold_right (fun i acc => f i + acc) 0 l == 0).
    { clear IH Hnd Hnd'. induction l as [|k l IHl]; cbn; [reflexivity|].
      rewrite Hf, IHl; [ring|..].
      - intros Hr'. apply Hni. by right.
      - intros ->. apply Hni. by left. }
    rewrite H0. ring.
  - rewrite Hf, IH by (done || (intros ->; done)). ring.
Qed.

Lemma single_response_einsum (r : nat) (f : Q) (pumping : nat -> Q)
    (j k : nat) :
  (r < nloc)%nat ->
  einsum (single_response r) f pumping j k ==
    if Nat.eqb j r && Nat.eqb k 0 then - (1 # 2) * (pumping r * f) else 0.
Proof.
  intros Hr. unfold einsum.
  destruct (Nat.eqb j r && Nat.eqb k 0) eqn:E.
  - rewrite (einsum_sum_single nloc r) by
      (done || (intros i Hi; unfold single_response;
                apply Nat.eqb_neq in Hi; rewrite Hi; cbn; ring)).
    unfold single_response. rewrite Nat.eqb_refl. cbn [andb].
    rewrite E. reflexivity.
  - apply einsum_sum_zero. intros i _. unfold single_response.
    rewrite <- andb_assoc, E, andb_false_r. ring.
Qed.

(** C7 (as amended). In the single-coefficient scenario the pumping
    deviation is scaled to 200 unit multiples, and one run of the engine
    changes the head of the current month by
    [-1.0 * (-0.5) * 200 * gw_response_factor], that is, it raises it by
    [0.5 * 200 = 100] times the response factor: the engine subtracts the
    response, which it treats as a drawdown. Every other head entry, and so
    every prior month, keeps its baseline value, and the new row is written
    back to the node. *)
Theorem single_coefficient_scenario (r idx : nat) (f : Q)
    (baseline : nat -> nat -> Q) :
  (r < nloc)%nat -> (idx < ntime)%nat ->
  exists e' i',
    run (single_response r) f (fun _ => None) idx (fresh_engine baseline)
        [self_pumping_node r (baseline r)] = Ok (e', [i']) /\
    pumping e' r == 200 /\
    head e' r idx == baseline r idx + (1 # 2) * 200 * f /\
    (forall j k, (j <> r \/ k <> idx) -> head e' j k == baseline j k) /\
    head_calc i' = head e' r.
Proof.
  intros Hr Hidx. unfold run. cbn [consolidate_all].
  unfold consolidate. cbn [matrix_position self_pumping_node name].
  destruct (Nat.leb_spec nloc r) as [Hge|_]; [lia|].
  cbn -[addhead Qdiv Qminus]. eexists _, _. split; [reflexivity|].
  assert (Hp : set_row (fun _ : nat => 0) r ((12 - 10) / (1 # 100)) r == 200).
  { unfold set_row. rewrite Nat.eqb_refl. reflexivity. }
  assert (Hb : forall j k, set_row baseline r (baseline r) j k = baseline j k).
  { intros j k. unfold set_row. by destruct (Nat.eqb_spec j r) as [->|_]. }
  assert (Hadd : forall j k,
    addhead (single_response r) f (idx + 1)
      (set_row (fun _ : nat => 0) r ((12 - 10) / (1 # 100))) j k
    == if Nat.eqb j r && Nat.eqb k idx then (1 # 2) * 200 * f else 0).
  { intros j k. unfold addhead.
    destruct (Nat.eqb_spec (idx + 1) 1) as [E1|E1].
    - assert (idx = 0)%nat as -> by lia.
      rewrite single_response_einsum by done.
      destruct (Nat.eqb j r && Nat.eqb k 0); [rewrite Hp|]; ring.
    - replace (idx + 1 - 1)%nat with idx by lia.
      destruct (Nat.ltb_spec k idx) as [Hlt|Hge].
      + destruct (Nat.eqb_spec k idx); [lia|]. by rewrite andb_false_r.
      + rewrite single_response_einsum by done.
        destruct (Nat.eqb_spec (k - idx) 0) as [E|E];
          destruct (Nat.eqb_spec k idx) as [E'|E']; try lia;
          destruct (Nat.eqb j r); cbn [andb]; try rewrite Hp; ring. }
  split; [exact Hp|]. split; [|split; [|reflexivity]].
  - cbn [head]. rewrite Hb, Hadd, !Nat.eqb_refl. reflexivity.
  - intros j k Hjk. cbn [head]. rewrite Hb, Hadd.
    destruct (Nat.eqb_spec j r) as [->|_]; cbn [andb]; [|ring].
    destruct (Nat.eqb_spec k idx) as [->|_]; [|ring].
    destruct Hjk; done.
Qed.

(** C7 at a concrete input: row 0, third month, response factor 1. *)
Lemma single_coefficient_scenario_witness :
  exists e' i',
    run (single_response 0) 1 (fun _ => None) 2 (fresh_engine (fun _ _ => 500))
        [self_pumping_node 0 (fun _ => 500)] = Ok (e', [i']) /\
    pumping e' 0%nat == 200 /\
    head e' 0%nat 2%nat == 500 + (1 # 2) * 200 * 1 /\
    (forall j k, (j <> 0%nat \/ k <> 2%nat) -> head e' j k == 500) /\
    head_calc i' = head e' 0%nat.
Proof.
  apply (single_coefficient_scenario 0 2 1 (fun _ _ => 500));
    vm_compute; lia.
Defined.

(** C7 (as stated) fails. With baseline head 500 in every month, response
    factor 1 and the run of the third month, the head of that month becomes
    600: it is raised by 100, not reduced by 100 to 400. *)
Lemma single_coefficient_counterexample :
  match run (single_response 0) 1 (fun _ => None) 2
            (fresh_engine (fun _ _ => 500))
            [self_pumping_node 0 (fun _ => 500)] with
  | Ok (e', _) =>
      head e' 0%nat 2%nat == 600 /\ ~ head e' 0%nat 2%nat == 500 - (1 # 2) * 200
  | Raise _ => False
  end.
Proof.
  vm_compute. split; [reflexivity|discriminate].
Qed.

End GWResponseFacts.

(** ** MarketClearingEngine *)

Module TankerMarketFacts.

Import Pyomo TankerMarket.
Local Open Scope Q_scope.

(** *** Sums *)







Section Facts.

Variable log : Q -> Q.
Variable max_tanker_sale_distance : Q.
Variable transport_cost_coef : Q.
Variable minimum_farm_offer_constraint : Q.
Variable road_dist : Z -> Z -> Q.

Local Abbreviation build :=
  (build log max_tanker_sale_distance transport_cost_coef
     minimum_farm_offer_constraint road_dist).
Local Abbreviation update_parameters :=
  (update_parameters log max_tanker_sale_distance transport_cost_coef
     minimum_farm_offer_constraint road_dist).

(** *** Buyers out of the market *)










(** *** The solve and its retry *)

Local Abbreviation det_tanker_market_contracts :=
  (det_tanker_market_contracts log max_tanker_sale_distance
     transport_cost_coef minimum_farm_offer_constraint road_dist).
Local Abbreviation update_agents :=
  (update_agents max_tanker_sale_distance transport_cost_coef road_dist).

(** The model [m] that a call solves and the options [opts] that the
    solver has in it: in the first period the new model and a new solver
    without options, in a later period the stored model with its parameters
    updated and the warm-start options. *)
Definition solved_in_period (st : state) (ag0 : agents) (m : Fwm.model)
    (opts : gmap string string) : Prop :=
  (is_tanker_market_first_run st = true /\ m = build ag0 /\ opts = ∅) \/
  (is_tanker_market_first_run st = false /\
   opts = warm_start_options (options st) /\
   exists m0, fwm st = Some m0 /\ update_parameters ag0 m0 = Ok m).

(** The state that a call leaves. *)
Definition cleared (m : Fwm.model) (opts : gmap string string)
    (xs : option (nat -> nat -> Q)) (status : string)
    (termination : option TerminationCondition) : state :=
  {| is_tanker_market_first_run := false;
     fwm := Some m;
     options := opts;
     result_xs := xs;
     solver_status := Some status;
     termination_condition := termination |}.

(** C8 (as amended). A call of the clearing solves the model of the period
    with ipopt and, after a [ValueError] or an [ApplicationError], solves it
    exactly once more with the same solver and the same options, nothing
    being reset in between. The purchases of the attempt that returns
    become [result_xs]. If both attempts fail and an earlier call has left
    purchases, these are kept, the agents are updated from them, the
    failure is logged, and the call returns. *)
Theorem retry_keeps_configuration (solve : oracle) (st : state) (ag : agents)
    (m : Fwm.model) (opts : gmap string string) :
  let ag0 := reset_agent_variables ag in
  let c := det_tanker_market_contracts solve st ag in
  solved_in_period st ag0 m opts ->
  (forall results xs,
     solve opts m 1%nat = Returns results xs ->
     solver_calls c = [opts] /\
     outcome_of_call c =
       Ok (cleared m opts (Some xs) "ok"
             (Some (Pyomo.termination_condition results)),
           update_agents ag0 xs)) /\
  (forall e results xs,
     solve opts m 1%nat = Raises e -> caught e = true ->
     solve opts m 2%nat = Returns results xs ->
     solver_calls c = [opts; opts] /\
     outcome_of_call c =
       Ok (cleared m opts (Some xs) "ok"
             (Some (Pyomo.termination_condition results)),
           update_agents ag0 xs)) /\
  (forall e e2 previous,
     solve opts m 1%nat = Raises e -> caught e = true ->
     solve opts m 2%nat = Raises e2 -> caught e2 = true ->
     result_xs st = Some previous ->
     solver_calls c = [opts; opts] /\
     In "Tanker water market solver did not converge ... previous results loaded"%string
        (log_lines c) /\
     outcome_of_call c =
       Ok (cleared m opts (Some previous) "ipopt failed twice"
             (termination_condition st),
           update_agents ag0 previous)).
Proof.
  intros ag0 c Hp. subst c. unfold TankerMarket.det_tanker_market_contracts.
  fold ag0.
  destruct Hp as [(-> & -> & ->)|(-> & -> & m0 & -> & ->)].
  - split; [|split].
    + intros r xs E1. unfold solve_with_retry. by rewrite E1.
    + intros e r xs E1 Hc E2. unfold solve_with_retry.
      by rewrite E1, Hc, E2.
    + intros e e2 prev E1 Hc E2 Hc2 Hprev. unfold solve_with_retry.
      rewrite E1, Hc, E2, Hc2. cbn. rewrite Hprev. cbn. auto 10.
  - split; [|split].
    + intros r xs E1. unfold solve_with_retry. by rewrite E1.
    + intros e r xs E1 Hc E2. unfold solve_with_retry.
      by rewrite E1, Hc, E2.
    + intros e e2 prev E1 Hc E2 Hc2 Hprev. unfold solve_with_retry.
      rewrite E1, Hc, E2, Hc2. cbn. rewrite Hprev. cbn. auto 10.
Qed.

(** *** The cleared prices *)





Section Prices.

(** The agents after the reset and the purchases that are loaded. *)
Variable ag0 : agents.
Variable xs : nat -> nat -> Q.

Local Abbreviation purchase := (subdist_purchase ag0 xs).
Local Abbreviation seller_price :=
  (min_subdist_price transport_cost_coef road_dist ag0).
Local Abbreviation distance := (road_distance road_dist ag0).
Local Abbreviation sellers :=
  (ds_findices max_tanker_sale_distance road_dist ag0).
Local Abbreviation price_step :=
  (price_step transport_cost_coef road_dist ag0 xs).
Local Abbreviation priced :=
  (priced max_tanker_sale_distance transport_cost_coef road_dist ag0 xs).
Local Abbreviation sales_step :=
  (sales_step transport_cost_coef road_dist ag0 xs).
Local Abbreviation buy := (buy max_tanker_sale_distance road_dist ag0 xs).
Local Abbreviation update_subdistrict :=
  (update_subdistrict max_tanker_sale_distance transport_cost_coef road_dist
     ag0 xs).



















End Prices.


End Facts.

(** *** Two towns *)

(** A market with two subdistricts and two wells. The town of subdistrict
    1 is 100 km away from both wells, which lie in subdistrict 2; tankers
    go 10 km at most. The consumer of the far town represents no units. *)
Definition household (d : nat) (units : Q) : Consumer.agent :=
  {| Consumer.subdist := d; Consumer.kind := "household";
     Consumer.represented_units := units; Consumer.piped_consumption := 1;
     Consumer.sigma := 1; Consumer.sigma2 := 1;
     Consumer.tanker_consumption := 0; Consumer.final_tanker_price := 0;
     Consumer.tanker_expenditure := 0; Consumer.expenditure := 0 |}.

Definition well (price : Q) : Farm.agent :=
  {| Farm.subdistrict := 2; Farm.is_active_in_tanker_market := true;
     Farm.tanker_offer_quantity := 30; Farm.tanker_water_price := price;
     Farm.gw_sales_to_tanker := []; Farm.gw_sale_to_tanker := 0;
     Farm.final_tanker_prices := []; Farm.final_tanker_price := 0;
     Farm.tanker_market_revenue := 0 |}.

Definition town (code : Z) : Subdist.agent :=
  {| Subdist.subdist_code := code; Subdist.tanker_price := 0;
     Subdist.max_tanker_distance := 0; Subdist.tanker_distances := [] |}.

Definition two_towns : agents :=
  {| all_farms := [well 1; well 5];
     all_subdists := [town 1; town 2];
     all_consumers := [household 0 0; household 1 1; household 1 1] |}.

Definition far_road (town_code well_subdistrict : Z) : Q :=
  if Z.eqb town_code 1 then 100000 else 0.

Definition two_towns_model : Fwm.model :=
  build (fun _ => 0) 10 1 1 far_road two_towns.




(** A later period of the two towns: an earlier call has left the
    purchases in which the second consumer buys 2 from the first well. *)
Definition two_from_first (h f : nat) : Q :=
  if Nat.eqb h 1 && Nat.eqb f 0 then 2 else 0.

Definition later_period : state :=
  {| is_tanker_market_first_run := false;
     fwm := Some two_towns_model;
     options := ∅;
     result_xs := Some two_from_first;
     solver_status := Some "ok"%string;
     termination_condition := Some optimal |}.

Definition first_period : state :=
  {| is_tanker_market_first_run := true;
     fwm := None;
     options := ∅;
     result_xs := None;
     solver_status := None;
     termination_condition := None |}.

(** A solver that fails at every attempt, and one that fails at the first
    attempt only. *)
Definition always_raises : oracle := fun _ _ _ => Raises ApplicationError.

Definition raises_once : oracle :=
  fun _ _ attempt =>
    match attempt with
    | 1%nat => Raises ValueError
    | _ => Returns {| status := ok; Pyomo.termination_condition := optimal |}
                   two_from_first
    end.

Definition later_model : Fwm.model :=
  match update_parameters (fun _ => 0) 10 1 1 far_road
          (reset_agent_variables two_towns) two_towns_model with
  | Ok m => m
  | Raise _ => two_towns_model
  end.

Lemma later_model_Ok :
  update_parameters (fun _ => 0) 10 1 1 far_road
    (reset_agent_variables two_towns) two_towns_model = Ok later_model.
Proof.
  unfold later_model.
  destruct (update_parameters _ _ _ _ _ _ _) eqn:E; [reflexivity|].
  vm_compute in E. discriminate.
Qed.

(** C8 (as amended) in the later period, with the solver that always
    fails: two calls with the warm-start options, and the purchases of the
    earlier call are kept. *)
Lemma retry_keeps_configuration_witness :
  let c := det_tanker_market_contracts (fun _ => 0) 10 1 1 far_road
             always_raises later_period two_towns in
  solver_calls c = [warm_start_options ∅; warm_start_options ∅] /\
  In "Tanker water market solver did not converge ... previous results loaded"%string
     (log_lines c) /\
  outcome_of_call c =
    Ok (cleared later_model (warm_start_options ∅) (Some two_from_first)
          "ipopt failed twice" (Some optimal),
        update_agents 10 1 far_road (reset_agent_variables two_towns)
          two_from_first).
Proof.
  apply (proj2 (proj2
    (retry_keeps_configuration (fun _ => 0) 10 1 1 far_road always_raises
       later_period two_towns later_model (warm_start_options ∅)
       (or_intror (conj eq_refl (conj eq_refl
          (ex_intro _ two_towns_model (conj eq_refl later_model_Ok)))))))
    ApplicationError ApplicationError two_from_first
    eq_refl eq_refl eq_refl eq_refl eq_refl).
Defined.

(** C8 (as stated) fails. In the later period, with the solver that fails
    at the first attempt, the retry is called with the warm-start options
    of the first attempt, not with a configuration reset to cold. (And in
    the first period, with the solver that always fails, there are no
    earlier purchases: the update of the agents subscripts [None] and the
    [TypeError] leaves the call.) *)
Lemma retry_keeps_configuration_counterexample :
  solver_calls (det_tanker_market_contracts (fun _ => 0) 10 1 1 far_road
                  raises_once later_period two_towns)
  = [warm_start_options ∅; warm_start_options ∅] /\
  warm_start_options ∅ !! "warm_start_init_point"%string = Some "yes"%string /\
  warm_start_options ∅ <> ∅ /\
  outcome_of_call (det_tanker_market_contracts (fun _ => 0) 10 1 1 far_road
                     always_raises first_period two_towns)
  = Raise TypeError.
Proof.
  split; [|split; [reflexivity|split]].
  - unfold det_tanker_market_contracts. cbn [is_tanker_market_first_run
      later_period fwm options]. rewrite later_model_Ok. reflexivity.
  - intros H. apply (f_equal (fun d => d !! "mu_init"%string)) in H.
    vm_compute in H. discriminate.
  - vm_compute. reflexivity.
Qed.

(** *** Shared wells *)








End TankerMarketFacts.

(* ================================================================== *)
(** * Part III: further properties of the modelled code                *)
(* ================================================================== *)

(** ** GWResponseEngine.run: the consolidation of the pumping *)

Module GWPumpingFacts.

Import Groundwater GWResponseEngine GWResponseFacts.
Local Open Scope Q_scope.

(** The wells whose pumping step 1 sets to the baseline: Mukheibeh
    ('210401_ag_02') and Ma'an ('330103_ag_01'). *)
Definition excluded (name : string) : bool :=
  String.eqb name "210401_ag_02" || String.eqb name "330103_ag_01".

(** The node [i] pumping [q]. *)
Definition with_pumping (i : node) (q : Q) : node :=
  {| name := name i;
     Groundwater.pumping := q;
     matrix_position := matrix_position i;
     baseline_pumping := baseline_pumping i;
     head_calc := head_calc i |}.

Section Facts.

Variable dd : nat -> nat -> nat -> Q.
Variable gw_response_factor : Q.
Variable get_node : string -> option node.

(** The value that step 1 leaves in [self.pumping[row]] for a node, in
    multiples of the unit pumping 0.01. *)
Definition unit_pumping (i : node) : result Q :=
  if String.eqb (name i) "330103_ag_01" then Ok 0
  else if String.eqb (name i) "130104_urb_02" then
    match get_node "130104_urb_01" with
    | Some u =>
        Ok ((Groundwater.pumping i + Groundwater.pumping u * (25 # 100)
             - baseline_pumping i) / (1 # 100))
    | None => Raise AttributeError
    end
  else if String.eqb (name i) "130104_urb_01" then
    Ok ((Groundwater.pumping i * (75 # 100) - baseline_pumping i) / (1 # 100))
  else if String.eqb (name i) "210401_ag_02" then Ok 0
  else Ok ((Groundwater.pumping i - baseline_pumping i) / (1 # 100)).

Lemma consolidate_spec (e e' : engine) (i : node) :
  consolidate get_node e i = Ok e' ->
  head e' = set_row (head e) (matrix_position i) (head_calc i) /\
  exists q,
    unit_pumping i = Ok q /\
    forall r, pumping e' r
              = if Nat.eqb r (matrix_position i) then q else pumping e r.
Proof.
  intros H. split; [by apply (consolidate_head get_node e)|].
  revert H. unfold consolidate, unit_pumping.
  destruct (nloc <=? matrix_position i)%nat; [discriminate|].
  destruct (String.eqb_spec (name i) "210401_ag_02") as [E1|E1];
    destruct (String.eqb_spec (name i) "130104_urb_01") as [E2|E2];
    destruct (String.eqb_spec (name i) "130104_urb_02") as [E3|E3];
    destruct (String.eqb_spec (name i) "330103_ag_01") as [E4|E4];
    try congruence;
    destruct (get_node "130104_urb_01") as [u|];
    cbn; intros [= <-]; eexists; (split; [reflexivity|]);
    intros r; cbn; unfold set_row;
    by destruct (Nat.eqb r (matrix_position i)).
Qed.

(** Two nodes that step 1 cannot tell apart. *)
Definition alike (i i' : node) : Prop :=
  matrix_position i' = matrix_position i /\
  head_calc i' = head_calc i /\
  unit_pumping i' = unit_pumping i.

Lemma consolidate_all_alike (nodes nodes' : list node) :
  Forall2 alike nodes nodes' ->
  forall e1 e2 e1' e2',
    (forall j k, head e2 j k = head e1 j k) ->
    (forall r, pumping e2 r = pumping e1 r) ->
    consolidate_all get_node e1 nodes = Ok e1' ->
    consolidate_all get_node e2 nodes' = Ok e2' ->
    (forall j k, head e2' j k = head e1' j k) /\
    (forall r, pumping e2' r = pumping e1' r).
Proof.
  induction 1 as [|i i' nodes nodes' (Hrow & Hcalc & Hunit) _ IH];
    intros e1 e2 e1' e2' Hh Hp; cbn.
  - intros [= <-] [= <-]. done.
  - destruct (consolidate get_node e1 i) as [a1|] eqn:E1; [|discriminate].
    destruct (consolidate get_node e2 i') as [a2|] eqn:E2; [|discriminate].
    cbn. apply IH.
    + apply consolidate_spec in E1 as [H1 _], E2 as [H2 _].
      intros j k. rewrite H1, H2, Hrow, Hcalc. unfold set_row.
      by destruct (Nat.eqb j (matrix_position i)).
    + apply consolidate_spec in E1 as (_ & q1 & Hq1 & H1).
      apply consolidate_spec in E2 as (_ & q2 & Hq2 & H2).
      intros r. rewrite H1, H2, Hrow.
      assert (q2 = q1) as -> by congruence.
      by destruct (Nat.eqb r (matrix_position i)).
Qed.

Lemma einsum_sum_ext (n : nat) (f g : nat -> Q) :
  (forall i, f i = g i) -> einsum_sum n f = einsum_sum n g.
Proof.
  intros Hfg. unfold einsum_sum.
  induction (seq 0 n) as [|i l IH]; cbn; [done|]. by rewrite Hfg, IH.
Qed.

Lemma addhead_ext (timestep : nat) (p1 p2 : nat -> Q) (j k : nat) :
  (forall r, p2 r = p1 r) ->
  addhead dd gw_response_factor timestep p2 j k
  = addhead dd gw_response_factor timestep p1 j k.
Proof.
  intros Hp. unfold addhead, einsum.
  destruct (Nat.eqb timestep 1); [|destruct (k <? timestep - 1)%nat; [done|]];
    f_equal; f_equal; apply einsum_sum_ext; intros i; by rewrite Hp.
Qed.

Lemma alike_refl (i : node) : alike i i.
Proof. done. Qed.

Lemma excluded_alike (i : node) (q : Q) :
  excluded (name i) = true -> alike i (with_pumping i q).
Proof.
  intros Hex. repeat split. unfold unit_pumping. cbn [with_pumping name].
  unfold excluded in Hex.
  destruct (String.eqb_spec (name i) "330103_ag_01") as [E4|E4]; [done|].
  rewrite orb_false_r in Hex. apply String.eqb_eq in Hex. by rewrite Hex.
Qed.

Lemma processable_with_pumping (pre post : list node) (i : node) (q : Q) :
  processable get_node (pre ++ i :: post) ->
  processable get_node (pre ++ with_pumping i q :: post).
Proof.
  intros Hp k [Hk|[<-|Hk]]%in_app_iff.
  - apply Hp, in_app_iff. by left.
  - apply (Hp i), in_app_iff. right. by left.
  - apply Hp, in_app_iff. right. by right.
Qed.

(** X1. The heads do not respond to the pumping of the excluded wells.
    Whatever the node of Mukheibeh ('210401_ag_02') or of Ma'an
    ('330103_ag_01') pumps, one run of the engine leaves the same unit
    pumping in every row, 0 in the row of the excluded well, and the same
    head in every cell of the head array. *)
Theorem excluded_wells_do_not_respond (idx : nat) (e : engine)
    (pre post : list node) (i : node) (q : Q) :
  excluded (name i) = true ->
  processable get_node (pre ++ i :: post) ->
  exists e1 nodes1 e2 nodes2,
    run dd gw_response_factor get_node idx e (pre ++ i :: post)
    = Ok (e1, nodes1) /\
    run dd gw_response_factor get_node idx e (pre ++ with_pumping i q :: post)
    = Ok (e2, nodes2) /\
    (forall j k, head e2 j k = head e1 j k) /\
    (forall r, pumping e2 r = pumping e1 r) /\
    ((forall i', In i' post -> matrix_position i' <> matrix_position i) ->
     pumping e1 (matrix_position i) = 0).
Proof.
  intros Hex Hp.
  assert (Hall : Forall2 alike
                   (pre ++ i :: post) (pre ++ with_pumping i q :: post)).
  { apply Forall2_app; [by apply Forall_Forall2_diag, Forall_true|].
    constructor; [by apply excluded_alike|].
    by apply Forall_Forall2_diag, Forall_true. }
  pose proof (processable_with_pumping pre post i q Hp) as Hp'.
  destruct (consolidate_all_Ok get_node _ Hp e) as [a1 E1].
  destruct (consolidate_all_Ok get_node _ Hp' e) as [a2 E2].
  destruct (consolidate_all_alike _ _ Hall e e a1 a2) as [Hh Hpu]; try done.
  unfold run. rewrite E1, E2. cbn. eexists _, _, _, _.
  split; [reflexivity|]. split; [reflexivity|]. cbn.
  split; [|split].
  - intros j k. by rewrite Hh, (addhead_ext _ _ _ _ _ Hpu).
  - exact Hpu.
  - intros Hpost. clear -Hex Hpost E1.
    revert e E1. induction pre as [|i0 pre IH]; intros e; cbn.
    + destruct (consolidate get_node e i) as [b|] eqn:Eb; [|discriminate].
      cbn. intros Erest.
      apply consolidate_spec in Eb as (_ & q0 & Hq0 & Hb).
      assert (q0 = 0) as ->.
      { pose proof (excluded_alike i 0 Hex) as (_ & _ & Hu).
        unfold unit_pumping in Hq0. unfold excluded in Hex.
        destruct (String.eqb_spec (name i) "330103_ag_01") as [E4|E4];
          [congruence|].
        rewrite orb_false_r in Hex. apply String.eqb_eq in Hex.
        rewrite Hex in Hq0. cbn in Hq0. congruence. }
      assert (Hrow : pumping b (matrix_position i) = 0).
      { by rewrite Hb, Nat.eqb_refl. }
      clear Hb. revert b Erest Hrow.
      induction post as [|i' post IHp]; intros b; cbn.
      * by intros [= <-].
      * destruct (consolidate get_node b i') as [c|] eqn:Ec; [|discriminate].
        cbn. intros Erest Hrow. apply (IHp (fun x Hx => Hpost x (or_intror Hx)) c);
          [done|].
        apply consolidate_spec in Ec as (_ & q' & _ & Hc). rewrite Hc.
        destruct (Nat.eqb_spec (matrix_position i) (matrix_position i'))
          as [E|_]; [|done].
        exfalso. apply (Hpost i'); [by left|done].
    + destruct (consolidate get_node e i0) as [b|]; [|discriminate].
      cbn. apply IH.
Qed.

(** Rows that no node of the list names keep their unit pumping; a row
    that one node names holds the unit pumping of that node. *)
Lemma consolidate_all_pumping (nodes : list node) :
  forall e e',
    consolidate_all get_node e nodes = Ok e' ->
    (forall r, (forall i, In i nodes -> matrix_position i <> r) ->
       pumping e' r = pumping e r) /\
    (List.NoDup (List.map matrix_position nodes) ->
     forall i, In i nodes ->
       exists q, unit_pumping i = Ok q /\ pumping e' (matrix_position i) = q).
Proof.
  induction nodes as [|i0 rest IH]; intros e e'; cbn.
  - intros [= <-]. split; [done|]. intros _ i [].
  - destruct (consolidate get_node e i0) as [b|] eqn:Eb; [|discriminate].
    cbn. intros Erest. destruct (IH b e' Erest) as [IH1 IH2].
    apply consolidate_spec in Eb as (_ & q0 & Hq0 & Hb).
    split.
    + intros r Hr. rewrite IH1 by (intros i Hi; apply Hr; by right).
      rewrite Hb. destruct (Nat.eqb_spec r (matrix_position i0)) as [->|_];
        [|done].
      exfalso. apply (Hr i0); [by left|done].
    + intros Hnd i [<-|Hi].
      * exists q0. split; [done|]. inversion Hnd as [|? ? Hni _]; subst.
        rewrite IH1, Hb, Nat.eqb_refl; [done|].
        intros k Hk Hrow. apply Hni. rewrite <- Hrow. by apply in_map.
      * apply IH2; [|done]. by inversion Hnd.
Qed.

(** X2. Shifting a quarter of the pumping of the Azraq urban wells from
    layer 1 to layer 2 conserves the total: where both nodes are among the
    nodes of the engine, each in a row of its own, the unit pumping left in
    the two rows adds up to what the two wells pump together above their
    baselines, in multiples of 0.01. *)
Theorem azraq_shift_conserves_pumping (idx : nat) (e e' : engine)
    (nodes nodes' : list node) (u1 u2 : node) :
  name u1 = "130104_urb_01"%string -> name u2 = "130104_urb_02"%string ->
  In u1 nodes -> In u2 nodes ->
  get_node "130104_urb_01"%string = Some u1 ->
  List.NoDup (List.map matrix_position nodes) ->
  run dd gw_response_factor get_node idx e nodes = Ok (e', nodes') ->
  pumping e' (matrix_position u1) == (Groundwater.pumping u1 * (75 # 100)
                                      - baseline_pumping u1) / (1 # 100) /\
  pumping e' (matrix_position u2) == (Groundwater.pumping u2
                                      + Groundwater.pumping u1 * (25 # 100)
                                      - baseline_pumping u2) / (1 # 100) /\
  pumping e' (matrix_position u1) + pumping e' (matrix_position u2)
  == ((Groundwater.pumping u1 + Groundwater.pumping u2)
      - (baseline_pumping u1 + baseline_pumping u2)) / (1 # 100).
Proof.
  intros Hn1 Hn2 Hi1 Hi2 Hget Hnd. unfold run.
  destruct (consolidate_all get_node e nodes) as [a|] eqn:Ea; [|discriminate].
  cbn. intros [= <- _]. cbn [pumping].
  destruct (consolidate_all_pumping nodes e a Ea) as [_ Hrows].
  destruct (Hrows Hnd u1 Hi1) as (q1 & Hq1 & ->).
  destruct (Hrows Hnd u2 Hi2) as (q2 & Hq2 & ->).
  unfold unit_pumping in Hq1, Hq2. rewrite Hn1 in Hq1. rewrite Hn2, Hget in Hq2.
  cbn in Hq1, Hq2. injection Hq1 as <-. injection Hq2 as <-.
  split; [reflexivity|]. split; [reflexivity|]. field.
Qed.

(** A node that pumps what the baseline run pumps, as step 1 sees it. *)
Definition at_baseline (i : node) : Prop :=
  excluded (name i) = true \/
  (name i <> "130104_urb_01"%string /\ name i <> "130104_urb_02"%string /\
   Groundwater.pumping i == baseline_pumping i).

Lemma at_baseline_unit_pumping (i : node) :
  at_baseline i -> exists q, unit_pumping i = Ok q /\ q == 0.
Proof.
  unfold at_baseline, excluded, unit_pumping.
  destruct (String.eqb_spec (name i) "330103_ag_01") as [E4|E4];
    [intros _; by exists 0|].
  destruct (String.eqb_spec (name i) "210401_ag_02") as [E1|E1].
  - intros _. rewrite E1. cbn. by exists 0.
  - cbn [orb]. intros [|(H1 & H2 & Hp)]; [done|].
    destruct (String.eqb_spec (name i) "130104_urb_02"); [done|].
    destruct (String.eqb_spec (name i) "130104_urb_01"); [done|].
    eexists. split; [reflexivity|]. rewrite Hp. field.
Qed.

Lemma consolidate_all_at_baseline (nodes : list node) :
  forall e e',
    consolidate_all get_node e nodes = Ok e' ->
    (forall i, In i nodes -> at_baseline i) ->
    (forall r, pumping e r == 0 \/ exists i, In i nodes /\ matrix_position i = r) ->
    forall r, pumping e' r == 0.
Proof.
  induction nodes as [|i0 rest IH]; intros e e'; cbn.
  - intros [= <-] _ Hr r. destruct (Hr r) as [H|(i & [] & _)]. done.
  - destruct (consolidate get_node e i0) as [b|] eqn:Eb; [|discriminate].
    cbn. intros Erest Hbase Hr. apply (IH b e' Erest).
    + intros i Hi. apply Hbase. by right.
    + apply consolidate_spec in Eb as (_ & q0 & Hq0 & Hb).
      destruct (at_baseline_unit_pumping i0) as (q & Hq & Hzero);
        [apply Hbase; by left|].
      assert (q0 = q) as -> by congruence.
      intros r. rewrite Hb.
      destruct (Nat.eqb_spec r (matrix_position i0)) as [->|Hne]; [by left|].
      destruct (Hr r) as [H|(i & [<-|Hi] & Hrow)]; [by left|done|].
      right. by exists i.
Qed.

(** X3. A run in which every node pumps its baseline changes no head.
    Where the head rows of the nodes agree with the head array, every node
    is either an excluded well or a well other than the two Azraq urban
    wells that pumps exactly its baseline, and the rows that belong to no
    node hold no pumping, the engine returns, the unit pumping is 0 in
    every row, and every cell of the head array and every head row of the
    nodes keeps its value. *)
Theorem baseline_pumping_keeps_heads (idx : nat) (e : engine)
    (nodes : list node) :
  processable get_node nodes ->
  coherent e nodes ->
  (forall i, In i nodes -> at_baseline i) ->
  (forall r, (forall i, In i nodes -> matrix_position i <> r) ->
     pumping e r == 0) ->
  exists e' nodes',
    run dd gw_response_factor get_node idx e nodes = Ok (e', nodes') /\
    (forall r, pumping e' r == 0) /\
    (forall j k, head e' j k == head e j k) /\
    Forall2 (fun i i' =>
               name i' = name i /\ forall s, head_calc i' s == head_calc i s)
            nodes nodes'.
Proof.
  intros Hp Hc Hbase Hrest.
  destruct (consolidate_all_Ok get_node nodes Hp e) as [a Ea].
  assert (Hzero : forall r, pumping a r == 0).
  { apply (consolidate_all_at_baseline nodes e a Ea Hbase). intros r.
    destruct (existsb (fun i => Nat.eqb (matrix_position i) r) nodes) eqn:Ex.
    - apply existsb_exists in Ex as (i & Hi & Hr%Nat.eqb_eq). right. eauto.
    - left. apply Hrest. intros i Hi Hrow.
      assert (existsb (fun i => Nat.eqb (matrix_position i) r) nodes = true);
        [|congruence].
      apply existsb_exists. exists i. split; [done|by apply Nat.eqb_eq]. }
  assert (Hadd : forall j k,
    addhead dd gw_response_factor (idx + 1) (pumping a) j k == 0).
  { intros j k. unfold addhead, einsum.
    destruct (Nat.eqb (idx + 1) 1);
      [|destruct (k <? idx + 1 - 1)%nat; [reflexivity|]];
      rewrite einsum_sum_zero; try ring; intros i _; rewrite Hzero; ring. }
  assert (Hhead : forall j k,
    head a j k + addhead dd gw_response_factor (idx + 1) (pumping a) j k
    == head e j k).
  { intros j k. rewrite Hadd, (consolidate_all_head get_node nodes e a Hc Ea).
    ring. }
  unfold run. rewrite Ea. cbn. eexists _, _. split; [reflexivity|]. cbn.
  split; [exact Hzero|]. split; [exact Hhead|].
  apply Forall2_fmap_r, Forall_Forall2_diag, List.Forall_forall.
  intros i Hi. split; [reflexivity|]. intros s. cbn.
  rewrite Hhead. symmetry. by apply Hc.
Qed.

End Facts.

(** The wells of the scenarios: a well at row [r] with baseline pumping 10. *)
Definition well_at (name : string) (r : nat) (pumping : Q) : node :=
  {| name := name; Groundwater.pumping := pumping; matrix_position := r;
     baseline_pumping := 10; head_calc := fun _ => 500 |}.

Lemma excluded_wells_do_not_respond_witness :
  exists e1 nodes1 e2 nodes2,
    run (fun _ _ _ => 1 # 2) 1 (fun _ => None) 2 (fresh_engine (fun _ _ => 500))
      ([] ++ well_at "330103_ag_01" 4 12 :: [])
    = Ok (e1, nodes1) /\
    run (fun _ _ _ => 1 # 2) 1 (fun _ => None) 2 (fresh_engine (fun _ _ => 500))
      ([] ++ with_pumping (well_at "330103_ag_01" 4 12) 99 :: [])
    = Ok (e2, nodes2) /\
    (forall j k, head e2 j k = head e1 j k) /\
    (forall r, pumping e2 r = pumping e1 r) /\
    ((forall i', In i' [] ->
        matrix_position i' <> matrix_position (well_at "330103_ag_01" 4 12)) ->
     pumping e1 (matrix_position (well_at "330103_ag_01" 4 12)) = 0).
Proof.
  apply (excluded_wells_do_not_respond (fun _ _ _ => 1 # 2) 1 (fun _ => None) 2
           (fresh_engine (fun _ _ => 500)) [] [] (well_at "330103_ag_01" 4 12)
           99).
  - reflexivity.
  - intros k [<-|[]]. split; [vm_compute; lia|]. simpl. discriminate.
Defined.

(** X2 at a concrete input: the Azraq wells in rows 1 and 2, pumping 40 and
    20 with a baseline of 10 each: 2000 and 2000 unit multiples. *)
Lemma azraq_shift_conserves_pumping_witness :
  let u1 := well_at "130104_urb_01" 1 40 in
  let u2 := well_at "130104_urb_02" 2 20 in
  let get_node := fun n => if String.eqb n "130104_urb_01" then Some u1 else None in
  exists e' nodes',
    run (fun _ _ _ => 1 # 2) 1 get_node 2 (fresh_engine (fun _ _ => 500))
      [u1; u2] = Ok (e', nodes') /\
    pumping e' 1%nat == 2000 /\ pumping e' 2%nat == 2000 /\
    pumping e' 1%nat + pumping e' 2%nat == ((40 + 20) - (10 + 10)) / (1 # 100).
Proof.
  intros u1 u2 get_node.
  destruct (run (fun _ _ _ => 1 # 2) 1 get_node 2
              (fresh_engine (fun _ _ => 500)) [u1; u2])
    as [[e' nodes']|] eqn:E; [|vm_compute in E; discriminate].
  exists e', nodes'. split; [reflexivity|].
  pose proof (azraq_shift_conserves_pumping (fun _ _ _ => 1 # 2) 1 get_node 2
                (fresh_engine (fun _ _ => 500)) e' [u1; u2] nodes' u1 u2
                eq_refl eq_refl) as H.
  destruct H as (H1 & H2 & H3).
  - by left.
  - right. by left.
  - reflexivity.
  - constructor; [cbn; intros [H|[]]; discriminate|].
    constructor; [cbn; intros []|]. constructor.
  - exact E.
  - split; [etransitivity; [exact H1|vm_compute; reflexivity]|].
    split; [etransitivity; [exact H2|vm_compute; reflexivity]|].
    exact H3.
Defined.

(** X3 at a concrete input: two wells that pump their baseline. *)
Lemma baseline_pumping_keeps_heads_witness :
  let nodes := [well_at "a" 0 10; well_at "210401_ag_02" 1 99] in
  let e := fresh_engine (fun _ _ => 500) in
  exists e' nodes',
    run (fun _ _ _ => 1 # 2) 1 (fun _ => None) 2 e nodes = Ok (e', nodes') /\
    (forall r, pumping e' r == 0) /\
    (forall j k, head e' j k == head e j k) /\
    Forall2 (fun i i' =>
               name i' = name i /\ forall s, head_calc i' s == head_calc i s)
            nodes nodes'.
Proof.
  intros nodes e.
  apply (baseline_pumping_keeps_heads (fun _ _ _ => 1 # 2) 1 (fun _ => None) 2
           e nodes).
  - intros k [<-|[<-|[]]]; (split; [vm_compute; lia|]); simpl; discriminate.
  - intros k [<-|[<-|[]]] s; reflexivity.
  - intros k [<-|[<-|[]]].
    + right. repeat split; discriminate.
    + by left.
  - intros r _. reflexivity.
Defined.

End GWPumpingFacts.

(** ** Groundwater.setup *)

Module GroundwaterSetupFacts.

Import PyDict GroundwaterSetup.
Local Open Scope Q_scope.

Lemma lt_spec (a b : Q) : lt a b = true <-> a < b.
Proof.
  unfold lt. rewrite negb_true_iff. destruct (Qle_bool b a) eqn:E.
  - apply Qle_bool_iff in E. split; [done|lra].
  - split; [intros _|done]. apply Qnot_le_lt. intros H.
    apply Qle_bool_iff in H. congruence.
Qed.

Lemma lt_false (a b : Q) : lt a b = false <-> b <= a.
Proof. unfold lt. rewrite negb_false_iff. apply Qle_bool_iff. Qed.

Lemma Qle_bool_false (a b : Q) : Qle_bool a b = false <-> b < a.
Proof.
  split.
  - intros E. apply Qnot_le_lt. intros H. apply Qle_bool_iff in H. congruence.
  - intros H. destruct (Qle_bool a b) eqn:E; [|done].
    apply Qle_bool_iff in E. lra.
Qed.

(** A well of 100 m between bottom and top whose head stands 50 m above the
    bottom in every month. *)
Definition half_full (name : string) (dry : Z) : node :=
  {| name := name; head := 0; head_bias_corr := 0; pumping := 7; lift := 0;
     check_dry := None; permanently_dry := dry;
     capacity_reduction_factor := 0;
     _gw_node_properties :=
       {| head_calc := fun _ => 50; bias_correction := 0;
          top := 100; bot := 0 |} |}.

(** X4. Dryness is permanent. After every [setup] that returns, the node is
    flagged dry ([check_dry] is [True]) exactly when [permanently_dry] is
    positive, and a dry node has the capacity reduction factor 0. A node
    whose [permanently_dry] was positive before stays so, whatever its head
    has become: a well that has run dry once never pumps again. *)
Theorem dry_wells_stay_dry (idx : nat) (start : Q) (n n' : node) :
  setup idx start n = Ok n' ->
  (check_dry n' = Some true <-> (0 < permanently_dry n')%Z) /\
  (check_dry n' = Some true \/ check_dry n' = Some false) /\
  ((0 < permanently_dry n)%Z -> (0 < permanently_dry n')%Z) /\
  (check_dry n' = Some true -> capacity_reduction_factor n' = 0).
Proof.
  unfold setup.
  destruct (GWResponseEngine.ntime <=? idx)%nat; [discriminate|].
  intros [= <-]. cbn.
  set (p := _gw_node_properties n).
  destruct (lt (head_calc p idx + bias_correction p)
               (bot p + (20 # 100) * (top p - bot p)));
    destruct (lt (head_calc p idx + bias_correction p)
                 (bot p + start * (top p - bot p)));
    destruct (Qle_bool _ 0); cbn;
    try destruct (Z.ltb_spec 0 (permanently_dry n));
    repeat split; intros; try (done || lia || (by left) || (by right)).
Qed.

Lemma dry_wells_stay_dry_witness :
  exists n',
    setup 3 (1 # 2) (half_full "well" 1) = Ok n' /\
    (check_dry n' = Some true <-> (0 < permanently_dry n')%Z) /\
    (check_dry n' = Some true \/ check_dry n' = Some false) /\
    ((0 < permanently_dry (half_full "well" 1))%Z ->
     (0 < permanently_dry n')%Z) /\
    (check_dry n' = Some true -> capacity_reduction_factor n' = 0).
Proof.
  eexists. split; [reflexivity|].
  apply (dry_wells_stay_dry 3 (1 # 2) (half_full "well" 1)). reflexivity.
Defined.

Local Ltac crf_case :=
  split; [lra|split; intros; first [done | lra | exfalso; lra]].

(** X5. Where the top of the aquifer lies above its bottom and the
    reduction starts above the 20 % level ([gw_reduction_start > .20]), the
    capacity reduction factor that [setup] leaves is between 0 and 1, and it
    is positive exactly when the node is not flagged dry. *)
Theorem capacity_reduction_factor_range (idx : nat) (start : Q) (n n' : node) :
  bot (_gw_node_properties n) < top (_gw_node_properties n) ->
  20 # 100 < start ->
  setup idx start n = Ok n' ->
  0 <= capacity_reduction_factor n' <= 1 /\
  (0 < capacity_reduction_factor n' <-> check_dry n' = Some false).
Proof.
  intros Htop Hstart. unfold setup.
  destruct (GWResponseEngine.ntime <=? idx)%nat; [discriminate|].
  intros [= <-]. cbn.
  set (p := _gw_node_properties n) in *.
  set (h := head_calc p idx + bias_correction p).
  set (factor := (h - _) / _).
  assert (Hdiv : 0 < bot p + start * (top p - bot p)
                     - (bot p + (20 # 100) * (top p - bot p))) by nra.
  set (reduced := lt h (bot p + start * (top p - bot p))).
  destruct (lt h (bot p + (20 # 100) * (top p - bot p))) eqn:Edry.
  { destruct reduced, (Qle_bool factor 0); cbn;
      crf_case. }
  apply lt_false in Edry.
  destruct reduced eqn:Ered; subst reduced.
  - apply lt_spec in Ered.
    destruct (Qle_bool factor 0) eqn:Efac.
    + cbn. crf_case.
    + apply Qle_bool_false in Efac. cbn.
      assert (Hone : factor <= 1).
      { apply Qle_shift_div_r; [done|]. lra. }
      destruct (Z.ltb_spec 0 (permanently_dry n));
        crf_case.
  - cbn. destruct (Z.ltb_spec 0 (permanently_dry n));
      crf_case.
Qed.

Lemma capacity_reduction_factor_range_witness :
  exists n',
    setup 3 (1 # 2) (half_full "well" 0) = Ok n' /\
    0 <= capacity_reduction_factor n' <= 1 /\
    (0 < capacity_reduction_factor n' <-> check_dry n' = Some false).
Proof.
  eexists. split; [reflexivity|].
  apply (capacity_reduction_factor_range 3 (1 # 2) (half_full "well" 0));
    reflexivity.
Defined.

(** X6. After every [setup] that returns, the lift of the node is the
    distance from the top of the aquifer to its bias-corrected head,
    [lift == top - head_bias_corr], and no pumping is booked. At the
    locations of the abnormal list the bias-corrected head is capped at the
    top, so that the lift is not negative there; elsewhere the head is not
    capped and the lift can be negative. *)
Theorem lift_is_depth_to_water (idx : nat) (start : Q) (n n' : node) :
  forall p, p = _gw_node_properties n ->
  setup idx start n = Ok n' ->
  lift n' == top p - head_bias_corr n' /\
  pumping n' = 0 /\
  (is_abnormal (name n) = true ->
   0 <= lift n' /\
   head_bias_corr n' == Qmin (top p) (head_calc p idx + bias_correction p)) /\
  (is_abnormal (name n) = false ->
   head_bias_corr n' = head_calc p idx + bias_correction p).
Proof.
  intros p ->. unfold setup.
  destruct (GWResponseEngine.ntime <=? idx)%nat; [discriminate|].
  intros [= <-]. cbn -[is_abnormal Qmin]. set (p := _gw_node_properties n).
  set (h := head_calc p idx + bias_correction p).
  destruct (is_abnormal (name n)); cbn [andb].
  - destruct (lt (top p) h) eqn:E1; destruct (lt (top p - h) 0) eqn:E2;
      try apply lt_spec in E1; try apply lt_spec in E2;
      try apply lt_false in E1; try apply lt_false in E2;
      try lra.
    + repeat split; try done; try lra.
      symmetry. apply Q.min_l. lra.
    + repeat split; try done; try lra.
      symmetry. apply Q.min_r. lra.
  - repeat split; done.
Qed.

Lemma lift_is_depth_to_water_witness :
  exists n',
    setup 3 (1 # 2) (half_full "120201_ag_07" 0) = Ok n' /\
    lift n' == 100 - head_bias_corr n' /\
    pumping n' = 0 /\
    (is_abnormal "120201_ag_07" = true ->
     0 <= lift n' /\ head_bias_corr n' == Qmin 100 (50 + 0)) /\
    (is_abnormal "120201_ag_07" = false -> head_bias_corr n' = 50 + 0).
Proof.
  eexists. split; [reflexivity|].
  apply (lift_is_depth_to_water 3 (1 # 2) (half_full "120201_ag_07" 0) _
           (_gw_node_properties (half_full "120201_ag_07" 0)));
    reflexivity.
Defined.

End GroundwaterSetupFacts.

(** ** Reservoir.setup *)

Module ReservoirFacts.

Import PyDict ReservoirNode.
Import GroundwaterSetupFacts.
Local Open Scope Q_scope.

(** X7. The evaporation that [setup] leaves in a reservoir is never
    negative, whatever the sign of the fitted pan evaporation or of the
    evaporation factor. It is zero for Lake Tiberias and for a reservoir
    one of whose pan-evaporation coefficients is ['NA']. The volume is
    replaced by the monthly average of the observations at the first
    timestep only, and never for Lake Tiberias. *)
Theorem setup_evaporation (idx : nat) (month : Z)
    (volume_averages temp_averages : gmap string (gmap Z Q))
    (evap_factor : Q) (n n' : node) :
  setup idx month volume_averages temp_averages evap_factor n = Ok n' ->
  0 <= evap n' /\
  (name n = "tiberias_res"%string -> evap n' == 0) /\
  (temp_pan_evap_c1 (properties n) = None \/
   temp_pan_evap_c2 (properties n) = None -> evap n' == 0) /\
  (idx <> 0%nat \/ name n = "tiberias_res"%string -> volume n' = volume n) /\
  (idx = 0%nat -> name n <> "tiberias_res"%string ->
   getitem2 volume_averages (name n) month = Ok (volume n')).
Proof.
  unfold setup.
  set (vol := if Nat.eqb idx 0 && negb (String.eqb (name n) "tiberias_res")
              then getitem2 volume_averages (name n) month
              else Ok (volume n)).
  destruct vol as [v|] eqn:Ev; [|discriminate]. cbn.
  destruct (getitem2 temp_averages _ _) as [tt|]; [|discriminate]. cbn.
  destruct (number (vol_area_c1 _)) as [c1|]; [|discriminate]. cbn.
  destruct (number (vol_area_c2 _)) as [c2|]; [|discriminate]. cbn.
  destruct (number (vol_area_c3 _)) as [c3|]; [|discriminate]. cbn.
  intros [= <-]. cbn.
  set (raw := (if negb _ then _ else _) * evap_factor).
  split; [|split; [|split; [|split]]].
  - destruct (lt raw 0) eqn:E; [lra|]. by apply lt_false in E.
  - intros Hn. subst raw. rewrite Hn. cbn.
    destruct (lt (0 * evap_factor) 0); [reflexivity|ring].
  - intros Hna. subst raw.
    assert (Hpan : match temp_pan_evap_c1 (properties n),
                         temp_pan_evap_c2 (properties n) with
                   | Some e1, Some e2 => tt * e1 + e2
                   | _, _ => 0
                   end = 0).
    { destruct Hna as [-> | ->]; [done|].
      by destruct (temp_pan_evap_c1 (properties n)). }
    rewrite Hpan.
    destruct (negb _);
      match goal with |- (if lt ?x 0 then _ else _) == 0 =>
        destruct (lt x 0); [reflexivity|]; unfold Qdiv; ring end.
  - intros Hcase. subst vol.
    destruct Hcase as [Hidx | Hn].
    + destruct idx; [done|]. cbn in Ev. congruence.
    + rewrite Hn, andb_false_r in Ev. congruence.
  - intros -> Hn. subst vol.
    destruct (String.eqb_spec (name n) "tiberias_res"); [done|].
    exact Ev.
Qed.

(** A reservoir of 1000 m3 with a fitted area curve. *)
Definition pond (name : string) : node :=
  {| name := name; volume := 1000; inflow := 40; t := 0; surf_area := 0;
     evap := 10;
     properties :=
       {| avg_seep := Some 5; vol_area_c1 := Some 0; vol_area_c2 := Some 0;
          vol_area_c3 := Some (1 # 10);
          temp_pan_evap_c1 := Some (1 # 2); temp_pan_evap_c2 := Some (- (20)) |}
  |}.

Definition july_tables : gmap string (gmap Z Q) :=
  <["AM0007" := <[7%Z := 30]> ∅]> (<["mujib_res" := <[7%Z := 800]> ∅]> ∅).

Lemma setup_evaporation_witness :
  exists n',
    setup 0 7%Z july_tables july_tables 1 (pond "mujib_res") = Ok n' /\
    0 <= evap n' /\
    (name (pond "mujib_res") = "tiberias_res"%string -> evap n' == 0) /\
    (temp_pan_evap_c1 (properties (pond "mujib_res")) = None \/
     temp_pan_evap_c2 (properties (pond "mujib_res")) = None ->
     evap n' == 0) /\
    (0%nat <> 0%nat \/ name (pond "mujib_res") = "tiberias_res"%string ->
     volume n' = volume (pond "mujib_res")) /\
    (0%nat = 0%nat -> name (pond "mujib_res") <> "tiberias_res"%string ->
     getitem2 july_tables (name (pond "mujib_res")) 7%Z = Ok (volume n')).
Proof.
  eexists. split; [vm_compute; reflexivity|].
  apply (setup_evaporation 0 7%Z july_tables july_tables 1 (pond "mujib_res")).
  vm_compute. reflexivity.
Defined.

End ReservoirFacts.

(** ** The balance of Mujib and Walah in binary64 arithmetic *)

Module ReservoirBalanceFacts.

Import PyDict Float64 ReservoirBalance.

(** The release that WAJ's extraction at Zara-Ma'een asks of a
    reservoir. *)
Definition requested (s : supply) (name : string) : float :=
  SpecFloat.SFdiv prec emax
    (mul (real_extraction s)
       (if String.eqb name "mujib_res" then mujib_annual_availability s
        else walah_annual_availability s))
    (yearly_max_groundwater_pumping s).

(** The water that a reservoir can release this month. *)
Definition available (n : node) (seep : float) : float :=
  add (sub (sub (volume n) (evap n)) seep) (inflow n).

(** The release that is booked: the requested one, cut down to the water
    that can be released. *)
Definition booked (s : supply) (n : node) (seep : float) : float :=
  if gt (requested s (name n)) (available n seep) then available n seep
  else requested s (name n).

(** The node after the balance. *)
Definition balanced (s : supply) (n : node) (seep : float) : node :=
  {| name := name n;
     volume :=
       add (sub (sub (sub (volume n) (evap n)) seep) (booked s n seep))
           (inflow n);
     inflow := inflow n;
     evap := evap n;
     avg_seep := avg_seep n |}.

Definition is_zero (x : float) : bool :=
  match x with
  | SpecFloat.S754_zero _ => true
  | _ => false
  end.

Definition mujib_or_walah (name : string) : bool :=
  String.eqb name "walah_res" || String.eqb name "mujib_res".


Lemma div_by_nonzero (x y : float) :
  is_zero y = false -> div x y = Ok (SpecFloat.SFdiv prec emax x y).
Proof. by destruct y. Qed.

Local Ltac lookups :=
  repeat first
    [ rewrite lookup_insert_eq
    | rewrite lookup_insert_ne by done
    | progress cbn [mbind result_bind String.eqb Ascii.eqb Bool.eqb] ].

Lemma balance_of_a_named_node (s : supply) (n : node) (seep : float) :
  is_zero (yearly_max_groundwater_pumping s) = false ->
  mujib_or_walah (name n) = true ->
  avg_seep n = Some seep ->
  run_mujib_walah_balance s n = Ok (balanced s n seep).
Proof.
  intros Hz Hname Hseep.
  unfold run_mujib_walah_balance, balanced, booked, available, requested.
  rewrite !div_by_nonzero by done. cbn [mbind result_bind].
  rewrite Hseep. cbn [number mbind result_bind].
  unfold getitem, mujib_or_walah in *.
  apply orb_true_iff in Hname as [Hn|Hn]; apply String.eqb_eq in Hn;
    rewrite Hn; lookups;
    match goal with |- context [if gt ?a ?b then _ else _] =>
      destruct (gt a b)
    end; lookups; reflexivity.
Qed.


Lemma map_each_Forall2 {A B : Type} (f : A -> result B) (R : A -> B -> Prop)
    (l : list A) :
  (forall x, In x l -> exists y, f x = Ok y /\ R x y) ->
  exists l', map_each f l = Ok l' /\ Forall2 R l l'.
Proof.
  induction l as [|x l IH]; intros Hf; cbn.
  - exists []. split; [done|constructor].
  - destruct (Hf x) as (y & -> & Hy); [by left|].
    destruct IH as (l' & -> & Hl'); [intros z Hz; apply Hf; by right|].
    cbn. exists (y :: l'). split; [done|by constructor].
Qed.

(** X9. The reservoir balance engine runs the balance on the nodes named
    'walah_res' and 'mujib_res' and on no other. When the divisor
    [yearly_max_groundwater_pumping['zara_maeen']] is not zero and the
    seepage of these nodes is a number, the engine returns without an
    exception: it leaves each of them as its own balance leaves it, with
    the name, the inflow, the evaporation and the seepage it had, and it
    returns every other reservoir exactly as it was, in the same order.
    On reservoirs none of which has one of the two names the engine
    changes nothing, whatever the divisor. *)
Theorem balance_engine_touches_mujib_and_walah (s : supply)
    (nodes : list node) :
  (is_zero (yearly_max_groundwater_pumping s) = false ->
   (forall n, In n nodes -> mujib_or_walah (name n) = true ->
      is_Some (avg_seep n)) ->
   exists nodes',
     ReservoirBalanceEngine.run s nodes = Ok nodes' /\
     Forall2
       (fun n n' =>
          name n' = name n /\ inflow n' = inflow n /\ evap n' = evap n /\
          avg_seep n' = avg_seep n /\
          if mujib_or_walah (name n)
          then run_mujib_walah_balance s n = Ok n'
          else n' = n)
       nodes nodes') /\
  ((forall n, In n nodes -> mujib_or_walah (name n) = false) ->
   ReservoirBalanceEngine.run s nodes = Ok nodes).
Proof.
  split.
  - intros Hz Hseep. unfold ReservoirBalanceEngine.run.
    apply map_each_Forall2. intros n Hn.
    fold (mujib_or_walah (name n)).
    destruct (mujib_or_walah (name n)) eqn:E.
    + destruct (Hseep n Hn E) as [seep Hs].
      exists (balanced s n seep).
      by rewrite (balance_of_a_named_node s n seep).
    + by exists n.
  - intros Hnone. unfold ReservoirBalanceEngine.run.
    induction nodes as [|n nodes IH]; [done|]. cbn [map_each].
    fold (mujib_or_walah (name n)).
    rewrite (Hnone n) by (by left). cbn [mbind result_bind].
    rewrite IH; [done|]. intros m Hm. apply Hnone. by right.
Qed.

(** The numbers [n/d] of small integers, rounded: [decimal 1 10] is the
    float [0.1]. *)
Definition decimal (n d : Z) : float :=
  SpecFloat.SFdiv prec emax (of_Z n) (of_Z d).

(** A reservoir of 1000 m3 that receives 40, loses 10 to evaporation and
    5 to seepage. *)
Definition basin (name : string) : node :=
  {| name := name; volume := of_Z 1000; inflow := of_Z 40;
     evap := of_Z 10; avg_seep := Some (of_Z 5) |}.

(** An extraction of half the yearly maximum, with 4000 available from
    Mujib and 600 from Walah. *)
Definition zara_maeen : supply :=
  {| real_extraction := of_Z 50;
     yearly_max_groundwater_pumping := of_Z 100;
     mujib_annual_availability := of_Z 4000;
     walah_annual_availability := of_Z 600 |}.

Lemma balance_engine_touches_mujib_and_walah_witness :
  exists nodes',
    ReservoirBalanceEngine.run zara_maeen [basin "talal_res"; basin "walah_res"]
    = Ok nodes' /\
    volume <$> nodes' = [of_Z 1000; of_Z 725].
Proof.
  destruct (proj1 (balance_engine_touches_mujib_and_walah zara_maeen
                     [basin "talal_res"; basin "walah_res"]))
    as (nodes' & Hrun & _).
  - reflexivity.
  - intros n [<-|[<-|[]]] _; by eexists.
  - exists nodes'. split; [exact Hrun|].
    vm_compute in Hrun. injection Hrun as <-. reflexivity.
Defined.

End ReservoirBalanceFacts.

(** ** Loops *)

Module LoopFacts.

Lemma for_each_app {S A : Type} (l1 l2 : list A) (body : S -> A -> result S)
    (s : S) :
  for_each (l1 ++ l2) body s = (s' ← for_each l1 body s; for_each l2 body s').
Proof.
  revert s. induction l1 as [|x l1 IH]; intros s; cbn; [done|].
  destruct (body s x) as [s1|]; cbn; [apply IH|done].
Qed.

(** A loop that returns has kept every invariant of its body; the invariant
    may depend on the number of the items behind the loop. *)
Lemma for_each_indexed {S A : Type} (P : nat -> S -> Prop) (l : list A)
    (body : S -> A -> result S) (s s' : S) :
  for_each l body s = Ok s' ->
  P 0%nat s ->
  (forall j x s1 s2,
     l !! j = Some x -> P j s1 -> body s1 x = Ok s2 -> P (Datatypes.S j) s2) ->
  P (length l) s'.
Proof.
  revert P s. induction l as [|x l IH]; intros P s; cbn.
  - by intros [= <-].
  - destruct (body s x) as [s1|] eqn:E; [|discriminate]. cbn.
    intros Hrest H0 Hstep.
    apply (IH (fun j => P (Datatypes.S j)) s1 Hrest).
    + by apply (Hstep 0%nat x s s1).
    + intros j y s2 s3 Hj. by apply (Hstep (Datatypes.S j) y).
Qed.

Lemma for_each_invariant {S A : Type} (P : S -> Prop) (l : list A)
    (body : S -> A -> result S) (s s' : S) :
  for_each l body s = Ok s' ->
  P s ->
  (forall x s1 s2, In x l -> P s1 -> body s1 x = Ok s2 -> P s2) ->
  P s'.
Proof.
  intros Hrun H0 Hstep.
  apply (for_each_indexed (fun _ => P) l body s s' Hrun H0).
  intros j x s1 s2 Hj. apply Hstep.
  apply list_elem_of_In. by eapply list_elem_of_lookup_2.
Qed.

End LoopFacts.

(** ** CWA: the release forecast and the transfer forecasts *)

Module CWAForecastFacts.

Import PyDict CWAForecast LoopFacts.
Import GroundwaterSetupFacts.
Local Open Scope Q_scope.

(** The loop of [det_wehdah_to_kac_forecast] over the first [k] months. *)
Lemma wehdah_loop (wrf : list Pyomo.value) (releases : list Q) (k : nat) :
  (k <= length releases)%nat ->
  (forall m, (m < k)%nat -> wrf !! m = Some <$> releases !! m) ->
  forall forecast,
    for_each (seq 0 k)
      (fun forecast m =>
         v ← item wrf m;
         release ← number v;
         Ok (forecast ++ [release * (91 # 100)]))
      forecast
    = Ok (forecast
          ++ List.map (fun release => release * (91 # 100)) (take k releases)).
Proof.
  induction k as [|k IH]; intros Hk Hwrf forecast.
  - cbn. by rewrite app_nil_r.
  - rewrite seq_S, for_each_app, IH by (lia || (intros m Hm; apply Hwrf; lia)).
    cbn. unfold item, Pyomo.value, property in *. rewrite (Hwrf k) by lia.
    destruct (lookup_lt_is_Some_2 releases k) as [r Hr]; [lia|].
    rewrite Hr. cbn. rewrite (take_S_r _ _ _ Hr), map_app, app_assoc. done.
Qed.

(** The attributes with another forecast of the flows from Wehdah. *)
Definition with_wehdah_kac_forecast (a : attrs) (forecast : list Q) : attrs :=
  {| wehdah_kac_forecast := forecast;
     kac_to_zai_forecast := kac_to_zai_forecast a;
     kac_to_zai := kac_to_zai a;
     allocation_actual := allocation_actual a;
     concession_actual := concession_actual a;
     alpha_kac_actual := alpha_kac_actual a;
     extra_to_israel := extra_to_israel a;
     tiberias_kac_actual := tiberias_kac_actual a;
     kac_zai_actual := kac_zai_actual a;
     adasiya_syr_inflow := adasiya_syr_inflow a |}.

Lemma wehdah_forecast_Ok (wrf : list Pyomo.value) (releases : list Q)
    (a : attrs) :
  (12 <= length releases)%nat ->
  (forall m, (m < 12)%nat -> wrf !! m = Some <$> releases !! m) ->
  det_wehdah_to_kac_forecast wrf a
  = Ok (with_wehdah_kac_forecast a
          (List.map (fun release => release * (91 # 100)) (take 12 releases))).
Proof.
  intros Hlen Hwrf. unfold det_wehdah_to_kac_forecast.
  by rewrite (wehdah_loop _ releases 12).
Qed.

(** X10. [det_wehdah_to_kac_forecast] needs a release forecast of twelve
    months: from the releases of at least twelve months it makes the
    forecast of the twelve flows to the King Abdullah Canal, each 0.91 of
    the release of its month, and writes no other attribute; on a shorter
    list it raises [IndexError]. *)
Theorem wehdah_to_kac_forecast (releases : list Q) (a : attrs) :
  if (12 <=? length releases)%nat then
    det_wehdah_to_kac_forecast (List.map Some releases) a
    = Ok (with_wehdah_kac_forecast a
            (List.map (fun release => release * (91 # 100))
               (take 12 releases)))
    /\ length (List.map (fun release => release * (91 # 100))
                 (take 12 releases)) = 12%nat
  else
    det_wehdah_to_kac_forecast (List.map Some releases) a = Raise IndexError.
Proof.
  assert (Hwrf : forall m : nat,
            List.map Some releases !! m = Some <$> releases !! m).
  { intros m. apply list_lookup_fmap. }
  destruct (Nat.leb_spec 12 (length releases)) as [Hlen|Hlen].
  - split; [by apply wehdah_forecast_Ok|].
    rewrite length_map, length_take. lia.
  - unfold det_wehdah_to_kac_forecast.
    replace (seq 0 12)
      with (seq 0 (length releases) ++ seq (length releases) (12 - length releases))
      by (rewrite <- seq_app; f_equal; lia).
    rewrite for_each_app, (wehdah_loop _ releases (length releases)) by auto.
    destruct (12 - length releases)%nat as [|n] eqn:En; [lia|].
    cbn. unfold item, Pyomo.value, property in *.
    rewrite Hwrf, (lookup_ge_None_2 releases (length releases)) by lia.
    done.
Qed.

(** *** The release forecast that [set_allocation] leaves *)

(** The calendar month [k] months after [month]. *)
Definition months_ahead (month : Z) (k : nat) : Z :=
  if (month + Z.of_nat k <=? 12)%Z then (month + Z.of_nat k)%Z
  else (month + Z.of_nat k - 12)%Z.

Lemma rem_months_ahead (month : Z) :
  (1 <= month <= 12)%Z ->
  CWA.rem_months month = Ok (List.map (months_ahead month) (seq 0 12)).
Proof.
  intros H.
  assert (Hm : (month = 1 \/ month = 2 \/ month = 3 \/ month = 4 \/ month = 5
                \/ month = 6 \/ month = 7 \/ month = 8 \/ month = 9
                \/ month = 10 \/ month = 11 \/ month = 12)%Z) by lia.
  repeat destruct Hm as [->|Hm]; try subst month; reflexivity.
Qed.

Lemma product_single {A B : Type} (x : A) (l : list B) :
  CWA.product [x] l = List.map (pair x) l.
Proof.
  unfold CWA.product. cbn. rewrite app_nil_r.
  induction l as [|b l IH]; cbn; [done|]. by rewrite <- IH.
Qed.

Section Release.

Variable month : Z.
Variable inst : CWA.instance.
Hypothesis Hmonth : (1 <= month <= 12)%Z.

(** What the loop over [release] has written when it has passed [j] months
    of the horizon. *)
Definition released (j : nat) (acc : Q * CWA.state) : Prop :=
  length (CWA.wehdah_release_forecast (snd acc)) = 12%nat /\
  (forall k, (k < j)%nat ->
     exists q,
       CWA.val_release inst "wehdah_res" (months_ahead month k) = Some q /\
       CWA.wehdah_release_forecast (snd acc) !! k = Some (Some q)) /\
  ((0 < j)%nat ->
   CWA.wehdah_release (snd acc)
   = CWA.val_release inst "wehdah_res" month).

Lemma set_forecast_Ok (st st' : CWA.state) (i : Z) (v : Pyomo.value) :
  CWA.set_forecast st i v = Ok st' ->
  (0 <= i < Z.of_nat (length (CWA.wehdah_release_forecast st)))%Z /\
  CWA.wehdah_release_forecast st'
  = <[Z.to_nat i := v]> (CWA.wehdah_release_forecast st) /\
  CWA.wehdah_release st' = CWA.wehdah_release st.
Proof.
  unfold CWA.set_forecast.
  destruct (Z.ltb_spec i 0); [discriminate|].
  destruct (Z.leb_spec (Z.of_nat (length (CWA.wehdah_release_forecast st))) i);
    [discriminate|].
  cbn. intros [= <-]. cbn. repeat split; (done || lia).
Qed.

Lemma set_release_Ok (st st' : CWA.state) (name : string) (v : Pyomo.value) :
  CWA.set_release st name v = Ok st' ->
  CWA.wehdah_release_forecast st' = CWA.wehdah_release_forecast st /\
  CWA.wehdah_release st' = CWA.wehdah_release st.
Proof.
  unfold CWA.set_release.
  destruct (CWA.nodes_by_name st !! name); [|discriminate].
  by intros [= <-].
Qed.

Lemma set_volume_Ok (st st' : CWA.state) (name : string) (v : Pyomo.value) :
  CWA.set_volume st name v = Ok st' ->
  CWA.wehdah_release_forecast st' = CWA.wehdah_release_forecast st /\
  CWA.wehdah_release st' = CWA.wehdah_release st.
Proof.
  unfold CWA.set_volume.
  destruct (CWA.nodes_by_name st !! name); [|discriminate].
  by intros [= <-].
Qed.

Lemma released_insert (j : nat) (total total' : Q) (st st' : CWA.state)
    (q : Q) :
  (j < 12)%nat ->
  released j (total, st) ->
  CWA.val_release inst "wehdah_res" (months_ahead month j) = Some q ->
  CWA.wehdah_release_forecast st'
  = <[j := Some q]> (CWA.wehdah_release_forecast st) ->
  CWA.wehdah_release st'
  = (if Nat.eqb j 0 then Some q else CWA.wehdah_release st) ->
  released (S j) (total', st').
Proof.
  intros Hj (Hlen & Hpast & Hfirst) Hq Hf Hr. unfold released. cbn [snd] in *.
  rewrite Hf, length_insert. split; [done|]. split.
  - intros k Hk. destruct (Nat.eq_dec k j) as [->|Hne].
    + exists q. split; [done|]. apply list_lookup_insert_eq.
      unfold Pyomo.value in *. lia.
    + rewrite list_lookup_insert_ne by done. apply Hpast. lia.
  - intros _. rewrite Hr. destruct j as [|j]; cbn.
    + rewrite <- Hq. f_equal. unfold months_ahead.
      destruct (Z.leb_spec (month + Z.of_nat 0) 12); lia.
    + apply Hfirst. lia.
Qed.

Lemma load_release_released (st st' : CWA.state) :
  CWA.load_release month (List.map (months_ahead month) (seq 0 12)) inst st
  = Ok st' ->
  released 12 (0, st').
Proof.
  unfold CWA.load_release. rewrite length_map, length_seq.
  unfold CWA.storage_node. rewrite product_single.
  match goal with |- context [for_each ?l ?body ?s0] =>
    destruct (for_each l body s0) as [[total st1]|] eqn:E; [|discriminate];
    pose proof (for_each_indexed released l body s0 (total, st1) E) as Hinv
  end.
  cbn. intros [= <-].
  rewrite !length_map, length_seq in Hinv.
  destruct Hinv as (H1 & H2 & H3); [| |by repeat split].
  - split; [done|]. split; [intros k Hk|intros Hk]; cbn in Hk; lia.
  - clear E. intros j x [t1 s1] [t2 s2] Hj Hp.
    rewrite list_lookup_fmap, list_lookup_fmap in Hj.
    destruct (seq 0 12 !! j) as [j'|] eqn:Ej; [|discriminate].
    apply lookup_seq in Ej as [-> Hlt]. cbn in Hj. injection Hj as <-.
    cbn [fst snd].
    destruct (CWA.val_release inst "wehdah_res" (months_ahead month j))
      as [q|] eqn:Eq; [|discriminate]. cbn.
    assert (Hoff : months_ahead month j = month /\ j = 0%nat \/
                   months_ahead month j <> month /\ j <> 0%nat /\
                   ((0 < months_ahead month j - month)%Z /\
                    Z.to_nat (months_ahead month j - month) = j \/
                    (months_ahead month j - month <= 0)%Z /\
                    Z.to_nat (12 - month + months_ahead month j) = j)).
    { unfold months_ahead.
      destruct (Z.leb_spec (month + Z.of_nat j) 12); lia. }
    destruct Hoff as [[Hm ->]|(Hm & Hj0 & Hoff)].
    + rewrite Hm, Z.eqb_refl.
      destruct (CWA.set_release s1 "wehdah_res" (Some q)) as [s3|] eqn:E3;
        [|discriminate]. cbn.
      apply set_release_Ok in E3 as [E3 _].
      match goal with |- context [CWA.set_forecast ?s 0 ?v] =>
        destruct (CWA.set_forecast s 0 v) as [s4|] eqn:E4; [|discriminate]
      end.
      cbn. intros [= <- <-].
      apply set_forecast_Ok in E4 as (_ & E4 & E5). cbn in E4, E5.
      apply (released_insert 0 t1 _ s1 s4 q);
        [lia|done|done|by rewrite E4, E3|done].
    + destruct (Z.eqb_spec (months_ahead month j) month) as [|_]; [done|].
      destruct Hoff as [[Hpos Hidx]|[Hneg Hidx]].
      * destruct (Z.ltb_spec 0 (months_ahead month j - month)); [|lia].
        match goal with |- context [CWA.set_forecast ?s ?i ?v] =>
          destruct (CWA.set_forecast s i v) as [s4|] eqn:E4; [|discriminate]
        end.
        cbn. intros [= <- <-].
        apply set_forecast_Ok in E4 as (_ & E4 & E5). rewrite Hidx in E4.
        apply (released_insert j t1 _ s1 s4 q); [lia|done|done|done|].
        destruct j; [done|]. by rewrite E5.
      * destruct (Z.ltb_spec 0 (months_ahead month j - month)); [lia|].
        match goal with |- context [CWA.set_forecast ?s ?i ?v] =>
          destruct (CWA.set_forecast s i v) as [s4|] eqn:E4; [|discriminate]
        end.
        cbn. intros [= <- <-].
        apply set_forecast_Ok in E4 as (_ & E4 & E5). rewrite Hidx in E4.
        apply (released_insert j t1 _ s1 s4 q); [lia|done|done|done|].
        destruct j; [done|]. by rewrite E5.
Qed.

Lemma load_storage_forecast (idx : nat) (rem : list Z) (st st' : CWA.state) :
  CWA.load_storage idx month rem inst st = Ok st' ->
  CWA.wehdah_release_forecast st' = CWA.wehdah_release_forecast st /\
  CWA.wehdah_release st' = CWA.wehdah_release st.
Proof.
  unfold CWA.load_storage.
  match goal with |- context [for_each ?l ?body ?s0] =>
    destruct (for_each l body s0) as [[total st1]|] eqn:E; [|discriminate];
    pose proof (for_each_invariant
      (fun acc : Q * CWA.state =>
         CWA.wehdah_release_forecast (snd acc) = CWA.wehdah_release_forecast st
         /\ CWA.wehdah_release (snd acc) = CWA.wehdah_release st)
      l body s0 (total, st1) E) as Hinv
  end.
  cbn. intros [= <-]. apply Hinv; [done|].
  intros x [t1 s1] [t2 s2] _ [Hf Hr]. cbn [fst snd] in *.
  destruct (Pyomo.add_value t1 _); [|discriminate]. cbn.
  match goal with |- context [if ?b then _ else _] => destruct b end.
  - destruct (CWA.set_volume s1 _ _) as [s3|] eqn:E3; [|discriminate].
    cbn. intros [= <- <-]. apply set_volume_Ok in E3 as [-> ->]. done.
  - by intros [= <- <-].
Qed.

End Release.

(** X11. The release forecast that [set_allocation] leaves is indexed by
    the months ahead. When the method returns at a timestep of calendar
    month [month], [wehdah_release_forecast] has twelve entries, entry [k]
    is the release that the last instance of the cascade holds for the
    calendar month [k] months after the current one, and [wehdah_release]
    is the release of the current month, entry 0. The forecast of the
    flows from Wehdah to the canal can then be made without an exception:
    it is 0.91 of each of these twelve releases. *)
Theorem release_forecast_by_months_ahead (idx : nat) (month : Z)
    (solve : Pyomo.solver -> Pyomo.outcome CWA.instance) (st st' : CWA.state) :
  (1 <= month <= 12)%Z ->
  CWA.set_allocation idx month solve st = Ok st' ->
  exists results inst releases,
    Pyomo.final (CWA.solve_cascade solve) = Ok (results, inst) /\
    CWA.rem_months month = Ok (List.map (months_ahead month) (seq 0 12)) /\
    length releases = 12%nat /\
    CWA.wehdah_release_forecast st' = List.map Some releases /\
    (forall k, (k < 12)%nat ->
       CWA.val_release inst "wehdah_res" (months_ahead month k)
       = releases !! k) /\
    CWA.wehdah_release st' = releases !! 0%nat /\
    forall a,
      det_wehdah_to_kac_forecast (CWA.wehdah_release_forecast st') a
      = Ok (with_wehdah_kac_forecast a
              (List.map (fun release => release * (91 # 100)) releases)).
Proof.
  intros Hmonth E2. unfold CWA.set_allocation in E2.
  rewrite (rem_months_ahead month Hmonth) in E2.
  cbn [mbind result_bind] in E2.
  destruct (Pyomo.final (CWA.solve_cascade solve)) as [[results inst]|];
    [|discriminate].
  unfold CWA.load_results in E2.
  destruct (CWA.load_release month _ inst st) as [st1|] eqn:E1;
    [|discriminate].
  cbn [mbind result_bind] in E2.
  apply load_release_released in E1 as (Hlen & Hval & Hfirst); [|done].
  apply load_storage_forecast in E2 as [Hf Hr]. cbn [snd] in *.
  rewrite <- Hf in Hlen, Hval. rewrite <- Hr in Hfirst. clear Hf Hr st1.
  unfold Pyomo.value in *.
  set (forecast := CWA.wehdah_release_forecast st') in *.
  set (releases := List.map (default 0) forecast).
  assert (Hmap : forecast = List.map Some releases).
  { apply list_eq. intros k. subst releases.
    rewrite !list_lookup_fmap.
    destruct (Nat.lt_ge_cases k 12) as [Hk|Hk].
    - destruct (Hval k Hk) as (q & _ & Hq).
      unfold Pyomo.value in *. by rewrite Hq.
    - unfold Pyomo.value in *. rewrite lookup_ge_None_2 by lia. done. }
  assert (Hrel : length releases = 12%nat).
  { subst releases. by rewrite length_map. }
  assert (Hk : forall k, (k < 12)%nat ->
    CWA.val_release inst "wehdah_res" (months_ahead month k) = releases !! k).
  { intros k Hk. destruct (Hval k Hk) as (q & -> & Hq).
    rewrite Hmap, list_lookup_fmap in Hq.
    destruct (releases !! k); cbn in Hq; congruence. }
  exists results, inst, releases. repeat split; try done.
  - by apply rem_months_ahead.
  - rewrite Hfirst by lia. rewrite <- (Hk 0%nat) by lia. f_equal.
    unfold months_ahead. destruct (Z.leb_spec (month + Z.of_nat 0) 12); lia.
  - intros a. rewrite Hmap.
    rewrite (wehdah_forecast_Ok _ releases a); [|lia|].
    + by rewrite firstn_all2 by lia.
    + intros m _. apply list_lookup_fmap.
Qed.

(** November of a later year: the instance holds, for every month, a
    release of as many m3 as the number of the month. *)
Definition month_numbers : CWA.instance :=
  {| CWA.val_release := fun _ m => Some (inject_Z m);
     CWA.val_storage := fun _ _ => Some 0 |}.

Definition solved (s : Pyomo.solver) : Pyomo.outcome CWA.instance :=
  Pyomo.Returns
    {| Pyomo.status := Pyomo.ok;
       Pyomo.termination_condition := Pyomo.optimal |}
    month_numbers.

Definition wehdah_only : CWA.state :=
  {| CWA.nodes_by_name :=
       {["wehdah_res" := {| CWA.volume := Some 50; CWA.release := Some 0 |}]};
     CWA.wehdah_release := None;
     CWA.wehdah_release_forecast := [] |}.

Lemma release_forecast_by_months_ahead_witness :
  exists st',
    CWA.set_allocation 3 11 solved wehdah_only = Ok st' /\
    CWA.wehdah_release st' = Some 11 /\
    CWA.wehdah_release_forecast st' !! 2%nat = Some (Some 1) /\
    length (CWA.wehdah_release_forecast st') = 12%nat.
Proof.
  destruct (CWA.set_allocation 3 11 solved wehdah_only) as [st'|] eqn:E;
    [|vm_compute in E; discriminate].
  exists st'. split; [reflexivity|].
  destruct (release_forecast_by_months_ahead 3 11 solved wehdah_only st'
              ltac:(lia) E)
    as (results & inst & releases & Hfin & _ & Hlen & Hmap & Hk & Hfirst & _).
  vm_compute in Hfin. injection Hfin as _ <-.
  split; [|split].
  - rewrite Hfirst, <- (Hk 0%nat) by lia. reflexivity.
  - rewrite Hmap, list_lookup_fmap, <- (Hk 2%nat) by lia. reflexivity.
  - by rewrite Hmap, length_map.
Defined.

(** *** The deliveries under the agreement *)

Lemma index_In {A : Type} (l : list A) (i : Z) (x : A) :
  index l i = Ok x -> In x l.
Proof.
  unfold index, item. intros H. apply list_elem_of_In.
  destruct (0 <=? i)%Z;
    [|destruct (- Z.of_nat (length l) <=? i)%Z; [|discriminate]];
    match type of H with context [l !! ?k] =>
      destruct (l !! k) as [y|] eqn:E; [|discriminate];
      injection H as <-; by eapply list_elem_of_lookup_2
    end.
Qed.

Lemma concession_target_nonneg (c : Q) : In c concession_target -> 0 <= c.
Proof.
  unfold concession_target. cbn.
  intros H; repeat destruct H as [<-|H]; try done; unfold Qle; cbn; lia.
Qed.

Lemma max0_nonneg (x : Q) : 0 <= max0 x.
Proof.
  unfold max0. destruct (lt 0 x) eqn:E; [|lra]. apply lt_spec in E. lra.
Qed.

(** X12. The accounting of the flow at Adasiya under the agreement, in a
    dynamic run. The inflow is the release from Wehdah of the current month
    plus the Syrian inflow. The allocation to Israel is booked at its
    target whatever the inflow; the concession is what the inflow leaves
    above the allocation, between 0 and its target, so that the two
    together do not exceed an inflow that covers the allocation. Water is
    left for Jordan only when both targets are met in full: it goes to the
    canal up to the 2015 transfer of the month, and what is above that goes
    to Israel as well, so that the four deliveries add up to the inflow.
    When nothing is left, or less than the 2015 transfer, the attributes
    that are not written keep the values they had before the call. *)
Theorem agreement_accounting (env : environment)
    (wehdah_release_forecast : list Pyomo.value) (a a' : attrs) :
  cwa_dynamic env = 1%Z ->
  det_kac_to_zai_forecast env wehdah_release_forecast a = Ok a' ->
  exists release syr allocation concession,
    wehdah_release_forecast !! 0%nat = Some (Some release) /\
    adasiya env (current_year env) (current_month env) = Some syr /\
    index allocation_target (current_month env - 1) = Ok allocation /\
    index concession_target (current_month env - 1) = Ok concession /\
    adasiya_syr_inflow a' = syr /\
    allocation_actual a' = allocation /\
    0 <= concession_actual a' <= concession /\
    (allocation <= release + syr ->
     allocation + concession_actual a' <= release + syr) /\
    0 <= tiberias_kac_actual a' /\
    kac_zai_actual a'
    = (2685 # 10000) * (tiberias_kac_actual a' + alpha_kac_actual a')
      + 2000000 /\
    (release + syr - allocation - concession_actual a' <= 0 ->
     alpha_kac_actual a' = alpha_kac_actual a /\
     extra_to_israel a' = extra_to_israel a) /\
    (0 < release + syr - allocation - concession_actual a' ->
     concession_actual a' = concession /\
     exists w y,
       getitem2 (cwa_transfer_2015 env) "wehdah_kac_n" (current_month env)
       = Ok w /\
       getitem2 (cwa_transfer_2015 env) "yarmouk_kac_n" (current_month env)
       = Ok y /\
       alpha_kac_actual a' <= w + y /\
       if Qle_bool (w + y) (release + syr - allocation - concession)
       then alpha_kac_actual a' = w + y /\
            allocation + concession + alpha_kac_actual a' + extra_to_israel a'
            == release + syr
       else extra_to_israel a' = extra_to_israel a /\
            allocation + concession + alpha_kac_actual a' == release + syr).
Proof.
  intros Hdyn. unfold det_kac_to_zai_forecast. rewrite Hdyn. cbn [Z.eqb Pos.eqb].
  match goal with |- context [for_each ?l ?body ?s0] =>
    destruct (for_each l body s0) as [forecast|]; [|discriminate]
  end.
  cbn [mbind result_bind]. unfold deliveries, adasiya_value.
  destruct (adasiya env (current_year env) (current_month env)) as [syr|];
    [|discriminate].
  cbn [mbind result_bind]. unfold item at 1.
  destruct (wehdah_release_forecast !! 0%nat) as [[release|]|];
    [|discriminate..].
  cbn [mbind result_bind number].
  destruct (index allocation_target (current_month env - 1))
    as [allocation|]; [|discriminate].
  destruct (index concession_target (current_month env - 1))
    as [concession|] eqn:Ec; [|discriminate].
  destruct (index tiberias_target (current_month env - 1))
    as [tiberias|]; [|discriminate].
  cbn [mbind result_bind].
  pose proof (concession_target_nonneg _ (index_In _ _ _ Ec)) as Hc.
  set (conc := if Qle_bool (release + syr) (allocation + concession)
               then if Qle_bool (release + syr) allocation then 0
                    else release + syr - allocation
               else concession).
  assert (Hconc : 0 <= conc <= concession /\
                  (allocation <= release + syr ->
                   allocation + conc <= release + syr) /\
                  (release + syr - allocation - conc <= 0 \/
                   0 < release + syr - allocation - conc /\ conc = concession)).
  { subst conc.
    destruct (Qle_bool (release + syr) (allocation + concession)) eqn:E1;
      [apply Qle_bool_iff in E1|apply Qle_bool_false in E1].
    - destruct (Qle_bool (release + syr) allocation) eqn:E2;
        [apply Qle_bool_iff in E2|apply Qle_bool_false in E2];
        (split; [lra|split; [lra|left; lra]]).
    - split; [lra|split; [lra|right; split; [lra|done]]]. }
  clearbody conc. destruct Hconc as (Hbound & Habove & Hleft).
  destruct (lt 0 (release + syr - allocation - conc)) eqn:Erem;
    [apply lt_spec in Erem|apply lt_false in Erem].
  - destruct Hleft as [Hleft|[_ ->]]; [lra|].
    destruct (getitem2 (cwa_transfer_2015 env) "wehdah_kac_n"
                (current_month env)) as [w|]; [|discriminate].
    destruct (getitem2 (cwa_transfer_2015 env) "yarmouk_kac_n"
                (current_month env)) as [y|]; [|discriminate].
    cbn [mbind result_bind].
    destruct (Qle_bool (w + y) (release + syr - allocation - concession))
      eqn:Ecap; intros [= <-]; cbn -[Qle_bool];
      exists release, syr, allocation, concession;
      (split_and!; [done..|lra|lra|done|apply max0_nonneg|done|
                    intros; lra|]);
      intros _; (split; [done|]); exists w, y; rewrite Ecap;
      [apply Qle_bool_iff in Ecap|apply Qle_bool_false in Ecap];
      (split_and!; [done|done|lra|done|ring]).
  - intros [= <-]. cbn.
    exists release, syr, allocation, concession.
    split_and!; [done..|lra|lra|done|apply max0_nonneg|done|done|
                 intros; lra].
Qed.

(** One January: a release of 5 million m3 and a Syrian inflow of 1
    million m3 at Adasiya, and a 2015 transfer to the canal of 1 million
    m3. *)

Definition one_january : environment :=
  {| cwa_dynamic := 1;
     cwa_waj_factor := 1;
     current_month := 1;
     current_year := 2020;
     current_timestep_idx := 0;
     adasiya := fun _ _ => Some 1000000;
     cwa_transfer_averages :=
       {["yarmouk_kac_n" := gset_to_gmap 3000000 (list_to_set (range 1 13));
         "tiberias_kac_n" := gset_to_gmap 2000000 (list_to_set (range 1 13));
         "mukheiba_kac_n" := gset_to_gmap 1000000 (list_to_set (range 1 13))]};
     cwa_transfer_2015 :=
       {["wehdah_kac_n" := {[1%Z := 600000]};
         "yarmouk_kac_n" := {[1%Z := 400000]}]};
     concession_history := [] |}.

Definition no_attrs : attrs :=
  {| wehdah_kac_forecast := List.repeat 4550000 12;
     kac_to_zai_forecast := [];
     kac_to_zai := 0;
     allocation_actual := 0;
     concession_actual := 0;
     alpha_kac_actual := 0;
     extra_to_israel := 0;
     tiberias_kac_actual := 0;
     kac_zai_actual := 0;
     adasiya_syr_inflow := 0 |}.


Lemma agreement_accounting_witness :
  exists a',
    det_kac_to_zai_forecast one_january (List.repeat (Some 5000000) 12) no_attrs
    = Ok a' /\
    allocation_actual a' == 1910000 /\
    0 <= concession_actual a' /\
    0 <= tiberias_kac_actual a'.
Proof.
  destruct (det_kac_to_zai_forecast one_january (List.repeat (Some 5000000) 12)
              no_attrs) as [a'|] eqn:E; [|vm_compute in E; discriminate].
  exists a'. split; [reflexivity|].
  destruct (agreement_accounting one_january _ no_attrs a' eq_refl E)
    as (release & syr & allocation & concession & _ & _ & Ha & _ & _ & Haa
        & [Hc _] & _ & Ht & _).
  vm_compute in Ha. injection Ha as <-.
  split; [rewrite Haa; vm_compute; reflexivity|]. split; assumption.
Defined.


End CWAForecastFacts.

(** ** CWA: the forecast of the transfers from the canal to Zai *)

Module CWATransferFacts.

Import PyDict CWAForecast LoopFacts.
Local Open Scope Q_scope.

(** The transfer that the forecast books for a supply of the canal. *)
Definition transfer_of (env : environment) (supply : Q) : Q :=
  ((2685 # 10000) * supply + 2000000) * cwa_waj_factor env.

(** [deliveries] writes neither forecast. *)
Lemma deliveries_keeps_forecasts (env : environment)
    (wrf : list Pyomo.value) (a a' : attrs) :
  deliveries env wrf a = Ok a' ->
  kac_to_zai_forecast a' = kac_to_zai_forecast a /\
  wehdah_kac_forecast a' = wehdah_kac_forecast a /\
  kac_to_zai a' = kac_to_zai a.
Proof.
  unfold deliveries.
  repeat match goal with
  | |- (mbind _ ?c = Ok _) -> _ =>
      let E := fresh "E" in destruct c eqn:E; [|discriminate];
      cbn [mbind result_bind]
  end.
  by intros [= <-].
Qed.

(** The loop of [det_kac_to_zai_forecast]: entry [m] is the transfer for
    the supply of the month [m] ahead. *)
Lemma transfer_loop (env : environment) (a : attrs) (forecast : list Q) :
  for_each (seq 0 12)
    (fun forecast m =>
       total_kac_supply ← total_kac_supply env a m;
       Ok (forecast ++ [(((2685 # 10000) * total_kac_supply) + 2000000)
                        * cwa_waj_factor env]))
    [] = Ok forecast ->
  length forecast = 12%nat /\
  forall m, (m < 12)%nat ->
    exists supply,
      total_kac_supply env a m = Ok supply /\
      forecast !! m = Some (transfer_of env supply).
Proof.
  intros Hrun.
  apply (for_each_indexed
           (fun k forecast =>
              length forecast = k /\
              forall m, (m < k)%nat ->
                exists supply,
                  total_kac_supply env a m = Ok supply /\
                  forecast !! m = Some (transfer_of env supply))) in Hrun.
  - by rewrite length_seq in Hrun.
  - split; [done|]. intros m Hm. lia.
  - intros j x s1 s2 Hj [Hlen Hs1] Hbody.
    apply lookup_seq in Hj as [-> _]. cbn [Nat.add] in Hbody.
    destruct (total_kac_supply env a j) as [supply|] eqn:Es; [|discriminate].
    cbn in Hbody. injection Hbody as <-. split.
    + rewrite length_app. cbn. lia.
    + intros m Hm. destruct (decide (m = j)) as [->|Hne].
      * exists supply. split; [done|].
        rewrite lookup_app_r by lia. by rewrite Hlen, Nat.sub_diag.
      * destruct (Hs1 m) as (s & Hs & Hl); [lia|].
        exists s. split; [done|]. rewrite lookup_app_l by lia. done.
Qed.

(** X13. A run that is not dynamic has no transfer to Zai: when
    [cwa_dynamic] is not 1, the forecast engine of the CWA returns, leaves
    [kac_to_zai_forecast] empty and writes nothing else, and the delivery
    engine, which reads the first entry of that forecast, raises
    [IndexError]. *)
Theorem static_run_has_no_transfer (env : environment)
    (solve : Pyomo.solver -> Pyomo.outcome CWA.instance)
    (st : CWA.state * attrs) :
  cwa_dynamic env <> 1%Z ->
  CWAForecastEngine.run env solve st
  = Ok (fst st, with_kac_to_zai_forecast (snd st) []) /\
  CWADeliveryEngine.run (fst st, with_kac_to_zai_forecast (snd st) [])
  = Raise IndexError.
Proof.
  intros Hstatic. apply Z.eqb_neq in Hstatic. split; [|done].
  unfold CWAForecastEngine.run, det_kac_to_zai_forecast.
  by rewrite Hstatic.
Qed.

(** The environment of one January, as a static run. *)
Definition static_january : environment :=
  {| cwa_dynamic := 0;
     cwa_waj_factor := 1;
     current_month := 1;
     current_year := 2020;
     current_timestep_idx := 0;
     adasiya := fun _ _ => Some 1000000;
     cwa_transfer_averages := ∅;
     cwa_transfer_2015 := ∅;
     concession_history := [] |}.

Lemma static_run_has_no_transfer_witness :
  CWAForecastEngine.run static_january CWAForecastFacts.solved
    (CWAForecastFacts.wehdah_only, CWAForecastFacts.no_attrs)
  = Ok (CWAForecastFacts.wehdah_only, CWAForecastFacts.no_attrs) /\
  CWADeliveryEngine.run
    (CWAForecastFacts.wehdah_only, CWAForecastFacts.no_attrs)
  = Raise IndexError.
Proof.
  apply (static_run_has_no_transfer static_january CWAForecastFacts.solved
           (CWAForecastFacts.wehdah_only, CWAForecastFacts.no_attrs)).
  cbn. lia.
Defined.

(** X14. The forecast of the transfers to Zai in a dynamic run. When
    [det_kac_to_zai_forecast] returns, [kac_to_zai_forecast] has twelve
    entries; entry [m] is [(0.2685 * supply + 2e6) * cwa_waj_factor] for
    the supply of the canal [m] months ahead, and the forecast of the
    flows from Wehdah and [kac_to_zai] are not written. The supply of the
    current month is the flow from Wehdah, the Syrian inflow at Adasiya
    and the average flows from Tiberias and Mukheiba; [determine_transfers]
    then returns and books the transfer for that supply as [kac_to_zai]. *)
Theorem transfer_forecast (env : environment)
    (wehdah_release_forecast : list Pyomo.value) (a a' : attrs) :
  cwa_dynamic env = 1%Z ->
  det_kac_to_zai_forecast env wehdah_release_forecast a = Ok a' ->
  length (kac_to_zai_forecast a') = 12%nat /\
  wehdah_kac_forecast a' = wehdah_kac_forecast a /\
  kac_to_zai a' = kac_to_zai a /\
  (forall m, (m < 12)%nat ->
     exists supply,
       total_kac_supply env a m = Ok supply /\
       kac_to_zai_forecast a' !! m = Some (transfer_of env supply)) /\
  exists wehdah syr tiberias mukheiba a'',
    wehdah_kac_forecast a !! 0%nat = Some wehdah /\
    adasiya env (current_year env) (current_month env) = Some syr /\
    getitem2 (cwa_transfer_averages env) "tiberias_kac_n" (current_month env)
    = Ok tiberias /\
    getitem2 (cwa_transfer_averages env) "mukheiba_kac_n" (current_month env)
    = Ok mukheiba /\
    determine_transfers a' = Ok a'' /\
    kac_to_zai a'' = transfer_of env (wehdah + syr + tiberias + mukheiba) /\
    kac_to_zai_forecast a'' = kac_to_zai_forecast a'.
Proof.
  intros Hdyn. unfold det_kac_to_zai_forecast. rewrite Hdyn.
  cbn [Z.eqb Pos.eqb].
  match goal with |- context [for_each ?l ?body ?s0] =>
    destruct (for_each l body s0) as [forecast|] eqn:Hloop; [|discriminate]
  end.
  cbn [mbind result_bind]. intros Hdel.
  apply deliveries_keeps_forecasts in Hdel as (Hf & Hw & Hk).
  cbn in Hf, Hw, Hk.
  apply (transfer_loop env a forecast) in Hloop as [Hlen Hentries].
  rewrite Hf. split; [done|]. split; [done|]. split; [done|].
  split; [done|].
  destruct (Hentries 0%nat) as (supply & Hs & H0); [lia|].
  unfold total_kac_supply in Hs. cbn [Nat.eqb Z.of_nat] in Hs.
  rewrite Z.add_0_r in Hs. unfold item, adasiya_value in Hs.
  destruct (wehdah_kac_forecast a !! 0%nat) as [wehdah|]; [|discriminate].
  cbn [mbind result_bind] in Hs.
  destruct (adasiya env (current_year env) (current_month env)) as [syr|];
    [|discriminate].
  cbn [mbind result_bind] in Hs.
  destruct (getitem2 (cwa_transfer_averages env) "tiberias_kac_n"
              (current_month env)) as [tiberias|]; [|discriminate].
  destruct (getitem2 (cwa_transfer_averages env) "mukheiba_kac_n"
              (current_month env)) as [mukheiba|]; [|discriminate].
  cbn in Hs. injection Hs as <-.
  exists wehdah, syr, tiberias, mukheiba.
  unfold determine_transfers, item. rewrite Hf, H0. cbn.
  eexists. repeat split; done.
Qed.

Lemma transfer_forecast_witness :
  exists a',
    det_kac_to_zai_forecast CWAForecastFacts.one_january
      (List.repeat (Some 5000000) 12) CWAForecastFacts.no_attrs = Ok a' /\
    length (kac_to_zai_forecast a') = 12%nat /\
    kac_to_zai_forecast a' !! 0%nat
    = Some (transfer_of CWAForecastFacts.one_january
              (4550000 + 1000000 + 2000000 + 1000000)).
Proof.
  destruct (det_kac_to_zai_forecast CWAForecastFacts.one_january
              (List.repeat (Some 5000000) 12) CWAForecastFacts.no_attrs)
    as [a'|] eqn:E; [|vm_compute in E; discriminate].
  exists a'. split; [reflexivity|].
  destruct (transfer_forecast CWAForecastFacts.one_january _
              CWAForecastFacts.no_attrs a' eq_refl E)
    as (Hlen & _ & _ & Hentries & _).
  split; [exact Hlen|].
  destruct (Hentries 0%nat ltac:(lia)) as (supply & Hs & H0).
  vm_compute in Hs. injection Hs as <-. rewrite H0. reflexivity.
Defined.

End CWATransferFacts.

(** ** JordanInstitution: the levels gathered from the nodes *)

Module InstitutionLevelFacts.

Import JordanInstitution.

(** The nodes of one component type that carry one name. *)
Definition named (type nm : string) (nodes : list node) : list node :=
  List.filter
    (fun n => String.eqb (component_type n) type && String.eqb (name n) nm)
    nodes.

Lemma gather_lookup (type : string) (read : node -> Q) (nodes : list node)
    (levels : gmap string Q) (nm : string) :
  fold_left
    (fun levels n =>
       if String.eqb (component_type n) type
       then <[name n := read n]> levels
       else levels)
    nodes levels !! nm
  = match list.last (named type nm nodes) with
    | Some n => Some (read n)
    | None => levels !! nm
    end.
Proof.
  revert levels. induction nodes as [|n nodes IH]; intros levels; [done|].
  cbn [fold_left]. rewrite IH. unfold named. cbn [List.filter].
  destruct (String.eqb (component_type n) type); cbn [andb].
  - destruct (String.eqb_spec (name n) nm) as [<-|Hne].
    + rewrite last_cons. rewrite lookup_insert_eq.
      by destruct (list.last _).
    + by rewrite lookup_insert_ne.
  - done.
Qed.

(** X15. The levels that an institution gathers. After [get_gw_levels],
    [gw_levels] holds under a name the head of the last groundwater node
    of that name among the nodes of the institution, and no entry for a
    name that no groundwater node carries; [get_res_levels] does the same
    with the level of the reservoirs. A node of another component type
    never contributes. *)
Theorem levels_of_the_last_node (nodes : list node) (nm : string) :
  get_gw_levels nodes !! nm = head <$> list.last (named "Groundwater" nm nodes) /\
  get_res_levels nodes !! nm = level <$> list.last (named "Reservoir" nm nodes).
Proof.
  unfold get_gw_levels, get_res_levels. rewrite !gather_lookup.
  split; by destruct (list.last _).
Qed.

End InstitutionLevelFacts.

(** ** WAJ: the forecasts loaded from the solved instance *)

Module WAJLoadFacts.

Import Pyomo WAJ LoopFacts.

(** What a loop of pure writes leaves: every item has had its write, and
    a write keeps what the writes before it have established. *)
Lemma fold_left_each {S A : Type} (Q : A -> S -> Prop) (f : S -> A -> S)
    (l : list A) (s : S) :
  (forall s x, Q x (f s x)) ->
  (forall s x y, Q y s -> Q y (f s x)) ->
  forall x, In x l -> Q x (fold_left f l s).
Proof.
  intros Hhere Hkeep.
  assert (Hall : forall l s0 x, Q x s0 -> Q x (fold_left f l s0)).
  { clear l s. induction l as [|c l IH]; intros s0 x H0; cbn; [done|].
    apply IH. by apply Hkeep. }
  revert s. induction l as [|a l IH]; intros s x; cbn; [done|].
  intros [->|Hx]; [apply Hall, Hhere|by apply IH].
Qed.

Lemma fold_left_keeps {S A : Type} (P : S -> Prop) (f : S -> A -> S)
    (l : list A) (s : S) :
  (forall s x, In x l -> P s -> P (f s x)) -> P s -> P (fold_left f l s).
Proof.
  revert s. induction l as [|a l IH]; intros s Hkeep Hs; cbn; [done|].
  apply IH; [|apply Hkeep; [by left|done]].
  intros s1 x Hx. apply Hkeep. by right.
Qed.

Lemma for_each_keeps {S A : Type} (P : S -> Prop) (l : list A)
    (body : S -> A -> result S) (s s' : S) :
  for_each l body s = Ok s' ->
  (forall s x s', In x l -> body s x = Ok s' -> P s -> P s') ->
  P s -> P s'.
Proof.
  intros Hrun Hkeep Hs.
  apply (for_each_invariant P l body s s' Hrun Hs).
  intros x s1 s2 Hx H1 Hb. by apply (Hkeep s1 x s2).
Qed.

(** A loop whose body may raise and that returns: every item has had its
    write, as long as the loop keeps what the writes need ([R]). *)
Lemma for_each_each {S A : Type} (Q : A -> S -> Prop) (R : S -> Prop)
    (l : list A) (body : S -> A -> result S) (s s' : S) :
  for_each l body s = Ok s' ->
  R s ->
  (forall s x s', In x l -> body s x = Ok s' -> R s ->
     R s' /\ Q x s' /\ forall y, Q y s -> Q y s') ->
  forall x, In x l -> Q x s'.
Proof.
  revert s. induction l as [|a l IH]; intros s Hrun HR Hstep x; cbn; [done|].
  cbn in Hrun. destruct (body s a) as [s1|] eqn:E; [|discriminate].
  cbn in Hrun.
  destruct (Hstep s a s1 (or_introl eq_refl) E HR) as (H1 & Hq & _).
  assert (Hrest : forall s x s', In x l -> body s x = Ok s' -> R s ->
            R s' /\ Q x s' /\ forall y, Q y s -> Q y s').
  { intros s2 y s3 Hy. apply Hstep. by right. }
  intros [->|Hx]; [|by apply (IH s1)].
  apply (for_each_keeps (fun st => R st /\ Q x st) l body s1 s' Hrun);
    [|done].
  intros s2 y s3 Hy Hb [HR2 HQ2].
  destruct (Hrest s2 y s3 Hy Hb HR2) as (H3 & _ & Hk). split; [done|].
  by apply Hk.
Qed.

Section Loaded.

Variable ix : index_sets.
Variable demand_forecast : gmap (string * Z) Q.
Variable inst : instance.

(** The entries of a governorate and a month carry the values of the
    instance. *)
Definition pumped (st : state) (k : string * Z) : Prop :=
  pumping_forecast st !! k = Some (val_P inst (fst k) (snd k)).

Definition deficits (st : state) (k : string * Z) : Prop :=
  deficit_forecast st !! k = Some (val_deficit inst (fst k) (snd k)).

Definition loaded (st : state) (k : string * Z) : Prop :=
  pumped st k /\ deficits st k /\
  exists demand deficit,
    demand_forecast !! k = Some demand /\
    val_deficit inst (fst k) (snd k) = Some deficit /\
    allocation_forecast st !! k = Some (demand - deficit)%Q.

(** No allocation is booked under the key. *)
Definition unallocated (st : state) (k : string * Z) : Prop :=
  allocation_forecast st !! k = None.

Lemma set_pumping_spec (st st' : state) (name : string) (month : Z) :
  st' = set_pumping_forecast inst st name month ->
  pumped st' (name, month) /\
  forall k, (pumped st k -> pumped st' k) /\
            (deficits st k -> deficits st' k) /\
            (loaded st k -> loaded st' k) /\
            (unallocated st k -> unallocated st' k).
Proof.
  assert (Hp : forall k, pumped st k ->
            pumped (set_pumping_forecast inst st name month) k).
  { intros k Hk. unfold pumped in *. cbn.
    destruct (decide (k = (name, month))) as [->|Hne].
    - by rewrite lookup_insert_eq.
    - by rewrite lookup_insert_ne. }
  intros ->. split.
  - unfold pumped. cbn. by rewrite lookup_insert_eq.
  - intros k. split; [apply Hp|]. split; [done|]. split; [|done].
    intros (H1 & H2 & H3). split; [by apply Hp|]. by split.
Qed.

Lemma set_deficit_spec (st st' : state) (name : string) (month : Z) :
  st' = set_deficit_forecast inst st name month ->
  deficits st' (name, month) /\
  forall k, (pumped st k -> pumped st' k) /\
            (deficits st k -> deficits st' k) /\
            (loaded st k -> loaded st' k) /\
            (unallocated st k -> unallocated st' k).
Proof.
  assert (Hd : forall k, deficits st k ->
            deficits (set_deficit_forecast inst st name month) k).
  { intros k Hk. unfold deficits in *. cbn.
    destruct (decide (k = (name, month))) as [->|Hne].
    - by rewrite lookup_insert_eq.
    - by rewrite lookup_insert_ne. }
  intros ->. split.
  - unfold deficits. cbn. by rewrite lookup_insert_eq.
  - intros k. split; [done|]. split; [apply Hd|]. split; [|done].
    intros (H1 & H2 & H3). split; [done|]. split; [by apply Hd|done].
Qed.

Lemma set_allocation_spec (st st' : state) (name : string) (month : Z) :
  set_allocation_forecast_entry demand_forecast st name month = Ok st' ->
  (pumped st (name, month) -> deficits st (name, month) ->
   loaded st' (name, month)) /\
  forall k, (pumped st k -> pumped st' k) /\
            (deficits st k -> deficits st' k) /\
            (loaded st k -> loaded st' k) /\
            (k <> (name, month) -> unallocated st k -> unallocated st' k).
Proof.
  unfold set_allocation_forecast_entry.
  destruct (demand_forecast !! (name, month)) as [demand|] eqn:Edem;
    [|discriminate].
  destruct (deficit_forecast st !! (name, month)) as [[deficit|]|] eqn:Edef;
    [|discriminate..].
  intros [= <-].
  assert (Hhere : pumped st (name, month) -> deficits st (name, month) ->
    loaded
      {| solver_status := solver_status st;
         allocation_forecast :=
           <[(name, month) := (demand - deficit)%Q]> (allocation_forecast st);
         pumping_forecast := pumping_forecast st;
         transfer_forecast := transfer_forecast st;
         deficit_forecast := deficit_forecast st;
         surplus_forecast := surplus_forecast st |} (name, month)).
  { intros Hp Hd. split; [done|]. split; [done|].
    exists demand, deficit. split; [done|]. split.
    - unfold deficits, Pyomo.value in *. cbn [fst snd] in Hd.
      rewrite Edef in Hd. by injection Hd as ->.
    - cbn. by rewrite lookup_insert_eq. }
  split; [done|].
  intros k. split; [done|]. split; [done|]. split.
  - intros (Hp & Hd & demand' & deficit' & H1 & H2 & H3).
    destruct (decide (k = (name, month))) as [->|Hne]; [by apply Hhere|].
    split; [done|]. split; [done|]. exists demand', deficit'. cbn.
    by rewrite lookup_insert_ne.
  - intros Hne Hk. unfold unallocated in *. cbn.
    by rewrite lookup_insert_ne.
Qed.

(** What a write establishes and keeps, read off its specification. *)
Local Ltac by_write H k :=
  let Hhere := fresh in
  let Hkeep := fresh in
  let Kp := fresh in
  let Kd := fresh in
  let Kl := fresh in
  let Ku := fresh in
  destruct H as [Hhere Hkeep];
  destruct (Hkeep k) as (Kp & Kd & Kl & Ku);
  first [exact Hhere | exact Kp | exact Kd | exact Kl | exact Ku].

(** The body of the loop over the governorates. *)
Lemma load_gov_spec (st st' : state) (name : string) :
  load_gov demand_forecast inst st name = Ok st' ->
  (forall month, In month months -> loaded st' (name, month)) /\
  forall k, (loaded st k -> loaded st' k) /\
            (pumped st k -> pumped st' k) /\
            (~ (fst k = name /\ In (snd k) months) ->
             unallocated st k -> unallocated st' k).
Proof.
  unfold load_gov.
  set (st1 := fold_left (fun st month => set_pumping_forecast inst st name month)
                months st).
  set (st2 := fold_left (fun st month => set_deficit_forecast inst st name month)
                months st1).
  intros Hrun.
  assert (H1 : forall month, In month months -> pumped st1 (name, month)).
  { apply (fold_left_each (fun month st => pumped st (name, month))
             (fun st month => set_pumping_forecast inst st name month)).
    - intros s m. by_write (set_pumping_spec s _ name m eq_refl) (name, m).
    - intros s m y. by_write (set_pumping_spec s _ name m eq_refl) (name, y). }
  assert (K1 : forall k, (loaded st k -> loaded st1 k) /\
                         (pumped st k -> pumped st1 k) /\
                         (unallocated st k -> unallocated st1 k)).
  { intros k. split; [|split].
    - apply (fold_left_keeps (fun st => loaded st k)).
      intros s m _. by_write (set_pumping_spec s _ name m eq_refl) k.
    - apply (fold_left_keeps (fun st => pumped st k)).
      intros s m _. by_write (set_pumping_spec s _ name m eq_refl) k.
    - apply (fold_left_keeps (fun st => unallocated st k)).
      intros s m _. by_write (set_pumping_spec s _ name m eq_refl) k. }
  assert (H2 : forall month, In month months ->
            pumped st2 (name, month) /\ deficits st2 (name, month)).
  { intros month Hm. split.
    - apply (fold_left_keeps (fun st => pumped st (name, month)));
        [|by apply H1].
      intros s m _. by_write (set_deficit_spec s _ name m eq_refl) (name, month).
    - revert month Hm.
      apply (fold_left_each (fun month st => deficits st (name, month))
               (fun st month => set_deficit_forecast inst st name month)).
      + intros s m. by_write (set_deficit_spec s _ name m eq_refl) (name, m).
      + intros s m y.
        by_write (set_deficit_spec s _ name m eq_refl) (name, y). }
  assert (K2 : forall k, (loaded st1 k -> loaded st2 k) /\
                         (pumped st1 k -> pumped st2 k) /\
                         (unallocated st1 k -> unallocated st2 k)).
  { intros k. split; [|split].
    - apply (fold_left_keeps (fun st => loaded st k)).
      intros s m _. by_write (set_deficit_spec s _ name m eq_refl) k.
    - apply (fold_left_keeps (fun st => pumped st k)).
      intros s m _. by_write (set_deficit_spec s _ name m eq_refl) k.
    - apply (fold_left_keeps (fun st => unallocated st k)).
      intros s m _. by_write (set_deficit_spec s _ name m eq_refl) k. }
  split.
  - apply (for_each_each (fun month st => loaded st (name, month))
             (fun st => forall month, In month months ->
                pumped st (name, month) /\ deficits st (name, month))
             _ _ _ _ Hrun H2).
    intros s m s' Hm Hbody Hready.
    destruct (set_allocation_spec s s' name m Hbody) as [Hhere Hkeep].
    split; [|split].
    + intros month Hmonth. destruct (Hready month Hmonth) as [Hp Hd].
      destruct (Hkeep (name, month)) as (Kp & Kd & _). split; auto.
    + apply Hhere; by apply Hready.
    + intros y. by destruct (Hkeep (name, y)) as (_ & _ & Kl & _).
  - intros k. destruct (K1 k) as (L1 & P1 & U1).
    destruct (K2 k) as (L2 & P2 & U2). split; [|split].
    + intros Hk. apply (for_each_keeps (fun st => loaded st k) _ _ _ _ Hrun);
        [|auto].
      intros s m s' _ Hbody.
      destruct (set_allocation_spec s s' name m Hbody) as [_ Hkeep].
      by destruct (Hkeep k) as (_ & _ & Kl & _).
    + intros Hk. apply (for_each_keeps (fun st => pumped st k) _ _ _ _ Hrun);
        [|auto].
      intros s m s' _ Hbody.
      destruct (set_allocation_spec s s' name m Hbody) as [_ Hkeep].
      by destruct (Hkeep k) as (Kp & _).
    + intros Hne Hk.
      apply (for_each_keeps (fun st => unallocated st k) _ _ _ _ Hrun);
        [|auto].
      intros s m s' Hm Hbody.
      destruct (set_allocation_spec s s' name m Hbody) as [_ Hkeep].
      destruct (Hkeep k) as (_ & _ & _ & Ku). apply Ku.
      intros ->. apply Hne. by split.
Qed.

(** The loop over the keys of [yearly_max_groundwater_pumping]. *)
Lemma load_gw_spec (st : state) :
  (forall name month, In name (gw_names ix) -> In month months ->
     pumped (load_gw ix inst st) (name, month)) /\
  forall k, (loaded st k -> loaded (load_gw ix inst st) k) /\
            (unallocated st k -> unallocated (load_gw ix inst st) k).
Proof.
  unfold load_gw.
  set (months_of := fun st name =>
         fold_left (fun st month => set_pumping_forecast inst st name month)
           months st).
  assert (Hkeep : forall s name k,
            (pumped s k -> pumped (months_of s name) k) /\
            (loaded s k -> loaded (months_of s name) k) /\
            (unallocated s k -> unallocated (months_of s name) k)).
  { intros s name k. unfold months_of. split; [|split].
    - apply (fold_left_keeps (fun st => pumped st k)).
      intros s1 m _. by_write (set_pumping_spec s1 _ name m eq_refl) k.
    - apply (fold_left_keeps (fun st => loaded st k)).
      intros s1 m _. by_write (set_pumping_spec s1 _ name m eq_refl) k.
    - apply (fold_left_keeps (fun st => unallocated st k)).
      intros s1 m _. by_write (set_pumping_spec s1 _ name m eq_refl) k. }
  split.
  - intros name month Hname Hmonth. revert name Hname.
    apply (fold_left_each (fun name st => pumped st (name, month)) months_of).
    + intros s name. revert month Hmonth. unfold months_of.
      apply (fold_left_each (fun month st => pumped st (name, month))
               (fun st month => set_pumping_forecast inst st name month)).
      * intros s1 m. by_write (set_pumping_spec s1 _ name m eq_refl) (name, m).
      * intros s1 m y.
        by_write (set_pumping_spec s1 _ name m eq_refl) (name, y).
    + intros s name y. apply Hkeep.
  - intros k. split.
    + apply (fold_left_keeps (fun st => loaded st k)).
      intros s name _. apply Hkeep.
    + apply (fold_left_keeps (fun st => unallocated st k)).
      intros s name _. apply Hkeep.
Qed.

(** The loop that fills [transfer_forecast] writes no other forecast. *)
Lemma load_transfers_spec (st : state) :
  allocation_forecast (load_transfers ix inst st) = allocation_forecast st /\
  pumping_forecast (load_transfers ix inst st) = pumping_forecast st /\
  deficit_forecast (load_transfers ix inst st) = deficit_forecast st.
Proof.
  unfold load_transfers.
  apply (fold_left_keeps
           (fun s => allocation_forecast s = allocation_forecast st /\
                     pumping_forecast s = pumping_forecast st /\
                     deficit_forecast s = deficit_forecast st));
    [|done].
  intros s m _ Hs.
  apply (fold_left_keeps
           (fun s => allocation_forecast s = allocation_forecast st /\
                     pumping_forecast s = pumping_forecast st /\
                     deficit_forecast s = deficit_forecast st));
    [|done].
  intros s1 line _ H1. exact H1.
Qed.

(** The loading as a whole. *)
Lemma load_results_spec (st st' : state) :
  load_results ix demand_forecast inst st = Ok st' ->
  (forall name month, In name (gov_names ix) -> In month months ->
     loaded st' (name, month)) /\
  (forall name month, In name (gw_names ix) -> In month months ->
     pumped st' (name, month)) /\
  (forall k, ~ (In (fst k) (gov_names ix) /\ In (snd k) months) ->
     unallocated st k -> unallocated st' k).
Proof.
  unfold load_results.
  destruct (totals ix inst) as [[]|]; [|discriminate].
  cbn [mbind result_bind].
  destruct (for_each (gov_names ix) (load_gov demand_forecast inst) st)
    as [st1|] eqn:Hgov; [|discriminate].
  cbn [mbind result_bind]. intros [= <-].
  destruct (load_transfers_spec (load_gw ix inst st1)) as (Ea & Ep & Ed).
  destruct (load_gw_spec st1) as [Hgw Hkeep].
  assert (Hsame : forall k,
            (loaded (load_gw ix inst st1) k ->
             loaded (load_transfers ix inst (load_gw ix inst st1)) k) /\
            (pumped (load_gw ix inst st1) k ->
             pumped (load_transfers ix inst (load_gw ix inst st1)) k) /\
            (unallocated (load_gw ix inst st1) k ->
             unallocated (load_transfers ix inst (load_gw ix inst st1)) k)).
  { intros k. unfold loaded, pumped, deficits, unallocated.
    by rewrite Ea, Ep, Ed. }
  split; [|split].
  - intros name month Hname Hmonth. apply Hsame, Hkeep.
    revert month Hmonth. revert name Hname.
    apply (for_each_each
             (fun name st => forall month, In month months ->
                loaded st (name, month))
             (fun _ => True) _ _ _ _ Hgov I).
    intros s name s' _ Hbody _.
    destruct (load_gov_spec s s' name Hbody) as [Hhere Hk].
    split; [done|]. split; [done|].
    intros y Hy month Hmonth. by apply Hk, Hy.
  - intros name month Hname Hmonth. by apply Hsame, Hgw.
  - intros k Hk Hun. apply Hsame, Hkeep.
    apply (for_each_keeps (fun st => unallocated st k) _ _ _ _ Hgov);
      [|done].
    intros s name s' Hname Hbody.
    destruct (load_gov_spec s s' name Hbody) as [_ Hkk].
    apply Hkk. intros [<- Hm]. apply Hk. by split.
Qed.

End Loaded.

(** X16. What an active WAJ books after the solver calls. When
    [set_allocation_forecast] returns, the cascade has left an instance,
    and for every governorate and every month 1..12 the deficit and the
    pumping forecast are the values of that instance and the allocation
    forecast is the demand forecast less the deficit, whatever the sign of
    the difference; the pumping forecast of every groundwater node is the
    value of the instance as well; no allocation is booked under any
    other key. *)
Theorem allocation_is_demand_less_deficit (ix : index_sets)
    (demand_forecast : gmap (string * Z) Q)
    (solve : solver -> outcome instance) (st st' : state) :
  set_allocation_forecast false ix demand_forecast solve st = Ok st' ->
  exists results inst,
    final (fst (solve_cascade (solver_status st) solve)) = Ok (results, inst) /\
    (forall name month, In name (gov_names ix) -> (1 <= month <= 12)%Z ->
       exists demand deficit,
         demand_forecast !! (name, month) = Some demand /\
         val_deficit inst name month = Some deficit /\
         allocation_forecast st' !! (name, month) = Some (demand - deficit)%Q /\
         deficit_forecast st' !! (name, month) = Some (Some deficit) /\
         pumping_forecast st' !! (name, month)
         = Some (val_P inst name month)) /\
    (forall name month, In name (gw_names ix) -> (1 <= month <= 12)%Z ->
       pumping_forecast st' !! (name, month) = Some (val_P inst name month)) /\
    (forall name month,
       ~ (In name (gov_names ix) /\ (1 <= month <= 12)%Z) ->
       allocation_forecast st' !! (name, month) = None).
Proof.
  assert (Hmonths : forall month, In month months <-> (1 <= month <= 12)%Z).
  { intros month. unfold months. rewrite In_range. lia. }
  unfold set_allocation_forecast. cbv beta iota zeta.
  cbn [solver_status].
  destruct (final (fst (solve_cascade (solver_status st) solve)))
    as [[results inst]|]; [|discriminate].
  intros Hload. exists results, inst. split; [done|].
  apply load_results_spec in Hload as (Hgov & Hgw & Hun).
  split; [|split].
  - intros name month Hname Hmonth. apply Hmonths in Hmonth.
    destruct (Hgov name month Hname Hmonth)
      as (Hp & Hd & demand & deficit & H1 & H2 & H3).
    exists demand, deficit. unfold pumped, deficits, Pyomo.value in *.
    cbn [fst snd] in *. rewrite H2 in Hd. by repeat split.
  - intros name month Hname Hmonth. apply Hmonths in Hmonth.
    apply (Hgw name month Hname Hmonth).
  - intros name month Hk. apply (Hun (name, month)).
    + cbn [fst snd]. by rewrite Hmonths.
    + unfold unallocated. cbn. apply lookup_empty.
Qed.

(** One governorate with a demand of 10 in every month; ipopt leaves an
    instance with a deficit of 3 and a pumping of 7 everywhere. *)
Definition amman_only : index_sets :=
  {| ix_nodes := ["amman"];
     ix_demand_nodes := ["amman"];
     ix_links := [];
     gov_names := ["amman"];
     gw_names := [] |}.

Definition demand_of_ten : gmap (string * Z) Q :=
  list_to_map (List.map (fun month => (("amman", month), 10%Q)) months).

Definition short_of_three (s : solver) : outcome instance :=
  Returns {| status := ok; termination_condition := optimal |}
    {| val_Q := fun _ _ _ => Some 0%Q;
       val_P := fun _ _ => Some 7%Q;
       val_deficit := fun _ _ => Some 3%Q |}.

Definition first_call : state :=
  {| solver_status := "ok";
     allocation_forecast := ∅;
     pumping_forecast := ∅;
     transfer_forecast := ∅;
     deficit_forecast := ∅;
     surplus_forecast := ∅ |}.

Lemma allocation_is_demand_less_deficit_witness :
  exists st',
    set_allocation_forecast false amman_only demand_of_ten short_of_three
      first_call = Ok st' /\
    allocation_forecast st' !! ("amman", 5%Z) = Some (10 - 3)%Q /\
    allocation_forecast st' !! ("irbid", 5%Z) = None.
Proof.
  destruct (set_allocation_forecast false amman_only demand_of_ten
              short_of_three first_call) as [st'|] eqn:E;
    [|vm_compute in E; discriminate].
  exists st'. split; [reflexivity|].
  destruct (allocation_is_demand_less_deficit _ _ _ _ _ E)
    as (results & inst & Hfin & Hgov & _ & Hun).
  vm_compute in Hfin. injection Hfin as _ <-.
  split.
  - destruct (Hgov "amman" 5%Z) as (demand & deficit & H1 & H2 & H3 & _);
      [by left|lia|].
    vm_compute in H1. injection H1 as <-. injection H2 as <-. exact H3.
  - apply Hun. intros [[H|[]] _]. discriminate.
Defined.

End WAJLoadFacts.

(** ** WAJ: the penalty lines of the deficits *)

Module WAJPenaltyFacts.

Local Open Scope Q_scope.

Section Lines.

Variable inc : Q.
Variable n_inc : Z.
Variable cost_inc c0 : Q.

(** The slope of line [k], the abscissa of knot [k] and the penalty at
    knot [k]: the first knot is at [-n_inc * inc] with penalty 1, the knots
    are [inc] apart and line [k] runs from knot [k] on. *)
Definition slope (k : nat) : Q := c0 * cost_inc ^ Z.of_nat k.

Definition knot (k : nat) : Q := inject_Z (Z.of_nat k - n_inc) * inc.

Fixpoint level (k : nat) : Q :=
  match k with
  | O => 1
  | S j => level j + slope j * inc
  end.

Hypothesis c0_pos : 0 < c0.
Hypothesis cost_inc_gt_1 : 1 < cost_inc.

Lemma slope_S (k : nat) : slope (S k) == slope k * cost_inc.
Proof.
  unfold slope. rewrite Nat2Z.inj_succ, <- Z.add_1_r.
  rewrite Qpower.Qpower_plus by lra. cbn. ring.
Qed.

Lemma slope_pos (k : nat) : 0 < slope k.
Proof.
  induction k as [|k IH].
  { unfold slope. change (cost_inc ^ Z.of_nat 0) with 1. lra. }
  rewrite slope_S. nra.
Qed.

Lemma slope_lt (j k : nat) : (j < k)%nat -> slope j < slope k.
Proof.
  induction 1 as [|k Hk IH].
  - rewrite slope_S. pose proof (slope_pos j). nra.
  - rewrite slope_S. pose proof (slope_pos k). nra.
Qed.

Lemma knot_S (k : nat) : knot (S k) == knot k + inc.
Proof.
  unfold knot.
  replace (Z.of_nat (S k) - n_inc)%Z with ((Z.of_nat k - n_inc) + 1)%Z by lia.
  rewrite inject_Z_plus. ring.
Qed.

(** The items of the dictionary are the lines, in order. *)
Definition lines (d : list (Q * Q)) : Prop :=
  forall j item, d !! j = Some item ->
    fst item == slope j /\
    fst item * knot j + snd item == level j /\
    fst item * knot (S j) + snd item == level (S j).

(** The locals when the condition is tested for the time [k]. *)
Definition at_test (k : nat) (l : WAJPenalties.locals) : Prop :=
  WAJPenalties.n l = (Z.of_nat k - n_inc)%Z /\
  WAJPenalties.x l == knot k /\
  WAJPenalties.c l == slope k /\
  WAJPenalties.c l * WAJPenalties.x l + WAJPenalties.b l == level k /\
  List.map fst (WAJPenalties.B l) = WAJPenalties.C l /\
  length (WAJPenalties.C l) = k /\
  lines (WAJPenalties.B l).

Lemma setitem_fresh (d : list (Q * Q)) (key v : Q) :
  (forall item, In item d -> ~ fst item == key) ->
  WAJPenalties.setitem d key v = d ++ [(key, v)].
Proof.
  intros Hfresh. unfold WAJPenalties.setitem.
  destruct (existsb _ d) eqn:E; [|done].
  apply existsb_exists in E as (item & Hin & Heq).
  apply Qeq_bool_iff in Heq. by destruct (Hfresh item Hin).
Qed.

Lemma body_at_test (k : nat) (l : WAJPenalties.locals) :
  at_test k l -> at_test (S k) (WAJPenalties.body inc cost_inc l).
Proof.
  intros (Hn & Hx & Hc & Hb & HB & Hlen & Hlines).
  assert (Hlen' : length (WAJPenalties.B l) = k).
  { by rewrite <- Hlen, <- HB, length_map. }
  assert (Hset : WAJPenalties.setitem (WAJPenalties.B l) (WAJPenalties.c l)
                   (WAJPenalties.b l)
                 = WAJPenalties.B l ++ [(WAJPenalties.c l, WAJPenalties.b l)]).
  { apply setitem_fresh. intros item Hin Heq.
    apply list_elem_of_In, list_elem_of_lookup_1 in Hin as [j Hj].
    pose proof (lookup_lt_Some _ _ _ Hj) as Hlt.
    destruct (Hlines j item Hj) as (Hs & _).
    assert (slope j < slope k) by (apply slope_lt; lia).
    rewrite Hs, Hc in Heq. lra. }
  unfold at_test, WAJPenalties.body. cbn. rewrite Hset.
  split; [lia|]. split; [rewrite knot_S, Hx; ring|].
  split; [rewrite slope_S, Hc; ring|].
  split.
  { rewrite <- Hb, <- Hc. ring. }
  split; [by rewrite map_app, HB|].
  split; [rewrite length_app; cbn; lia|].
  intros j item Hj.
  destruct (decide (j < k)%nat) as [Hlt|Hge].
  - rewrite lookup_app_l in Hj by lia. by apply Hlines.
  - rewrite lookup_app_r in Hj by lia.
    destruct (j - length (WAJPenalties.B l))%nat as [|i] eqn:Ei;
      [|by destruct i].
    assert (j = k) as -> by lia. injection Hj as <-. cbn [fst snd].
    split; [done|]. split.
    + rewrite <- Hb, <- Hx. ring.
    + cbn [level]. rewrite knot_S, <- Hb, <- Hx, <- Hc. ring.
Qed.

(** The loop stops after the test number [2 * n_inc + 1], counting from
    0, when it has the fuel for it. *)
Lemma while_at_test (m k fuel : nat) (l : WAJPenalties.locals) :
  (0 <= n_inc)%Z ->
  at_test k l ->
  (k + m)%nat = Z.to_nat (2 * n_inc + 1) ->
  (m < fuel)%nat ->
  exists l',
    WAJPenalties.while fuel n_inc inc cost_inc l = Some l' /\
    at_test (Z.to_nat (2 * n_inc + 1)) l'.
Proof.
  intros Hn_inc. revert k fuel l.
  induction m as [|m IH]; intros k fuel l Hl Hk Hfuel.
  - destruct fuel as [|fuel]; [lia|]. cbn.
    destruct Hl as (Hn & Hrest). rewrite Hn.
    destruct (Z.leb_spec (Z.of_nat k - n_inc) n_inc) as [Hle|Hgt]; [lia|].
    exists l. split; [done|]. rewrite <- Hk, Nat.add_0_r. by split.
  - destruct fuel as [|fuel]; [lia|]. cbn.
    pose proof Hl as (Hn & _). rewrite Hn.
    destruct (Z.leb_spec (Z.of_nat k - n_inc) n_inc) as [Hle|Hgt]; [|lia].
    apply (IH (S k)); [by apply body_at_test|lia|lia].
Qed.

Lemma find_line (d : list (Q * Q)) (key : nat -> Q) :
  (forall i j, (i < j)%nat -> key i < key j) ->
  (forall j item, d !! j = Some item -> fst item == key j) ->
  forall k item, d !! k = Some item ->
    WAJPenalties.getitem d (fst item) = Ok (snd item).
Proof.
  revert key. induction d as [|first d IH]; intros key Hkey Hd k item Hk;
    [done|].
  unfold WAJPenalties.getitem. cbn [List.find].
  destruct k as [|k].
  - injection Hk as <-.
    by rewrite (proj2 (Qeq_bool_iff (fst first) (fst first)) (Qeq_refl _)).
  - cbn in Hk.
    destruct (Qeq_bool (fst first) (fst item)) eqn:E.
    + apply Qeq_bool_iff in E.
      pose proof (Hd 0%nat first eq_refl) as H0.
      pose proof (Hd (S k) item Hk) as H1.
      pose proof (Hkey 0%nat (S k) ltac:(lia)) as Hlt.
      rewrite <- H0, <- H1 in Hlt. lra.
    + apply (IH (fun j => key (S j))) with (k := k); [| |done].
      * intros i j Hij. apply Hkey. lia.
      * intros j it Hj. by apply (Hd (S j)).
Qed.

End Lines.

(** X17. The penalty lines of [get_penalties] form one continuous broken
    line. For [n_inc >= 0], [c0 > 0] and [cost_inc > 1] the method returns
    (its loop ends after [2 * n_inc + 1] passes) the costs
    [c0 * cost_inc ^ k], [k = 0 .. 2 * n_inc], and under each cost the
    intercept of a line that runs through the knots [k] and [k + 1]: the
    knots are [inc] apart from [-n_inc * inc] on, the penalty at the first
    knot is 1, and from one knot to the next the penalty grows by the cost
    of the line times [inc]. So two lines that follow each other meet at
    their common knot. *)
Theorem penalty_lines_meet_at_the_knots (inc : Q) (n_inc : Z)
    (cost_inc c0 : Q) (fuel : nat) :
  (0 <= n_inc)%Z ->
  0 < c0 ->
  1 < cost_inc ->
  (Z.to_nat (2 * n_inc + 1) < fuel)%nat ->
  exists costs intercepts,
    WAJPenalties.get_penalties fuel inc n_inc cost_inc c0
    = Some (costs, intercepts) /\
    length costs = Z.to_nat (2 * n_inc + 1) /\
    List.map fst intercepts = costs /\
    forall k cost, costs !! k = Some cost ->
      cost == slope cost_inc c0 k /\
      exists intercept,
        WAJPenalties.getitem intercepts cost = Ok intercept /\
        cost * knot inc n_inc k + intercept == level inc cost_inc c0 k /\
        cost * knot inc n_inc (S k) + intercept
        == level inc cost_inc c0 (S k).
Proof.
  intros Hn_inc Hc0 Hcost Hfuel. unfold WAJPenalties.get_penalties.
  destruct (while_at_test inc n_inc cost_inc c0 Hc0 Hcost
              (Z.to_nat (2 * n_inc + 1)) 0 fuel
              {| WAJPenalties.C := [];
                 WAJPenalties.B := [];
                 WAJPenalties.x := inject_Z (- n_inc) * inc;
                 WAJPenalties.c := c0;
                 WAJPenalties.b := 1 - c0 * (inject_Z (- n_inc) * inc);
                 WAJPenalties.n := (- n_inc)%Z |})
    as (l & -> & Hn & Hx & Hc & Hb & HB & Hlen & Hlines);
    [done| |lia|done|].
  { unfold at_test. cbn.
    split; [lia|]. split.
    { unfold knot.
      replace (Z.of_nat 0 - n_inc)%Z with (- n_inc)%Z by lia. reflexivity. }
    split; [unfold slope; change (cost_inc ^ Z.of_nat 0) with 1; ring|].
    split; [ring|]. split; [done|]. split; [done|].
    intros j item Hj. done. }
  cbn. exists (WAJPenalties.C l), (WAJPenalties.B l).
  split; [done|]. split; [done|]. split; [done|].
  intros k cost Hk. rewrite <- HB, list_lookup_fmap in Hk.
  destruct (WAJPenalties.B l !! k) as [item|] eqn:Hitem; [|done].
  injection Hk as <-.
  destruct (Hlines k item Hitem) as (Hs & Hk0 & Hk1).
  split; [done|]. exists (snd item). split; [|done].
  apply (find_line (WAJPenalties.B l) (slope cost_inc c0)) with (k := k);
    [|intros j it Hj; by apply (Hlines j it Hj)|done].
  intros i j Hij. by apply slope_lt.
Qed.

(** The call of [set_allocation_forecast]: [get_penalties(1, 3, 20, 10.0)]. *)
Lemma penalty_lines_meet_at_the_knots_witness :
  exists costs intercepts,
    WAJPenalties.get_penalties 8 1 3 20 10 = Some (costs, intercepts) /\
    length costs = 7%nat /\
    List.map fst intercepts = costs /\
    forall k cost, costs !! k = Some cost ->
      cost == slope 20 10 k /\
      exists intercept,
        WAJPenalties.getitem intercepts cost = Ok intercept /\
        cost * knot 1 3 k + intercept == level 1 20 10 k /\
        cost * knot 1 3 (S k) + intercept == level 1 20 10 (S k).
Proof.
  apply (penalty_lines_meet_at_the_knots 1 3 20 10 8);
    [lia|reflexivity|reflexivity|vm_compute; lia].
Defined.

End WAJPenaltyFacts.

(** ** The balance of Mujib and Walah: rounding after the cut *)

Module ReservoirRoundingFacts.

Import Float64 ReservoirBalance ReservoirBalanceFacts.

(** The reservoir of Mujib holding 0.1 and receiving 0.2, with no
    evaporation and no seepage. *)
Definition puddle : node :=
  {| name := "mujib_res";
     volume := decimal 1 10;
     inflow := decimal 2 10;
     evap := of_Z 0;
     avg_seep := Some (of_Z 0) |}.

(** A supply that asks a release of 1.0 of either reservoir. *)
Definition unit_request : supply :=
  {| real_extraction := of_Z 1;
     yearly_max_groundwater_pumping := of_Z 1;
     mujib_annual_availability := of_Z 1;
     walah_annual_availability := of_Z 1 |}.

(** X18. Cutting the release down to the water that is there does not keep
    the volume of a reservoir from going negative. On Mujib with a volume
    of 0.1, an inflow of 0.2, no evaporation and no seepage, a requested
    release of 1.0 is greater than the available water, which the floats
    round to 0.30000000000000004 (5404319552844596 * 2^-54); the release is
    cut down to it, and the new volume [0.1 - 0 - 0 - release + 0.2],
    rounded operation by operation, is -2^-55 (about -2.8e-17), a negative
    number. *)
Theorem capped_release_can_overdraw :
  requested unit_request (name puddle) = of_Z 1 /\
  available puddle (of_Z 0)
  = SpecFloat.S754_finite false 5404319552844596 (-54) /\
  gt (requested unit_request (name puddle)) (available puddle (of_Z 0))
  = true /\
  booked unit_request puddle (of_Z 0) = available puddle (of_Z 0) /\
  exists n',
    run_mujib_walah_balance unit_request puddle = Ok n' /\
    volume n' = SpecFloat.S754_finite true 4503599627370496 (-107) /\
    lt (volume n') (of_Z 0) = true.
Proof.
  split; [reflexivity|]. split; [reflexivity|]. split; [reflexivity|].
  split; [reflexivity|].
  eexists. split; [vm_compute; reflexivity|]. split; reflexivity.
Qed.

End ReservoirRoundingFacts.
